(* ===== verification/_CoqProject ===== *)
-Q . S2P
Prelude.v
PyStr.v
Argparse.v
Corpus.v
Vocab.v
Batcher.v
Trainer.v
Script.v
Cluster.v
Flags.v
Publication.v
Termination.v
Logging.v
Config.v
