(* ===== verification/Prelude.v ===== *)
(** * A verification development for calm's data-sharding and coordination pipeline

    The repository (BenJamesbabala/calm) trains a recurrent language model
    over a tab-separated corpus of (username, text) records.  Two scripts are
    under src/:
    - [src/rnnlm.py]: the single-process driver.  [ReadData] streams the
      corpus with a positional train/eval split and a line limit; the script
      then builds and saves, or loads, the word and username vocabularies,
      prepares a [Dataset], and runs one of [Train], [Eval] or [Greedy].
    - [src/distrib.py]: the distributed driver.  Parameter-server task 0
      builds both vocabularies from the unsharded training partition, saves
      them, and creates the [READY] directory; every worker reads its shard,
      polls for [READY], loads the vocabularies and runs an asynchronous
      training loop against a shared global step until it observes 1000000
      steps or the supervisor stops it.
    [vocab.py] and [batcher.py] are imported by both scripts but are not
    under src/; their [Vocab] and [Dataset]/[ReadData] are modelled from the
    specification (marked spec_modelled in PROJECT.json).

    ** Files, and what they model
    - [Prelude] (this file): the Python exceptions as the inductive [exn],
      a [result] error monad with stdpp's [≫=] and [←] notation, the
      positional filter [pos_filter] shared by the train/eval split and the
      worker sharding, counting lemmas, and the [calm] hint databases.
    - [PyStr] (Module [PyStr]): the Python 2 string primitives the code
      calls: [s.split(sep)], [s.split()], [s.lower()] and iteration of a
      file into lines.
    - [Corpus] (Module [Corpus]): [rnnlm.ReadData] (src/rnnlm.py:33-55) as
      the loop [read_loop] with its early return and [skip_record] guards,
      and the sharded [batcher.ReadData] ([ReadDataSharded]) used by
      src/distrib.py:52,69-74.
    - [Vocab] (Module [Vocab]): [Vocab.MakeFromData] (counting with a
      [gmap], ranking with [merge_sort]), lookup, [idx_to_word], [len], the
      [Save]/[Load] pair, and the two vocabularies of a run
      (src/rnnlm.py:64-67); the class [TokenIndex] is what the batcher
      needs of a vocabulary.
    - [Batcher] (Module [Batcher]): the [Dataset] record and its state
      machine (Empty, Raw, Ready), [AddDataSource] with a reproducible
      shuffle, [Prepare] (proved against [TokenIndex]), the cyclic
      [GetNextBatch] with reshuffling at epoch boundaries, [GetNumBatches],
      and the evaluation loop's [GetNextBatches] (src/rnnlm.py:151-153).
    - [Trainer] (Module [Trainer]): the script body of src/rnnlm.py:
      [setup] (57-77), [Train] (85-116) with its log records and
      checkpoints as events, [Eval] (143-171) with its running totals in
      [Q], [Greedy] (119-136) with [np.argmax], [GetText] (139-141) and the
      feed [s[:, :-1]], [s[:, 1:]], and the mode dispatch (173-180) as
      [main], which writes the last checkpoint of [Train] to [model.bin]
      and [restore]s it for [Eval] and [Greedy].  The model (its cost,
      its checkpoints and its next-word distribution) is a section
      variable.
    - [Argparse] (Module [Argparse]): Python 2.7's [argparse] for a
      parser of [--name value] options, shared by both scripts: [classify]
      of one argument ([_parse_optional]: exact option, [--name=value],
      unique prefix, positional, [--]) over a Section's option table, and
      the consumption loop [consume] of [_parse_known_args] over the
      parser's own store, positional and extra actions.
    - [Script] (Module [Script]): the command line of src/rnnlm.py:17-25
      as [parse_args] for that parser (one positional [expdir], then
      [finish]: too few or unrecognized arguments), [os.mkdir] of the
      experiment directory (27-28) as
      [ensure_dir], and [script], the whole program run with an [argv]
      over a map from directory paths to directories.
    - [Cluster] (Module [Cluster]): [main] of src/distrib.py as a labelled
      transition system: [proc_step] is one statement of one process
      (program counter [Pc]; the parameters file is a [result string]
      whose error crashes the process after [tf.train.Server]), [step]
      adds the training step, split into three events as [sess.run] runs
      it ([EvTrain]: the batch and the entry into [sess.run]; [EvInc]:
      [train_op]'s increment of [global_step]; [EvFetch]: the read of
      [global_step], in either order, with other workers in between; the
      worker's [Flight] says how far its call is), the stop signal, the
      supervisor checkpoint and worker restarts; [reachable] is rule
      induction over [step] from [init_cluster].  The state is the shared
      directory ([gmap string entry]), the global step, the chief's
      initialization flag and the processes.
    - [Flags] (Module [Flags]): the [tf.app.flags] of src/distrib.py:14-30
      and [tf.app.run()] (160): [parse_flags] is [parse_known_args] over
      the seven flags, integer flags read by Python 2's [int()]
      ([py_int]); [proc_of_argv] is the process of [Cluster] a command
      line starts, a parser error or a negative task index ending it at
      once.
    - [Publication] (Module [Publication]): the contract of the [READY]
      protocol as an abstract transition system [Spec.spec_step] (publish
      once, acquire after publication, release, stutter), the
      abstraction [abs] of a cluster ([published]: what a worker polling
      the directory would load, src/distrib.py:79-86; and what each
      process trains with), and the refinement of [Cluster.step] and of
      its runs to it.
    - [Termination] (Module [Termination]): the counting invariant
      [train_inv] of the training loop (src/distrib.py:115-150): before
      the chief's initialization nobody trains, afterwards [global_step]
      is the restored checkpoint plus the number of training steps.
    - [Logging] (Module [Logging]): the training log of the workers
      (src/distrib.py:111-113,148-154): [train_obs] is the worker and the
      step of the [sess.run] an event completes, [log_line] what it
      writes, [run_log] a run with its log, each line tagged with the
      process writing it; [log_of j] is process [j]'s own log.
    - [Config] (Module [Config]): where each configuration error stops a
      process: a bad integer flag in the parser, a bad job or task at
      [tf.train.Server], an unreadable parameters file (45-47) right
      after it, an unknown model name ([models[params.model]], 97-98)
      only after the data has been read.

    ** Theorems, by group
    - Corpus: [ReadData] equals its closed form [read_spec]; it fails
      exactly when one of the first [limit + 2] lines does not have one
      tab; training and evaluation reads partition the read prefix; the
      shards of all workers are a permutation of the unsharded read, and
      worker [w] of [n] gets [(N + n - 1 - w) / n] of its [N] records;
      every text is [<S> tokens </S>].
    - Vocab: a token has its own index iff it
      occurs at least [min_count] times; the index is a bijection onto
      [1, size); tokens are ranked by count then text; the vocabulary does
      not depend on the order of the corpus; [idx_to_word] inverts lookup.
    - Batcher: every batch of a prepared dataset has [batch_size] rows of
      width [max_len] and ids in range; [GetNextBatch] never fails on a
      prepared non-empty dataset; the [GetNumBatches()] evaluation batches
      read every row once and then [ceil(n/bs)*bs - n] rows of the next
      epoch.
    - Trainer: [Train] runs 800000 iterations and checkpoints exactly at
      multiples of 1000; [Eval] never divides by zero and prints the
      token-weighted mean cost of exactly its batches; [Greedy] never
      raises; [eval] after [train] in one
      directory uses the saved vocabularies; the whole script run in
      [train] mode and then in [eval] mode ends without an exception and
      evaluates the checkpoint of iteration 799000.
    - Script: [parse_args] reads back a rendered command line and gives
      the declared defaults; [rnnlm.py d] then [rnnlm.py d --mode eval] both succeed; [eval] or
      [debug] in a missing directory creates it and raises [IOError].
    - Cluster: the coordination invariant [coord_inv] (vocabulary files
      hold the leader's vocabularies, [READY] implies both files) and the
      role invariant are preserved by every step; hence no worker passes
      the barrier before [READY], all training workers hold the same
      vocabularies; every training worker draws its batches from exactly
      the prepared records of its own shard; [global_step] is bounded by
      [max(checkpoint, 1000000) + 2 * workers + restarts], and a run
      with stale reads of [global_step] reaches [1000003] with two
      workers; a rerun in a directory with [READY] never lets task 0
      join.
    - Publication: every step of the cluster is a step (or a stutter) of
      the publication contract, so every reachable cluster abstracts to a
      reachable state of the contract and every run to a run of it (a
      refinement proved as a step simulation, by rule induction); hence
      the vocabularies are published once and never change afterwards,
      and every training worker trains with exactly them.
    - Termination: without worker restarts and with one chief, the
      cluster performs at most [max(c0, 1000000) - c0] training steps plus
      two per worker, [c0] being the checkpointed step found, whatever
      the interleaving of increments and reads.
    - Logging: without restarts and with one chief, every worker's own
      log is non-decreasing, its steps multiples of 10 and never above
      [global_step]; the interleaved log of two workers may go back, two
      workers may log the same step, and after a chief restart the
      chief's own log goes back.
    - Flags: [parse_flags] reads back the command line that sets every
      flag as [--name=value] (integers by [str()], read back by [int()])
      and passes the remaining positionals on.
    - Config: with an unknown model name no worker ever trains, in any
      reachable state; a run shows the [KeyError] comes after the shard
      and the corpus were read; an unreadable parameters file crashes
      every process before it writes anything or trains; a bad
      [--task_index] exits with status 2.

    ** Bounds and fuel
    All recursion is structural (on lines, tokens, rows, or an explicit
    iteration count), so no fuel is needed and every definition computes;
    the witnesses run them with [vm_compute].  The constants of the code
    (limit 2500000, 800000 iterations, the 1000000-step bound) are the
    code's; proofs that mention them rewrite under [seq] so that they are
    never unfolded into unary numbers, and the last checkpoint 799000 is
    the named constant [Trainer.last_checkpoint].  The termination bound
    needs no fuel either: it is a counting invariant over the reachable
    states, with a potential per worker ([Cluster.pot]: the increments a
    worker may still add once every value it reads is past the bound, at
    most two) whose sum falls by what [global_step] gains.  Costs and probabilities are exact
    rationals rather than floats.

    ** Not modelled
    The neural models and the TensorFlow machinery (loss, gradients, Adam,
    gradient clipping, session restore), bz2 decompression, the pickle
    format (replaced by an escaped text format of our own, which loads
    back what it saved; no theorem is claimed about it),
    the usage and help text argparse prints, print output and the cost and time fields of log lines, the arguments
    [--model], [--fancy_bias] and [--dataset] beyond their parsing (the
    code never reads them), and wall-clock time
    (polling and the 900-second checkpoint interval are events).  The
    final [sv.stop()] (src/distrib.py:157) is Supervisor internals: its
    last checkpoint is an [EvCheckpoint] event, not a statement.  The
    imports, the model and session objects (src/rnnlm.py:1-16,29-32,
    79-83; src/distrib.py:1-12, 91-96, 127-128) build library objects
    only.  The host lists of [Cluster] are section variables shared by
    all processes: a cluster whose processes were given different host
    lists is not modelled.
    See PROJECT.json for the component list. *)

From stdpp Require Export base list gmap strings sorting.
From Stdlib Require Export ZArith Lia.

Declare Scope calm_scope.
Delimit Scope calm_scope with calm.

Create HintDb calm discriminated.
Create Rewrite HintDb calm_rw.

(** ** Python exceptions *)

(** The exceptions the modelled code can raise; each is fatal for the
    process that raises it. *)
Inductive exn :=
| ValueError        (** tuple unpacking of [line.split('\t')] *)
| OSError           (** [os.mkdir] on a path that exists (Python 2: [OSError], [EEXIST]) *)
| IOError           (** opening a file that does not exist *)
| UnpicklingError   (** [Vocab.Load] of a corrupt blob *)
| KeyError          (** dictionary lookup of an absent key *)
| UsageError        (** a [Dataset] method called in the wrong state *)
| ZeroDivisionError (** [k % 0], [x / 0] *)
| IndexError        (** indexing past the end of an array *)
| SystemExit (code : nat). (** [sys.exit(code)], as [argparse] calls it *)

#[export] Instance exn_eq_dec : EqDecision exn.
Proof. solve_decision. Defined.

(** ** The error monad *)

Inductive result (A : Type) : Type :=
| Ok (a : A)
| Err (e : exn).
Arguments Ok {A} a.
Arguments Err {A} e.

#[export] Instance result_ret : MRet result := fun _ a => Ok a.
#[export] Instance result_bind : MBind result :=
  fun _ _ k m => match m with Ok a => k a | Err e => Err e end.
#[export] Instance result_fmap : FMap result :=
  fun _ _ f m => match m with Ok a => Ok (f a) | Err e => Err e end.

Definition is_ok {A} (r : result A) : bool :=
  match r with Ok _ => true | Err _ => false end.

Lemma bind_Ok {A B} (m : result A) (k : A -> result B) b :
  (m ≫= k) = Ok b <-> exists a, m = Ok a /\ k a = Ok b.
Proof.
  destruct m as [a|e]; simpl.
  - split; [eauto|]. intros (a'&Ha&Hk). injection Ha as <-. done.
  - split; [discriminate|]. intros (a'&Ha&_). discriminate.
Qed.

Lemma bind_Err {A B} (m : result A) (k : A -> result B) e :
  (m ≫= k) = Err e <-> m = Err e \/ exists a, m = Ok a /\ k a = Err e.
Proof.
  destruct m as [a|e']; simpl.
  - split; [eauto|]. intros [?|(a'&Ha&Hk)]; [discriminate|]. injection Ha as <-. done.
  - split; [intros H; injection H as ->; by left|]. intros [H|(?&?&?)]; [injection H as ->; done|discriminate].
Qed.

Lemma bind_ret_Ok {A B} (a : A) (k : A -> result B) : (Ok a ≫= k) = k a.
Proof. reflexivity. Qed.

Lemma bind_ret_Err {A B} e (k : A -> result B) : (Err e ≫= k) = Err e.
Proof. reflexivity. Qed.

#[export] Hint Rewrite @bind_ret_Ok @bind_ret_Err : calm_rw.

(** Destruct the binds of a hypothesis [_ ≫= _ = Ok _]. *)
Ltac inv_bind :=
  repeat match goal with
  | H : (_ ≫= _) = Ok _ |- _ =>
      apply bind_Ok in H as (?&?&?)
  | H : Ok _ = Ok _ |- _ => injection H as H
  | H : Ok _ = Err _ |- _ => discriminate H
  | H : Err _ = Ok _ |- _ => discriminate H
  end.

(** [mapM] over [result]: it succeeds exactly when every call does. *)
Lemma mapM_result_cons {A B} (f : A -> result B) x l :
  mapM f (x :: l) = (y ← f x; ys ← mapM f l; Ok (y :: ys)).
Proof. reflexivity. Qed.

Lemma mapM_Ok {A B} (f : A -> result B) l ys :
  mapM f l = Ok ys <-> Forall2 (fun x y => f x = Ok y) l ys.
Proof.
  revert ys. induction l as [|x l IH]; intros ys.
  - simpl. split; [intros [= <-]; constructor | intros H; inversion H; done].
  - rewrite mapM_result_cons. split.
    + intros H. inv_bind. subst. constructor; [done|]. by apply IH.
    + intros H. inversion H as [|? y ? ys' Hy Hys]; subst.
      rewrite Hy. simpl. apply IH in Hys. by rewrite Hys.
Qed.

Lemma mapM_is_ok {A B} (f : A -> result B) l :
  is_ok (mapM f l) = forallb (fun x => is_ok (f x)) l.
Proof.
  induction l as [|x l IH]; [done|]. rewrite mapM_result_cons. cbn [forallb].
  destruct (f x); simpl; [|done]. rewrite <-IH. by destruct (mapM f l).
Qed.

Lemma is_ok_Ok {A} (r : result A) : is_ok r = true <-> exists a, r = Ok a.
Proof. destruct r; simpl; split; try naive_solver. Qed.

(** [mapM] succeeds when every call does. *)
Lemma mapM_total {A B} (f : A -> result B) l :
  (forall x, x ∈ l -> exists y, f x = Ok y) -> exists ys, mapM f l = Ok ys.
Proof.
  intros H. apply is_ok_Ok. rewrite mapM_is_ok. apply forallb_forall.
  intros x Hx%list_elem_of_In. apply is_ok_Ok. by apply H.
Qed.

(** ** Positional filtering

    [pos_filter p i l] keeps the element of [l] at position [j] (counted
    from [i]) when [p j] holds.  The train/eval split of [ReadData] and the
    worker sharding are both positional filters. *)

Fixpoint pos_filter {A} (p : nat -> bool) (i : nat) (l : list A) : list A :=
  match l with
  | [] => []
  | x :: l' => if p i then x :: pos_filter p (S i) l' else pos_filter p (S i) l'
  end.

Section PosFilter.
Context {A : Type}.
Implicit Types (l : list A) (p q : nat -> bool).

Lemma pos_filter_ext p q i l :
  (forall j, i <= j < i + length l -> p j = q j) ->
  pos_filter p i l = pos_filter q i l.
Proof.
  revert i. induction l as [|x l IH]; intros i Hpq; simpl; [done|].
  rewrite (Hpq i) by (simpl; lia). rewrite (IH (S i)); [done|].
  intros j Hj. apply Hpq. simpl. lia.
Qed.

Lemma pos_filter_app p i l1 l2 :
  pos_filter p i (l1 ++ l2) = pos_filter p i l1 ++ pos_filter p (i + length l1) l2.
Proof.
  revert i. induction l1 as [|x l1 IH]; intros i; simpl.
  - by rewrite Nat.add_0_r.
  - rewrite IH. replace (S i + length l1) with (i + S (length l1)) by lia.
    by destruct (p i).
Qed.

Lemma pos_filter_length p i l :
  length (pos_filter p i l) = length (filter p (seq i (length l))).
Proof.
  revert i. induction l as [|x l IH]; intros i; simpl; [done|].
  rewrite filter_cons. destruct (p i); simpl; by rewrite IH.
Qed.

Lemma elem_of_pos_filter p i l x :
  x ∈ pos_filter p i l <-> exists j, l !! j = Some x /\ p (i + j) = true.
Proof.
  revert i. induction l as [|y l IH]; intros i; simpl.
  - split; [intros ?%elem_of_nil; done | by intros (?&?&?)].
  - destruct (p i) eqn:Hp; rewrite ?elem_of_cons, IH; split.
    + intros [->|(j&?&?)]; [exists 0; rewrite Nat.add_0_r; done|].
      exists (S j). rewrite Nat.add_succ_r. done.
    + intros ([|j]&Hj&?); simplify_eq/=; [by left|].
      right. exists j. rewrite <-Nat.add_succ_r. done.
    + intros (j&?&?). exists (S j). rewrite Nat.add_succ_r. done.
    + intros ([|j]&Hj&?); simplify_eq/=; [rewrite Nat.add_0_r in *; congruence|].
      exists j. rewrite <-Nat.add_succ_r. done.
Qed.

(** A positional filter and its complement split the list. *)
Lemma pos_filter_complement p i l :
  pos_filter p i l ++ pos_filter (fun j => negb (p j)) i l ≡ₚ l.
Proof.
  revert i. induction l as [|x l IH]; intros i; simpl; [done|].
  destruct (p i); simpl.
  - by rewrite IH.
  - rewrite <-Permutation_middle. by rewrite IH.
Qed.

(** Bucketing by a classifier [c] with values below [n]: the [n] buckets,
    concatenated, are a permutation of the list. *)
Lemma pos_filter_buckets (c : nat -> nat) n i l :
  (forall j, c j < n) ->
  concat (map (fun w => pos_filter (fun j => c j =? w) i l) (seq 0 n)) ≡ₚ l.
Proof.
  intros Hc. revert i. induction l as [|x l IH]; intros i; simpl.
  - induction (seq 0 n); simpl; done.
  - specialize (Hc i). remember (c i) as w eqn:Hw. clear Hw.
    assert (Hsplit : seq 0 n = seq 0 w ++ [w] ++ seq (S w) (n - S w)).
    { replace n with (w + S (n - S w)) at 1 by lia. by rewrite seq_app. }
    transitivity (x :: concat (map (fun w' => pos_filter (fun j => c j =? w') (S i) l) (seq 0 n)));
      [|by rewrite IH].
    rewrite Hsplit, !map_app, !concat_app. simpl.
    rewrite Nat.eqb_refl. simpl. rewrite <-Permutation_middle.
    rewrite (map_ext_in _ (fun w' => pos_filter (fun j => c j =? w') (S i) l) (seq 0 w)).
    2:{ intros v Hv%in_seq. destruct (Nat.eqb_spec w v); [lia|done]. }
    rewrite (map_ext_in _ (fun w' => pos_filter (fun j => c j =? w') (S i) l) (seq (S w) _)).
    2:{ intros v Hv%in_seq. destruct (Nat.eqb_spec w v); [lia|done]. }
    done.
Qed.
End PosFilter.

Lemma Forall2_map_self {A B} (R : A -> B -> Prop) (f : A -> B) l :
  (forall x, x ∈ l -> R x (f x)) -> Forall2 R l (map f l).
Proof.
  induction l as [|x l IH]; intros H; simpl; constructor.
  - apply H. by left.
  - apply IH. intros y Hy. apply H. by right.
Qed.

Lemma StronglySorted_lookup {A} (R : relation A) l i j x y :
  StronglySorted R l -> i < j -> l !! i = Some x -> l !! j = Some y -> R x y.
Proof.
  intros Hs. revert i j. induction Hs as [|z l Hs IH Hz]; intros i j Hij Hi Hj; [done|].
  destruct i as [|i], j as [|j]; simpl in *; try lia.
  - injection Hi as <-. eapply Forall_forall; [exact Hz|]. by eapply list_elem_of_lookup_2.
  - apply (IH i j); [lia|done..].
Qed.

(** Counting the elements that satisfy [f] across an in-place update. *)
Definition count_true {A} (f : A -> bool) (l : list A) : nat := length (filter f l).

Lemma count_true_insert {A} (f : A -> bool) (l : list A) i x y :
  l !! i = Some x ->
  count_true f (<[i := y]> l) + (if f x then 1 else 0) = count_true f l + (if f y then 1 else 0).
Proof.
  unfold count_true. revert i. induction l as [|z l IH]; intros i Hi; [done|].
  destruct i as [|i]; simpl in *.
  - injection Hi as ->. rewrite !filter_cons. destruct (f x), (f y); simpl; lia.
  - rewrite !filter_cons. specialize (IH i Hi). destruct (f z); simpl; lia.
Qed.

Lemma count_true_le {A} (f g : A -> bool) (l : list A) :
  (forall x, f x = true -> g x = true) -> count_true f l <= count_true g l.
Proof.
  intros Hfg. unfold count_true. induction l as [|z l IH]; simpl; [done|].
  rewrite !filter_cons. destruct (f z) eqn:E; [rewrite (Hfg z E)|destruct (g z)]; simpl; lia.
Qed.

(** Summing a per-element weight across an in-place update. *)
Lemma sum_list_with_insert {A} (f : A -> nat) (l : list A) i x y :
  l !! i = Some x -> sum_list_with f (<[i := y]> l) + f x = sum_list_with f l + f y.
Proof.
  revert i. induction l as [|z l IH]; intros i Hi; [done|].
  destruct i as [|i]; simpl in *; [injection Hi as ->; lia|]. specialize (IH i Hi). lia.
Qed.

Lemma sum_list_with_le_count {A} (f : A -> nat) (g : A -> bool) (k : nat) (l : list A) :
  (forall x, f x <= if g x then k else 0) -> sum_list_with f l <= k * count_true g l.
Proof.
  intros Hf. unfold count_true. induction l as [|z l IH]; simpl; [lia|].
  rewrite filter_cons. specialize (Hf z). destruct (g z); simpl; lia.
Qed.

Lemma count_true_pos {A} (f : A -> bool) (l : list A) i x :
  l !! i = Some x -> f x = true -> 1 <= count_true f l.
Proof.
  unfold count_true. revert i. induction l as [|z l IH]; intros [|i] Hi Hx; simpl in *; try done.
  - injection Hi as ->. rewrite filter_cons, Hx. simpl. lia.
  - rewrite filter_cons. specialize (IH i Hi Hx). destruct (f z); simpl; lia.
Qed.

Lemma StronglySorted_app_last {A} (R : relation A) l y :
  StronglySorted R l -> Forall (fun x => R x y) l -> StronglySorted R (l ++ [y]).
Proof.
  induction l as [|x l IH]; simpl; intros Hs Hf; [by repeat constructor|].
  inversion Hs; subst. inversion Hf; subst. constructor; [auto|]. apply Forall_app. by split; [|constructor].
Qed.

(** ** Counting residues *)

Lemma div_succ_step n a :
  n <> 0 -> S a / n = a / n + (if S a mod n =? 0 then 1 else 0).
Proof.
  intros Hn. pose proof (Nat.div_mod a n Hn) as Ha. pose proof (Nat.mod_upper_bound a n Hn).
  destruct (Nat.eq_dec (S (a mod n)) n) as [Heq|Hne].
  - rewrite <-(Nat.div_unique (S a) n (S (a / n)) 0), <-(Nat.mod_unique (S a) n (S (a / n)) 0);
      try lia; simpl; lia.
  - rewrite <-(Nat.div_unique (S a) n (a / n) (S (a mod n))),
            <-(Nat.mod_unique (S a) n (a / n) (S (a mod n))); try lia. simpl. lia.
Qed.

Lemma mod_shift_zero n w m :
  w < n -> ((m + (n - w)) mod n =? 0) = (m mod n =? w).
Proof.
  intros Hw. assert (Hn : n <> 0) by lia.
  pose proof (Nat.div_mod m n Hn) as Hm. pose proof (Nat.mod_upper_bound m n Hn).
  replace (m + (n - w)) with ((m mod n + (n - w)) + m / n * n) by lia.
  rewrite Nat.Div0.mod_add. destruct (Nat.eqb_spec (m mod n) w) as [->|Hne].
  - replace (w + (n - w)) with n by lia. by rewrite Nat.Div0.mod_same.
  - destruct (Nat.lt_ge_cases (m mod n + (n - w)) n).
    + rewrite Nat.mod_small by lia. apply Nat.eqb_neq. lia.
    + replace (m mod n + (n - w)) with ((m mod n - w) + 1 * n) by lia.
      rewrite Nat.Div0.mod_add, Nat.mod_small by lia. apply Nat.eqb_neq. lia.
Qed.

(** Among [0 .. m-1], [(m + n - 1 - w) / n] positions are [w] modulo [n]. *)
Lemma count_residue n w m :
  w < n -> length (filter (fun k => k mod n =? w) (seq 0 m)) = (m + n - 1 - w) / n.
Proof.
  intros Hw. induction m as [|m IH].
  - simpl. rewrite Nat.div_small by lia. done.
  - rewrite seq_S, filter_app, length_app, IH, filter_cons, filter_nil.
    replace (S m + n - 1 - w) with (S (m + n - 1 - w)) by lia.
    rewrite div_succ_step by lia. replace (S (m + n - 1 - w)) with (m + (n - w)) by lia.
    rewrite mod_shift_zero by done. simpl.
    by destruct (m mod n =? w).
Qed.

#[export] Hint Resolve pos_filter_complement pos_filter_buckets : calm.
