(* ===== verification/PyStr.v ===== *)
(** * Python 2 string primitives

    The string operations the corpus reader calls on byte strings
    (Python 2 [str]): [s.split(sep)] for a one-character separator,
    [s.split()] with no argument, [s.lower()], and iteration over a file
    object, which yields its lines with their ['\n'] terminators.
    Characters are [ascii]; [str.lower] and [str.isspace] act on ASCII
    only, as they do for Python 2 byte strings in the C locale. *)

From S2P Require Import Prelude.
From Stdlib Require Import Ascii.
Local Open Scope string_scope.

Module PyStr.

(** ** Character classes *)

Definition TAB : ascii := "009".
Definition NL : ascii := "010".

(** [str.isspace] on one character: space, \t, \n, \v, \f, \r. *)
Definition py_isspace (c : ascii) : bool :=
  let n := nat_of_ascii c in (Nat.eqb n 32 || (Nat.leb 9 n && Nat.leb n 13))%bool.

Definition py_isupper (c : ascii) : bool :=
  let n := nat_of_ascii c in (Nat.leb 65 n && Nat.leb n 90)%bool.

(** [str.lower] on one character. *)
Definition lower_char (c : ascii) : ascii :=
  if py_isupper c then ascii_of_nat (nat_of_ascii c + 32) else c.

(** ** [str.lower] *)
Fixpoint py_lower (s : string) : string :=
  match s with
  | EmptyString => EmptyString
  | String c s' => String (lower_char c) (py_lower s')
  end.

(** ** Splitting

    [split_on p s] cuts [s] at every character satisfying [p]; the result
    always has one more field than [s] has separators.  [s.split(sep)] is
    [split_on (=sep)], and [s.split()] is [split_on py_isspace] with the
    empty fields removed. *)
Fixpoint split_on (p : ascii -> bool) (s : string) : list string :=
  match s with
  | EmptyString => [""]
  | String c s' =>
      let fields := split_on p s' in
      if p c then "" :: fields
      else match fields with
           | f :: fs => String c f :: fs
           | [] => [String c ""]
           end
  end.

Definition py_split_sep (sep : ascii) (s : string) : list string :=
  split_on (fun c => Ascii.eqb c sep) s.

Definition py_split_ws (s : string) : list string :=
  filter (fun f => f <> "") (split_on py_isspace s).

(** ** File iteration

    [for line in f] yields each line with its terminating ['\n']; the last
    line has none when the file does not end in a newline, and an empty
    file yields nothing. *)
Fixpoint attach_nl (fs : list string) : list string :=
  match fs with
  | [] => []
  | [f] => if String.eqb f "" then [] else [f]
  | f :: fs' => (f ++ String NL "") :: attach_nl fs'
  end.

Definition py_lines (content : string) : list string :=
  attach_nl (py_split_sep NL content).

(** ** Lemmas *)

(** stdpp makes [String.append] opaque to [simpl]; these are its
    equations. *)
Lemma string_app_nil_l (s : string) : ("" ++ s)%string = s.
Proof. reflexivity. Qed.

Lemma string_app_cons c (s1 s2 : string) : (String c s1 ++ s2)%string = String c (s1 ++ s2).
Proof. reflexivity. Qed.

Lemma string_app_nil_r (s : string) : (s ++ "")%string = s.
Proof. induction s as [|c s IH]; [reflexivity|]. by rewrite string_app_cons, IH. Qed.

#[export] Hint Rewrite string_app_nil_l string_app_cons string_app_nil_r : calm_rw.

Fixpoint count_chars (p : ascii -> bool) (s : string) : nat :=
  match s with
  | EmptyString => 0
  | String c s' => (if p c then 1 else 0) + count_chars p s'
  end.

Fixpoint str_forall (p : ascii -> bool) (s : string) : bool :=
  match s with
  | EmptyString => true
  | String c s' => p c && str_forall p s'
  end.

Lemma split_on_nonnil p s : split_on p s <> [].
Proof.
  induction s as [|c s IH]; simpl; [done|].
  destruct (p c); [done|]. by destruct (split_on p s).
Qed.

Lemma length_split_on p s : length (split_on p s) = S (count_chars p s).
Proof.
  induction s as [|c s IH]; simpl; [done|].
  destruct (p c); simpl; [by rewrite IH|].
  destruct (split_on p s) eqn:E; simpl in *; [done|]. done.
Qed.

(** No field contains a separator. *)
Lemma split_on_fields p s :
  Forall (fun f => str_forall (fun c => negb (p c)) f = true) (split_on p s).
Proof.
  induction s as [|c s IH]; simpl; [by repeat constructor|].
  destruct (p c) eqn:Hc; [by constructor|].
  destruct (split_on p s) as [|f fs] eqn:E; [by repeat constructor; simpl; rewrite Hc|].
  inversion IH as [|? ? Hf Hfs]; subst. constructor; [|done]. simpl. by rewrite Hc, Hf.
Qed.

Lemma lower_char_not_upper c : py_isupper (lower_char c) = false.
Proof.
  unfold lower_char. destruct (py_isupper c) eqn:E; [|exact E].
  unfold py_isupper in *. apply andb_true_iff in E as [E1 E2].
  apply Nat.leb_le in E1, E2. rewrite nat_ascii_embedding by lia.
  apply andb_false_iff. right. apply Nat.leb_gt. lia.
Qed.

Lemma lower_char_space c : py_isspace (lower_char c) = py_isspace c.
Proof.
  unfold lower_char. destruct (py_isupper c) eqn:E; [|done].
  unfold py_isupper in E. apply andb_true_iff in E as [E1 E2].
  apply Nat.leb_le in E1, E2. unfold py_isspace. rewrite nat_ascii_embedding by lia.
  destruct (Nat.eqb_spec (nat_of_ascii c + 32) 32), (Nat.eqb_spec (nat_of_ascii c) 32),
    (Nat.leb_spec 9 (nat_of_ascii c + 32)), (Nat.leb_spec (nat_of_ascii c + 32) 13),
    (Nat.leb_spec 9 (nat_of_ascii c)), (Nat.leb_spec (nat_of_ascii c) 13); simpl; lia.
Qed.

(** Fields of a split inherit every property of the characters of the
    split string. *)
Lemma split_on_forall p q s :
  str_forall q s = true -> Forall (fun f => str_forall q f = true) (split_on p s).
Proof.
  induction s as [|c s IH]; simpl; [by repeat constructor|].
  intros [Hc Hs]%andb_true_iff. specialize (IH Hs).
  destruct (p c); [by constructor|].
  destruct (split_on p s) as [|f fs]; [by repeat constructor; simpl; rewrite Hc|].
  inversion IH as [|? ? Hf Hfs]; subst. constructor; [|done]. simpl. by rewrite Hc, Hf.
Qed.

Lemma str_forall_and p q s :
  str_forall (fun c => p c && q c) s = str_forall p s && str_forall q s.
Proof.
  induction s as [|c s IH]; simpl; [done|]. rewrite IH.
  by destruct (p c), (q c), (str_forall p s), (str_forall q s).
Qed.

Lemma py_lower_not_upper s : str_forall (fun c => negb (py_isupper c)) (py_lower s) = true.
Proof. induction s as [|c s IH]; simpl; [done|]. by rewrite lower_char_not_upper, IH. Qed.

(** A token of [s.split()] is non-empty and has no whitespace. *)
Definition token_ok (w : string) : bool :=
  bool_decide (w <> ""%string) &&
  str_forall (fun c => negb (py_isspace c) && negb (py_isupper c)) w.

Lemma py_split_ws_lower_ok s : Forall (fun w => token_ok w = true) (py_split_ws (py_lower s)).
Proof.
  unfold py_split_ws.
  pose proof (split_on_fields py_isspace (py_lower s)) as H1.
  pose proof (split_on_forall py_isspace _ _ (py_lower_not_upper s)) as H2.
  apply Forall_forall. intros w [Hne Hw]%list_elem_of_filter.
  eapply Forall_forall in H1, H2; [|exact Hw..].
  unfold token_ok. rewrite str_forall_and, H1, H2. by rewrite bool_decide_eq_true_2.
Qed.

#[export] Hint Resolve split_on_nonnil lower_char_not_upper py_split_ws_lower_ok : calm.

End PyStr.
