(* ===== verification/Argparse.v ===== *)
(** * Python 2.7's [argparse], for a parser of [--name value] options

    Both scripts read their command line through [argparse]:
    src/rnnlm.py:17-25 with [parser.parse_args()], src/distrib.py:14-30
    through [tf.app.flags], whose [DEFINE_string] and [DEFINE_integer]
    add an option [--name] to one global [ArgumentParser] and whose
    [tf.app.run()] calls its [parse_known_args].  This file holds what the
    two parsers share, in a Section over the option table: the
    classification of one argument ([_parse_optional]: an exact option,
    [--name=value], a unique prefix, a positional, the [--] marker) and
    the left-to-right consumption loop of [_parse_known_args], over a
    parser state and the parser's own store, positional and extra
    actions.  Every option but [-h]/[--help] takes exactly one argument
    ([nargs=None]); [-h] exits with status 0 when it is consumed, an
    error of the parser with status 2. *)

From S2P Require Import Prelude PyStr.
From Stdlib Require Import Ascii.
Import PyStr.
Local Open Scope string_scope.

Module Argparse.

(** [parser.error(...)]: [sys.exit(2)]. *)
Definition USAGE_EXIT : exn := SystemExit 2.

(** ** Pieces of strings *)

(** [s.split(c, 1)] when [c] occurs in [s]. *)
Fixpoint split_first (c : ascii) (s : string) : option (string * string) :=
  match s with
  | EmptyString => None
  | String d s' =>
      if Ascii.eqb d c then Some (EmptyString, s')
      else (fun p => (String d p.1, p.2)) <$> split_first c s'
  end.

Definition is_digit (c : ascii) : bool :=
  let n := nat_of_ascii c in (48 <=? n)%nat && (n <=? 57)%nat.

Fixpoint all_digits (s : string) : bool :=
  match s with EmptyString => true | String c s' => is_digit c && all_digits s' end.

Definition nonempty_digits (s : string) : bool :=
  match s with EmptyString => false | _ => all_digits s end.

(** [s] is [t + '\n']. *)
Fixpoint chop_nl (s : string) : option string :=
  match s with
  | EmptyString => None
  | String c EmptyString => if Ascii.eqb c NL then Some EmptyString else None
  | String c s' => String c <$> chop_nl s'
  end.

Definition neg_number_full (s : string) : bool :=
  match s with
  | String c r =>
      Ascii.eqb c "-" &&
      (nonempty_digits r ||
       match split_first "." r with Some (a, b) => all_digits a && nonempty_digits b | None => false end)
  | EmptyString => false
  end.

(** [_negative_number_matcher = re.compile(r'^-\d+$|^-\d*\.\d+$')]:
    [$] also matches before a final newline. *)
Definition neg_number (s : string) : bool :=
  neg_number_full s || match chop_nl s with Some t => neg_number_full t | None => false end.

Definition has_space (s : string) : bool := negb (count_chars (fun c => Ascii.eqb c " ") s =? 0)%nat.

(** No [=] in [s]: true of every option string of both parsers. *)
Definition no_eq (s : string) : bool := str_forall (fun c => negb (Ascii.eqb c "=")) s.

(** An argument the parser always takes as a positional. *)
Definition plain (s : string) : bool :=
  match s with String c _ => negb (Ascii.eqb c "-") | EmptyString => true end.

(** ** Classifying an argument *)

Section Classify.
Context {O : Type}.
(** [self._option_string_actions]: every option string with its action. *)
Variable option_strings : list (string * O).

Fixpoint assoc_opt (s : string) (l : list (string * O)) : option O :=
  match l with
  | [] => None
  | (k, o) :: l' => if bool_decide (k = s) then Some o else assoc_opt s l'
  end.

(** [arg_string in self._option_string_actions]. *)
Definition lookup_opt (s : string) : option O := assoc_opt s option_strings.

(** [_get_option_tuples]: the options an argument abbreviates, with the
    argument attached to it. *)
Definition option_tuples (s : string) : list (O * string * option string) :=
  match s with
  | String c1 (String c2 rest) =>
      if Ascii.eqb c2 "-" then
        let '(pre, ex) := match split_first "=" s with Some (a, b) => (a, Some b) | None => (s, None) end in
        omap (fun p => if String.prefix pre p.1 then Some (p.2, p.1, ex) else None) option_strings
      else
        omap (fun p => if bool_decide (p.1 = String c1 (String c2 EmptyString)) then Some (p.2, p.1, Some rest)
                       else if String.prefix s p.1 then Some (p.2, p.1, None) else None) option_strings
  | _ => []
  end.

(** An argument as the parser sees it: an option (known or not) with its
    attached argument, a positional, or the [--] marker. *)
Inductive Item :=
| IOpt (o : option O) (s : string) (explicit : option string)
| IArg (s : string)
| IMark.

(** [_parse_optional]. *)
Definition classify (s : string) : result Item :=
  match s with
  | EmptyString => Ok (IArg s)
  | String c rest =>
      if negb (Ascii.eqb c "-") then Ok (IArg s) else
      match lookup_opt s with
      | Some o => Ok (IOpt (Some o) s None)
      | None =>
          match rest with
          | EmptyString => Ok (IArg s)
          | _ =>
              match (match split_first "=" s with
                     | Some (k, v) => (fun o => IOpt (Some o) k (Some v)) <$> lookup_opt k
                     | None => None end) with
              | Some it => Ok it
              | None =>
                  match option_tuples s with
                  | [] => Ok (if neg_number s || has_space s then IArg s else IOpt None s None)
                  | [(o, os, ex)] => Ok (IOpt (Some o) os ex)
                  | _ => Err USAGE_EXIT
                  end
              end
          end
      end
  end.

(** The first pass of [_parse_known_args]: after [--] everything is
    positional. *)
Fixpoint classify_all (argv : list string) : result (list Item) :=
  match argv with
  | [] => Ok []
  | a :: rest =>
      if bool_decide (a = "--") then Ok (IMark :: map IArg rest)
      else it ← classify a; its ← classify_all rest; Ok (it :: its)
  end.

End Classify.

Arguments Item : clear implicits.
Arguments IOpt {O} o s explicit.
Arguments IArg {O} s.
Arguments IMark {O}.

(** ** Consuming the arguments *)

(** [-h] with an attached argument [v] ([consume_optional] on a
    single-dash flag): every character of [v] is read as one more flag,
    [-h] being the only single-dash option of both parsers; the help
    action runs first when they all are [-h], an unknown one is an error,
    and an empty [v] (from [-h=]) indexes an empty string. *)
Fixpoint help_chain (v : string) : exn :=
  match v with
  | EmptyString => SystemExit 0
  | String c v' => if Ascii.eqb c "h" then help_chain v' else USAGE_EXIT
  end.

Definition help_explicit (os v : string) : exn :=
  match os with
  | String _ (String c EmptyString) =>
      if Ascii.eqb c "-" then USAGE_EXIT
      else match v with EmptyString => IndexError | _ => help_chain v end
  | _ => USAGE_EXIT
  end.

Section Consume.
Context {O St : Type}.
Variable is_help : O -> bool.
(** The [store] action of an option, with its [type] conversion. *)
Variable set_opt : O -> string -> St -> result St.
(** A positional argument and an unrecognized argument. *)
Variable positional : string -> St -> St.
Variable extra : string -> St -> St.
(** The [--] marker between positionals. *)
Variable mark : St -> St.

(** The consumption loop: an unknown option is an extra; [-h] exits when
    consumed; an option needs one positional right after it (an
    optional's [nargs] pattern allows no [--]). *)
Fixpoint consume (items : list (Item O)) (st : St) : result St :=
  match items with
  | [] => Ok st
  | IMark :: rest => consume rest (mark st)
  | IArg s :: rest => consume rest (positional s st)
  | IOpt None s _ :: rest => consume rest (extra s st)
  | IOpt (Some o) os ex :: rest =>
      if is_help o then Err (match ex with None => SystemExit 0 | Some v => help_explicit os v end)
      else match ex with
      | Some v => st' ← set_opt o v st; consume rest st'
      | None =>
          match rest with
          | IArg v :: rest' => st' ← set_opt o v st; consume rest' st'
          | _ => Err USAGE_EXIT
          end
      end
  end.

End Consume.

(** ** Facts shared by the two parsers *)

Lemma classify_plain {O} (opts : list (string * O)) s : plain s = true -> classify opts s = Ok (IArg s).
Proof. destruct s as [|c s]; [done|]. simpl. intros H. unfold classify. by rewrite H. Qed.

Lemma classify_all_nil {O} (opts : list (string * O)) : classify_all opts [] = Ok [].
Proof. reflexivity. Qed.

Lemma classify_all_plain_cons {O} (opts : list (string * O)) s rest :
  plain s = true -> classify_all opts (s :: rest) = its ← classify_all opts rest; Ok (IArg s :: its).
Proof.
  intros H. simpl. rewrite bool_decide_eq_false_2 by (intros ->; discriminate).
  by rewrite classify_plain, bind_ret_Ok.
Qed.

Lemma classify_all_plain {O} (opts : list (string * O)) l :
  Forall (fun s => plain s = true) l -> classify_all opts l = Ok (map IArg l).
Proof. induction 1; [done|]. rewrite classify_all_plain_cons by done. by rewrite IHForall, bind_ret_Ok. Qed.

Lemma lookup_opt_Some {O} (opts : list (string * O)) s o : lookup_opt opts s = Some o -> (s, o) ∈ opts.
Proof.
  unfold lookup_opt. induction opts as [|[k o'] l IH]; simpl; [done|].
  case_bool_decide; [intros [= ->]; subst; left|intros; right; auto].
Qed.

Lemma classify_err {O} (opts : list (string * O)) s e : classify opts s = Err e -> e = USAGE_EXIT.
Proof. unfold classify. repeat case_match; intros Hc; simplify_eq; try done;
  match goal with H : _ <$> ?x = Some _ |- _ => destruct x; simplify_eq end. Qed.

Lemma classify_arg {O} (opts : list (string * O)) s t : classify opts s = Ok (IArg t) -> t = s.
Proof. unfold classify. repeat case_match; intros Hc; simplify_eq; try done;
  match goal with H : _ <$> ?x = Some _ |- _ => destruct x; simplify_eq end. Qed.

Lemma str_forall_app p s t : str_forall p (s ++ t) = str_forall p s && str_forall p t.
Proof. induction s as [|c s IH]; simpl; [done|]. by rewrite IH, andb_assoc. Qed.

Lemma no_eq_assign s v : no_eq (s ++ String "=" v) = false.
Proof. unfold no_eq. rewrite str_forall_app. simpl. by rewrite andb_false_r. Qed.

Lemma split_first_assign s v : no_eq s = true -> split_first "=" (s ++ String "=" v) = Some (s, v).
Proof.
  unfold no_eq. induction s as [|c s IH]; simpl; [done|].
  intros [Hc Hs]%andb_prop. destruct (Ascii.eqb c "="); [discriminate|]. by rewrite IH.
Qed.

(** [--name=value] for an option [--name] of the table gives that option
    with the attached value, whatever the value. *)
Lemma classify_assign {O} (opts : list (string * O)) name o v :
  Forall (fun p => no_eq p.1 = true) opts -> plain name = false -> lookup_opt opts name = Some o ->
  classify opts (name ++ String "=" v) = Ok (IOpt (Some o) name (Some v)).
Proof.
  intros Hopts Hn Hl.
  assert (Hname : no_eq name = true)
    by (apply lookup_opt_Some in Hl; exact (proj1 (Forall_forall _ _) Hopts _ Hl)).
  assert (Hnone : lookup_opt opts (name ++ String "=" v) = None).
  { destruct (lookup_opt opts (name ++ String "=" v)) as [o'|] eqn:E; [|done]. apply lookup_opt_Some in E.
    apply (proj1 (Forall_forall _ _) Hopts) in E. change (no_eq (name ++ String "=" v) = true) in E.
    by rewrite no_eq_assign in E. }
  destruct name as [|c n]; [done|]. simpl in Hn. unfold classify.
  assert (E : String c n ++ String "=" v = String c (n ++ String "=" v)) by reflexivity.
  rewrite E in Hnone |- *. rewrite Hn, Hnone, <- E.
  rewrite (split_first_assign (String c n) v Hname). simpl. rewrite Hl. by destruct n.
Qed.

Lemma classify_all_assign {O} (opts : list (string * O)) name o v rest :
  Forall (fun p => no_eq p.1 = true) opts -> plain name = false -> lookup_opt opts name = Some o ->
  classify_all opts ((name ++ String "=" v) :: rest) =
    its ← classify_all opts rest; Ok (IOpt (Some o) name (Some v) :: its).
Proof.
  intros Hopts Hn Hl. simpl. rewrite bool_decide_eq_false_2.
  - by rewrite (classify_assign opts name o v), bind_ret_Ok.
  - intros Hm. assert (Hno := no_eq_assign name v). rewrite Hm in Hno. discriminate.
Qed.

Lemma classify_all_err {O} (opts : list (string * O)) l e : classify_all opts l = Err e -> e = USAGE_EXIT.
Proof.
  induction l as [|a l IH]; simpl; [done|]. case_bool_decide; [done|].
  destruct (classify opts a) as [it|e'] eqn:E; simpl; [|intros [= <-]; by eapply classify_err].
  destruct (classify_all opts l); simpl; [done|]. intros [= <-]. by apply IH.
Qed.

(** Positionals are consumed one by one by the positional action. *)
Lemma consume_args {O St} (is_help : O -> bool) set_opt positional extra mark (l : list string) (st : St) :
  consume is_help set_opt positional extra mark (map IArg l) st = Ok (foldl (fun st s => positional s st) st l).
Proof. revert st. induction l as [|s l IH]; intros st; simpl; [done|]. apply IH. Qed.

End Argparse.
