(* ===== verification/Corpus.v ===== *)
(** * The corpus reader

    [ReadData] is src/rnnlm.py:33-55: it iterates over the decompressed
    corpus line by line, unpacks [line.split('\t')] into exactly two fields
    (a [ValueError] otherwise), stops after position [limit], keeps the
    positions of the partition selected by the mode ([idnum % 10 >= 1] for
    training, [idnum % 10 < 1] otherwise) and tokenizes the text.
    [ReadDataSharded] is [batcher.ReadData] as src/distrib.py calls it
    (worker sharding after the split); [batcher.py] is not under src/, so it
    is modelled from the specification. *)

From S2P Require Import Prelude PyStr.
From Stdlib Require Import Ascii.
Import PyStr.

Local Set Warnings "-abstract-large-number".

Module Corpus.

(** [args.mode]: src/rnnlm.py:19. *)
Inductive Mode := Train | Debug | EvalMode.

#[export] Instance Mode_eq_dec : EqDecision Mode.
Proof. solve_decision. Defined.

(** The two [continue] guards of src/rnnlm.py:47-50. *)
Definition skip_record (mode : Mode) (idnum : nat) : bool :=
  (bool_decide (mode = Train) && (idnum mod 10 <? 1)) ||
  (bool_decide (mode <> Train) && (1 <=? idnum mod 10)).

Definition keep_record (mode : Mode) (idnum : nat) : bool :=
  negb (skip_record mode idnum).

(** [username, text = line.split('\t')] (src/rnnlm.py:39). *)
Definition unpack2 (fields : list string) : result (string * string) :=
  match fields with
  | [u; t] => Ok (u, t)
  | _ => Err ValueError
  end.

Definition parse_line (line : string) : result (string * string) :=
  unpack2 (py_split_sep TAB line).

(** [['<S>'] + text.lower().split() + ['</S>']] (src/rnnlm.py:53). *)
Definition tokenize (text : string) : list string :=
  "<S>"%string :: py_split_ws (py_lower text) ++ ["</S>"%string].

(** The loop body of src/rnnlm.py:38-53, from position [idnum] on. *)
Fixpoint read_loop (mode : Mode) (limit idnum : nat) (lines : list string)
    : result (list string * list (list string)) :=
  match lines with
  | [] => Ok ([], [])
  | line :: rest =>
      '(username, text) ← parse_line line;
      if limit <? idnum then Ok ([], [])
      else if skip_record mode idnum then read_loop mode limit (S idnum) rest
      else '(us, ts) ← read_loop mode limit (S idnum) rest;
           Ok (username :: us, tokenize text :: ts)
  end.

(** [ReadData(filename, limit=2500000)] on the decompressed contents of
    the file. *)
Definition DEFAULT_LIMIT : nat := 2500000.
Definition ReadData (mode : Mode) (content : string) (limit : nat)
    : result (list string * list (list string)) :=
  read_loop mode limit 0 (py_lines content).

(** ** The sharded reader of batcher.py (spec_modelled) *)

(** Position [k] of the partition goes to worker [k mod num_workers]. *)
Definition shard {A} (worker num_workers : nat) (recs : list A) : list A :=
  pos_filter (fun k => k mod num_workers =? worker) 0 recs.

Definition records_of (recs : list (string * string))
    : list string * list (list string) :=
  (map fst recs, map (fun r => tokenize r.2) recs).

Definition ReadDataSharded (mode : Mode) (limit : option nat)
    (worker num_workers : nat) (content : string)
    : result (list string * list (list string)) :=
  let lines := match limit with
               | Some n => take n (py_lines content)
               | None => py_lines content
               end in
  ps ← mapM parse_line lines;
  if num_workers =? 0 then Err ZeroDivisionError
  else Ok (records_of (shard worker num_workers (pos_filter (keep_record mode) 0 ps))).

(** ** The functional specification of [ReadData]

    Read from position [i]: the first [limit + 2 - i] lines are parsed
    (the line after the limit included, since the code splits it before
    testing [idnum > limit]), and the records are the positions up to
    [limit] that the mode keeps. *)
Definition read_spec (mode : Mode) (limit i : nat) (lines : list string)
    : result (list string * list (list string)) :=
  ps ← mapM parse_line (take (S (S limit) - i) lines);
  Ok (records_of (pos_filter (keep_record mode) i (take (S limit - i) ps))).

Lemma read_loop_spec mode limit i lines :
  i <= S limit -> read_loop mode limit i lines = read_spec mode limit i lines.
Proof.
  unfold read_spec. revert i. induction lines as [|line rest IH]; intros i Hi.
  { rewrite take_nil. simpl. rewrite take_nil. done. }
  replace (S (S limit) - i) with (S (S limit - i)) by lia. cbn [take read_loop].
  rewrite mapM_result_cons. destruct (parse_line line) as [[u t]|e]; [simpl|done].
  destruct (Nat.ltb_spec limit i).
  - replace (S limit - i) with 0 by lia. simpl. by destruct (mapM parse_line rest).
  - rewrite (IH (S i)) by lia. replace (S (S limit) - S i) with (S limit - i) by lia.
    replace (S limit - i) with (S (limit - i)) by lia. unfold keep_record.
    destruct (mapM parse_line (take (S (limit - i)) rest)) as [ps|e]; simpl;
      destruct (skip_record mode i); simpl; done.
Qed.

Lemma ReadData_eq_spec mode content limit :
  ReadData mode content limit = read_spec mode limit 0 (py_lines content).
Proof. apply read_loop_spec. lia. Qed.

(** C6: [ReadData] is its specification [read_spec]: it parses the first
    [limit + 2] lines and returns, in file order, the records at the
    positions [0 .. limit] that the mode keeps. *)
Lemma ReadData_spec mode content limit :
  ReadData mode content limit = read_spec mode limit 0 (py_lines content).
Proof. apply ReadData_eq_spec. Qed.

(** ** Parsing a line *)

Definition tab_count (line : string) : nat := count_chars (fun c => Ascii.eqb c TAB) line.

Lemma parse_line_ok line : is_ok (parse_line line) = (tab_count line =? 1).
Proof.
  unfold parse_line, tab_count, py_split_sep.
  replace (count_chars _ line) with (pred (length (split_on (fun c => Ascii.eqb c TAB) line)))
    by (by rewrite length_split_on).
  by destruct (split_on _ line) as [|f1 [|f2 [|f3 fs]]].
Qed.

Lemma parse_line_err line e : parse_line line = Err e -> e = ValueError.
Proof.
  unfold parse_line, unpack2. by destruct (py_split_sep TAB line) as [|? [|? []]]; intros [=].
Qed.

Lemma mapM_parse_line_err lines e : mapM parse_line lines = Err e -> e = ValueError.
Proof.
  induction lines as [|l lines IH]; [done|]. rewrite mapM_result_cons.
  destruct (parse_line l) eqn:E; simpl; [|intros [= ->]; by eapply parse_line_err].
  destruct (mapM parse_line lines); simpl; [done|]. intros [= ->]. by apply IH.
Qed.

Lemma forallb_false {A} (f : A -> bool) l :
  forallb f l = false <-> Exists (fun x => f x = false) l.
Proof.
  induction l as [|x l IH]; simpl.
  - split; [done|]. intros H. inversion H.
  - rewrite andb_false_iff, IH, Exists_cons. done.
Qed.

(** ** Split lemmas *)

Lemma keep_record_train i : keep_record Train i = negb (i mod 10 =? 0).
Proof.
  unfold keep_record, skip_record.
  rewrite (bool_decide_eq_true_2 (Train = Train)), (bool_decide_eq_false_2 (Train <> Train))
    by (done || (intros H; by apply H)).
  rewrite andb_true_l, andb_false_l, orb_false_r. by destruct (Nat.ltb_spec (i mod 10) 1), (Nat.eqb_spec (i mod 10) 0); try lia.
Qed.

Lemma keep_record_other mode i :
  mode <> Train -> keep_record mode i = negb (keep_record Train i).
Proof.
  intros Hm. rewrite keep_record_train. unfold keep_record, skip_record.
  rewrite (bool_decide_eq_false_2 (mode = Train)), (bool_decide_eq_true_2 (mode <> Train)) by done.
  rewrite andb_true_l, andb_false_l, orb_false_l.
  by destruct (Nat.leb_spec 1 (i mod 10)), (Nat.eqb_spec (i mod 10) 0); try lia.
Qed.

Lemma zip_records_of (recs : list (string * string)) :
  zip (map fst recs) (map (fun r => tokenize r.2) recs) = map (fun r => (r.1, tokenize r.2)) recs.
Proof. induction recs as [|[u t] recs IH]; simpl; [done|]. by rewrite <-IH. Qed.

#[export] Hint Rewrite keep_record_train : calm_rw.

(** ** Properties of [ReadData] *)

(** C7: [ReadData] raises exactly when one of the first [limit + 2] lines
    does not have exactly one tab; the error is then a [ValueError].  The
    line at position [limit + 1], which is never kept, is parsed too. *)
Theorem ReadData_error mode content limit :
  ReadData mode content limit = Err ValueError <->
  Exists (fun line => tab_count line <> 1) (take (S (S limit)) (py_lines content)).
Proof.
  rewrite ReadData_eq_spec. unfold read_spec.
  pose proof (mapM_is_ok parse_line (take (S (S limit) - 0) (py_lines content))) as Hok.
  rewrite Nat.sub_0_r in *.
  assert (Hiff : forall L, Exists (fun line => tab_count line <> 1) L <->
                           Exists (fun x => is_ok (parse_line x) = false) L).
  { intros L. rewrite !Exists_exists. setoid_rewrite parse_line_ok.
    by setoid_rewrite Nat.eqb_neq. }
  rewrite Hiff. split.
  - intros H. apply forallb_false. rewrite <-Hok.
    by destruct (mapM parse_line _).
  - intros H%forallb_false. rewrite <-Hok in H.
    destruct (mapM parse_line _) as [ps|e] eqn:E; [done|].
    simpl. by rewrite (mapM_parse_line_err _ _ E).
Qed.

(** The records of a successful read, as (username, tokens) pairs. *)
Lemma ReadData_Ok mode content limit us ts :
  ReadData mode content limit = Ok (us, ts) ->
  exists ps, mapM parse_line (take (S (S limit)) (py_lines content)) = Ok ps /\
    records_of (pos_filter (keep_record mode) 0 (take (S limit) ps)) = (us, ts).
Proof.
  rewrite ReadData_eq_spec. unfold read_spec. rewrite !Nat.sub_0_r.
  destruct (mapM parse_line _) as [ps|e]; [rewrite bind_ret_Ok | by rewrite bind_ret_Err].
  intros H. exists ps. split; [done|]. congruence.
Qed.

(** C1: the training read and any other read of the same file partition
    the records at positions [0..limit]: together they hold every record
    of the read prefix exactly once. *)
Theorem ReadData_train_eval_partition mode content limit ut tt :
  mode <> Train -> ReadData Train content limit = Ok (ut, tt) ->
  exists ue te ps,
    ReadData mode content limit = Ok (ue, te) /\
    mapM parse_line (take (S (S limit)) (py_lines content)) = Ok ps /\
    zip ut tt ++ zip ue te ≡ₚ map (fun r => (r.1, tokenize r.2)) (take (S limit) ps).
Proof.
  intros Hm (ps & Hps & Hrec)%ReadData_Ok.
  pose (recs_e := pos_filter (keep_record mode) 0 (take (S limit) ps)).
  exists (records_of recs_e).1, (records_of recs_e).2, ps. split_and!; [|done|].
  - rewrite ReadData_eq_spec. unfold read_spec. rewrite !Nat.sub_0_r, Hps. by destruct (records_of _).
  - replace ut with (records_of (pos_filter (keep_record Train) 0 (take (S limit) ps))).1
      by by rewrite Hrec.
    replace tt with (records_of (pos_filter (keep_record Train) 0 (take (S limit) ps))).2
      by by rewrite Hrec.
    cbn [records_of fst snd]. rewrite !zip_records_of, <-map_app. apply Permutation_map.
    unfold recs_e. rewrite (pos_filter_ext (keep_record mode) (fun j => negb (keep_record Train j)))
      by (intros; by apply keep_record_other).
    apply pos_filter_complement.
Qed.

(** C19: every text [ReadData] returns is [<S>], then tokens that are
    non-empty, lowercase and free of whitespace, then [</S>]; there is one
    text per username. *)
Theorem ReadData_texts_shape mode content limit us ts :
  ReadData mode content limit = Ok (us, ts) ->
  length us = length ts /\
  Forall (fun t => exists ws, t = "<S>"%string :: ws ++ ["</S>"%string] /\
                              Forall (fun w => token_ok w = true) ws) ts.
Proof.
  intros (ps & _ & Hrec)%ReadData_Ok. injection Hrec as <- <-.
  rewrite !length_map. split; [done|].
  apply Forall_map, Forall_forall. intros r _.
  eexists. split; [reflexivity|]. apply py_split_ws_lower_ok.
Qed.

(** ** Sharding *)

Lemma shard_one {A} (l : list A) : shard 0 1 l = l.
Proof.
  unfold shard. rewrite (pos_filter_ext _ (fun _ => true)).
  - generalize 0. induction l as [|x l IH]; intros i; simpl; [done|]. by rewrite IH.
  - intros j _. by rewrite Nat.mod_1_r.
Qed.

(** The [n] shards together hold every record exactly once. *)
Lemma shard_cover {A} n (l : list A) :
  0 < n -> concat (map (fun w => shard w n l) (seq 0 n)) ≡ₚ l.
Proof. intros Hn. apply (pos_filter_buckets (fun j => j mod n)). intros j. apply Nat.mod_upper_bound. lia. Qed.

(** C2: for any number [n >= 1] of workers, the reads of the [n] workers,
    concatenated, are a permutation of the unsharded read: every record of
    the partition is read by exactly one worker. *)
Theorem ReadDataSharded_union mode lim n content us ts :
  0 < n -> ReadDataSharded mode lim 0 1 content = Ok (us, ts) ->
  exists outs,
    Forall2 (fun w o => ReadDataSharded mode lim w n content = Ok o) (seq 0 n) outs /\
    concat (map (fun o => zip o.1 o.2) outs) ≡ₚ zip us ts.
Proof.
  intros Hn. unfold ReadDataSharded.
  destruct (mapM parse_line _) as [ps|e]; [rewrite !bind_ret_Ok | by rewrite bind_ret_Err].
  cbn [Nat.eqb]. intros Hrec. injection Hrec as <- <-.
  set (P := pos_filter (keep_record mode) 0 ps).
  exists (map (fun w => records_of (shard w n P)) (seq 0 n)). split.
  - apply Forall2_map_self. intros w _. by destruct (Nat.eqb_spec n 0); [lia|].
  - rewrite zip_records_of, shard_one, map_map.
    cbn [records_of fst snd]. setoid_rewrite zip_records_of.
    eapply Permutation_trans; [|apply Permutation_map, (shard_cover n P Hn)].
    rewrite concat_map, map_map. done.
Qed.

Lemma shard_length {A} w n (l : list A) :
  w < n -> length (shard w n l) = (length l + n - 1 - w) / n.
Proof. intros Hw. unfold shard. rewrite pos_filter_length. by apply count_residue. Qed.

(** C18: with [n] workers, worker [w < n] reads [(m + n - 1 - w) / n] of the
    [m] records of the unsharded read, so shard sizes differ by at most
    one. *)
Theorem ReadDataSharded_length mode lim w n content us ts us' ts' :
  w < n ->
  ReadDataSharded mode lim 0 1 content = Ok (us, ts) ->
  ReadDataSharded mode lim w n content = Ok (us', ts') ->
  length us' = (length us + n - 1 - w) / n.
Proof.
  intros Hw. unfold ReadDataSharded.
  destruct (mapM parse_line _) as [ps|e]; [rewrite !bind_ret_Ok | by rewrite bind_ret_Err].
  cbn [Nat.eqb]. intros H1. injection H1 as <- _.
  destruct (Nat.eqb_spec n 0); [lia|]. intros H2. injection H2 as <- _.
  rewrite !length_map, shard_one. by apply shard_length.
Qed.

(** ** Concrete corpora *)

Definition sample_line (u t : string) : string := (u ++ String TAB t ++ String NL "")%string.

Fixpoint sample_corpus (n : nat) : string :=
  match n with
  | 0 => ""%string
  | S k => (sample_corpus k ++ sample_line "user" "Some  Text")%string
  end.

(** The specification's scenario: a 30-line corpus has 3 evaluation
    records (positions 0, 10, 20) and 27 training records. *)
Lemma ReadData_train_eval_partition_witness :
  exists ut tt, ReadData Train (sample_corpus 30) 100 = Ok (ut, tt) /\ length ut = 27 /\
  exists ue te ps,
    ReadData EvalMode (sample_corpus 30) 100 = Ok (ue, te) /\ length ue = 3 /\
    mapM parse_line (take 102 (py_lines (sample_corpus 30))) = Ok ps /\
    zip ut tt ++ zip ue te ≡ₚ map (fun r => (r.1, tokenize r.2)) (take 101 ps).
Proof.
  eexists _, _. split; [vm_compute; reflexivity|]. split; [reflexivity|].
  destruct (ReadData_train_eval_partition EvalMode (sample_corpus 30) 100 _ _ ltac:(discriminate)
              ltac:(vm_compute; reflexivity)) as (ue & te & ps & H1 & H2 & H3).
  exists ue, te, ps. split; [done|]. split; [|done].
  revert H1. vm_compute. intros [= <- _]. reflexivity.
Defined.

Lemma ReadData_texts_shape_witness :
  exists us ts, ReadData Train (sample_corpus 3) 10 = Ok (us, ts) /\
  length us = length ts /\
  Forall (fun t => exists ws, t = "<S>"%string :: ws ++ ["</S>"%string] /\
                              Forall (fun w => token_ok w = true) ws) ts.
Proof.
  eexists _, _. split; [vm_compute; reflexivity|].
  apply (ReadData_texts_shape Train (sample_corpus 3) 10). vm_compute. reflexivity.
Defined.

(** The line after the limit is parsed: with [limit = 1], a malformed
    third line makes the read fail although only the first two lines are
    within the limit. *)
Lemma ReadData_parses_line_after_limit :
  ReadData Train (sample_line "a" "x" ++ sample_line "b" "y" ++ "no tab")%string 1 = Err ValueError /\
  ReadData Train (sample_line "a" "x" ++ sample_line "b" "y")%string 1 <> Err ValueError.
Proof.
  split; vm_compute; [reflexivity|discriminate].
Defined.

Lemma ReadDataSharded_union_witness :
  exists us ts, ReadDataSharded Train None 0 1 (sample_corpus 30) = Ok (us, ts) /\
  exists outs,
    Forall2 (fun w o => ReadDataSharded Train None w 4 (sample_corpus 30) = Ok o) (seq 0 4) outs /\
    concat (map (fun o => zip o.1 o.2) outs) ≡ₚ zip us ts.
Proof.
  eexists _, _. split; [vm_compute; reflexivity|].
  apply ReadDataSharded_union; [lia|]. vm_compute. reflexivity.
Defined.

(** The specification's scenario: the 27 training records of a 30-line
    corpus over 4 workers give shards of sizes 7, 7, 7 and 6; worker 3
    gets 6. *)
Lemma ReadDataSharded_length_witness :
  exists us ts us' ts',
    ReadDataSharded Train None 0 1 (sample_corpus 30) = Ok (us, ts) /\
    ReadDataSharded Train None 3 4 (sample_corpus 30) = Ok (us', ts') /\
    length us' = 6.
Proof.
  do 4 eexists. split; [vm_compute; reflexivity|]. split; [vm_compute; reflexivity|].
  erewrite (ReadDataSharded_length Train None 3 4 (sample_corpus 30)); [| lia
    | vm_compute; reflexivity | vm_compute; reflexivity].
  reflexivity.
Defined.

End Corpus.
