(* ===== verification/Vocab.v ===== *)
(** * The vocabulary

    [Vocab] of vocab.py, which both src/rnnlm.py and src/distrib.py import
    but which is not under src/: modelled from the specification.  A
    vocabulary is the list of its tokens in index order; token [k] of the
    list has index [k + 1], and index 0 is the unknown sentinel [<UNK>].
    [MakeFromData] counts tokens ([collections.Counter]) in a [gmap],
    keeps those with count >= [min_count], and orders them by descending
    count, ties broken by the token string.  [Save]/[Load] write and read
    the vocabulary as one string; [Load] fails on a corrupt blob.  The
    class [TokenIndex] is what the batcher needs of a vocabulary. *)

From S2P Require Import Prelude PyStr.
From Stdlib Require Import Ascii.
Import PyStr.

Module Vocab.

Definition UNK : string := "<UNK>".

Record Vocab := mkVocab { tokens : list string }.

#[export] Instance Vocab_eq_dec : EqDecision Vocab.
Proof. solve_decision. Defined.

(** ** Building *)

(** [token_counts.update(line)] for every line. *)
Definition count_step (m : gmap string nat) (t : string) : gmap string nat :=
  <[t := S (default 0 (m !! t))]> m.

Definition count_tokens (lines : list (list string)) : gmap string nat :=
  foldl count_step ∅ (concat lines).

(** Descending count, then ascending token. *)
Definition freq_le (a b : string * nat) : Prop :=
  b.2 < a.2 \/ (a.2 = b.2 /\ String.le a.1 b.1).

#[export] Instance freq_le_dec : RelDecision freq_le.
Proof. intros a b. unfold freq_le. apply _. Defined.

(** The (token, count) pairs kept, in index order. *)
Definition ranked (lines : list (list string)) (min_count : nat) : list (string * nat) :=
  merge_sort freq_le (filter (fun tc => min_count <= tc.2) (map_to_list (count_tokens lines))).

Definition MakeFromData (lines : list (list string)) (min_count : nat) : Vocab :=
  mkVocab (fst <$> ranked lines min_count).

(** ** Lookup *)

(** [word_to_idx]: token [k] of the list maps to [i + k]. *)
Fixpoint index_map (toks : list string) (i : nat) : gmap string nat :=
  match toks with
  | [] => ∅
  | t :: ts => <[t := i]> (index_map ts (S i))
  end.

Definition word_to_idx (v : Vocab) : gmap string nat := index_map (tokens v) 1.

(** [vocab[token]]: the unknown index for an absent token. *)
Definition lookup (v : Vocab) (t : string) : nat := default 0 (word_to_idx v !! t).

(** [vocab.idx_to_word[i]]: a [KeyError] outside [0, len(vocab)). *)
Definition idx_to_word (v : Vocab) (i : nat) : result string :=
  match i with
  | 0 => Ok UNK
  | S k => match tokens v !! k with Some t => Ok t | None => Err KeyError end
  end.

(** [len(vocab)], the unknown sentinel included. *)
Definition size (v : Vocab) : nat := S (length (tokens v)).

(** ** Persistence

    [Save] writes each token followed by a newline, with backslash and
    newline escaped; [Load] reverses it and fails on a dangling or unknown
    escape and on an unterminated last token. *)
Definition BSLASH : ascii := "092".
Definition LOWER_N : ascii := "110".

Fixpoint escape (s : string) : string :=
  match s with
  | EmptyString => EmptyString
  | String c s' =>
      if Ascii.eqb c BSLASH then String BSLASH (String BSLASH (escape s'))
      else if Ascii.eqb c NL then String BSLASH (String LOWER_N (escape s'))
      else String c (escape s')
  end.

Definition Save (v : Vocab) : string :=
  foldr (fun t acc => escape t ++ String NL acc)%string EmptyString (tokens v).

(** [load_go s] is the text before the first unescaped newline of [s] and
    the newline-separated segments after it. *)
Fixpoint load_go (s : string) : option (string * list string) :=
  match s with
  | EmptyString => Some (EmptyString, [])
  | String c s' =>
      if Ascii.eqb c BSLASH then
        match s' with
        | String d s'' =>
            if Ascii.eqb d BSLASH then
              '(seg, ts) ← load_go s''; Some (String BSLASH seg, ts)
            else if Ascii.eqb d LOWER_N then
              '(seg, ts) ← load_go s''; Some (String NL seg, ts)
            else None
        | EmptyString => None
        end
      else if Ascii.eqb c NL then
        '(seg, ts) ← load_go s'; Some (EmptyString, seg :: ts)
      else '(seg, ts) ← load_go s'; Some (String c seg, ts)
  end.

Definition Load (blob : string) : result Vocab :=
  match load_go blob with
  | Some (seg, ts) =>
      if bool_decide (last (seg :: ts) = Some EmptyString)
      then Ok (mkVocab (removelast (seg :: ts)))
      else Err UnpicklingError
  | None => Err UnpicklingError
  end.

(** ** The two vocabularies of a run

    src/rnnlm.py:65-67 and src/distrib.py:56-58: the word vocabulary keeps
    tokens seen at least 20 times; the username vocabulary is built over
    one-token lines [[u]] and keeps users with at least 50 records. *)
Definition WORD_MIN_COUNT : nat := 20.
Definition USER_MIN_COUNT : nat := 50.

Definition username_lines (usernames : list string) : list (list string) :=
  map (fun u => [u]) usernames.

Definition build_vocabs (usernames : list string) (texts : list (list string)) : Vocab * Vocab :=
  (MakeFromData texts WORD_MIN_COUNT, MakeFromData (username_lines usernames) USER_MIN_COUNT).

(** ** The interface the batcher uses *)

Class TokenIndex (V : Type) := {
  ti_lookup : V -> string -> nat;
  ti_size : V -> nat;
  ti_lookup_lt : forall v t, ti_lookup v t < ti_size v
}.

(** ** Round trip of [Save] and [Load] *)

Lemma load_go_escape t s :
  load_go (escape t ++ s) = '(seg, ts) ← load_go s; Some (t ++ seg, ts)%string.
Proof.
  induction t as [|c t IH]; simpl; rewrite ?string_app_nil_l, ?string_app_cons.
  - by destruct (load_go s) as [[seg ts]|].
  - destruct (Ascii.eqb_spec c BSLASH) as [->|Hb]; simpl; rewrite ?string_app_cons; simpl.
    + rewrite IH. by destruct (load_go s) as [[seg ts]|].
    + destruct (Ascii.eqb_spec c NL) as [->|Hn]; simpl; rewrite ?string_app_cons; simpl.
      * rewrite IH. by destruct (load_go s) as [[seg ts]|].
      * rewrite (proj2 (Ascii.eqb_neq c BSLASH) Hb), (proj2 (Ascii.eqb_neq c NL) Hn), IH.
        by destruct (load_go s) as [[seg ts]|].
Qed.

Lemma load_go_Save toks :
  load_go (Save (mkVocab toks)) =
  Some (match toks with [] => (EmptyString, []) | t :: ts => (t, ts ++ [EmptyString]) end).
Proof.
  unfold Save. simpl. induction toks as [|t ts IH]; [done|]. simpl.
  rewrite load_go_escape. simpl. rewrite IH.
  destruct ts; simpl; by rewrite string_app_nil_r.
Qed.

Lemma Save_roundtrip v : Load (Save v) = Ok v.
Proof.
  destruct v as [toks]. unfold Load. rewrite load_go_Save.
  destruct toks as [|t ts]; [done|].
  rewrite bool_decide_eq_true_2.
  - change (t :: ts ++ [EmptyString]) with ((t :: ts) ++ [EmptyString]).
    by rewrite removelast_last.
  - change (t :: ts ++ [EmptyString]) with ((t :: ts) ++ [EmptyString]).
    by rewrite last_snoc.
Qed.

(** [Load] reads back exactly the vocabulary [Save] wrote, for every
    vocabulary (tokens may contain newlines and backslashes). *)
Theorem Load_Save v : Load (Save v) = Ok v.
Proof. apply Save_roundtrip. Qed.

(** ** Counting *)

Definition occ (t : string) (l : list string) : nat := length (filter (fun x => x = t) l).

Lemma occ_cons t x l : occ t (x :: l) = (if decide (x = t) then 1 else 0) + occ t l.
Proof. unfold occ. rewrite filter_cons. by case_decide. Qed.

Lemma occ_perm t l1 l2 : l1 ≡ₚ l2 -> occ t l1 = occ t l2.
Proof. intros Hp. unfold occ. apply Permutation_length. by apply filter_Permutation. Qed.

Lemma occ_pos t l : 0 < occ t l <-> t ∈ l.
Proof.
  induction l as [|x l IH]; [split; [cbv; lia | by intros ?%elem_of_nil]|].
  rewrite occ_cons, elem_of_cons, <-IH. case_decide as Hx.
  - subst. split; [intros _; by left | lia].
  - split; [intros H; right; lia | intros [->|H]; [done|lia]].
Qed.

Lemma count_fold_lookup l m t :
  foldl count_step m l !! t =
  match m !! t with
  | Some c => Some (c + occ t l)
  | None => if occ t l =? 0 then None else Some (occ t l)
  end.
Proof.
  revert m. induction l as [|x l IH]; intros m; simpl.
  - destruct (m !! t); [by rewrite Nat.add_0_r | done].
  - rewrite IH, occ_cons. unfold count_step. destruct (decide (x = t)) as [->|Hne].
    + rewrite lookup_insert_eq. destruct (m !! t); simpl; [f_equal; lia | done].
    + by rewrite lookup_insert_ne.
Qed.

(** [Counter] holds the exact number of occurrences of every token that
    occurs. *)
Lemma count_tokens_lookup lines t :
  count_tokens lines !! t =
  if occ t (concat lines) =? 0 then None else Some (occ t (concat lines)).
Proof. unfold count_tokens. by rewrite count_fold_lookup, lookup_empty. Qed.

Lemma count_tokens_Some lines t c :
  count_tokens lines !! t = Some c <-> c = occ t (concat lines) /\ 0 < c.
Proof.
  rewrite count_tokens_lookup. destruct (Nat.eqb_spec (occ t (concat lines)) 0); split.
  - done.
  - lia.
  - intros [= <-]. lia.
  - by intros [-> _].
Qed.

#[export] Instance freq_le_trans : Transitive freq_le.
Proof.
  intros [a x] [b y] [c z]; unfold freq_le; simpl.
  intros [?|[-> ?]] [?|[-> ?]]; [left; lia..|]. right. split; [done|]. by etrans.
Qed.

#[export] Instance freq_le_total : Total freq_le.
Proof.
  intros [a x] [b y]; unfold freq_le; simpl.
  destruct (lt_eq_lt_dec x y) as [[?| ->]|?]; [right; left; lia| |left; left; lia].
  destruct (total String.le a b); [left|right]; right; done.
Qed.

Lemma elem_of_ranked lines k t c :
  (t, c) ∈ ranked lines k <-> c = occ t (concat lines) /\ 0 < c /\ k <= c.
Proof.
  unfold ranked. rewrite merge_sort_Permutation, list_elem_of_filter, elem_of_map_to_list,
    count_tokens_Some. simpl. naive_solver.
Qed.

Lemma NoDup_ranked lines k : NoDup (fst <$> ranked lines k).
Proof.
  unfold ranked. rewrite merge_sort_Permutation.
  eapply sublist_NoDup; [apply (NoDup_fst_map_to_list (count_tokens lines))|].
  apply fmap_sublist, sublist_filter.
Qed.

(** ** Index lookup *)

Lemma index_map_range toks i t j :
  index_map toks i !! t = Some j -> i <= j < i + length toks /\ toks !! (j - i) = Some t.
Proof.
  revert i. induction toks as [|x toks IH]; intros i; simpl; [by rewrite lookup_empty|].
  destruct (decide (x = t)) as [->|Hne].
  - rewrite lookup_insert_eq. intros [= <-]. rewrite Nat.sub_diag. split; [lia|done].
  - rewrite lookup_insert_ne by done. intros (?&?)%IH. split; [lia|].
    by replace (j - i) with (S (j - S i)) by lia.
Qed.

Lemma index_map_None toks i t : index_map toks i !! t = None <-> t ∉ toks.
Proof.
  revert i. induction toks as [|x toks IH]; intros i; simpl.
  - rewrite lookup_empty. split; [intros _; apply not_elem_of_nil|done].
  - rewrite not_elem_of_cons, lookup_insert_None, IH. naive_solver.
Qed.

Lemma lookup_Some v t :
  lookup v t <> 0 -> t ∈ tokens v /\ tokens v !! (lookup v t - 1) = Some t.
Proof.
  unfold lookup, word_to_idx. destruct (index_map (tokens v) 1 !! t) as [j|] eqn:E; simpl; [|by intros []].
  intros _. apply index_map_range in E as [? ?]. split; [|done]. by eapply list_elem_of_lookup_2.
Qed.

Lemma lookup_zero v t : lookup v t = 0 <-> t ∉ tokens v.
Proof.
  unfold lookup, word_to_idx. rewrite <-index_map_None.
  destruct (index_map (tokens v) 1 !! t) as [j|] eqn:E; simpl; [|by split].
  pose proof (index_map_range _ _ _ _ E). split; [lia|congruence].
Qed.

Lemma lookup_lt_size v t : lookup v t < size v.
Proof.
  unfold lookup, size, word_to_idx.
  destruct (index_map (tokens v) 1 !! t) as [j|] eqn:E; simpl; [|lia].
  apply index_map_range in E. lia.
Qed.

#[export] Instance Vocab_TokenIndex : TokenIndex Vocab :=
  {| ti_lookup := lookup; ti_size := size; ti_lookup_lt := lookup_lt_size |}.

Lemma index_map_NoDup toks i k t :
  NoDup toks -> toks !! k = Some t -> index_map toks i !! t = Some (i + k).
Proof.
  revert i k. induction toks as [|x toks IH]; intros i k Hnd Hk; [done|].
  apply NoDup_cons in Hnd as [Hx Hnd]. destruct k as [|k]; simpl in *.
  - injection Hk as ->. rewrite lookup_insert_eq. f_equal. lia.
  - rewrite lookup_insert_ne; [rewrite (IH (S i) k); [f_equal; lia|done..]|].
    intros ->. apply Hx. by eapply list_elem_of_lookup_2.
Qed.

Lemma elem_of_MakeFromData lines k t :
  t ∈ tokens (MakeFromData lines k) <-> 0 < occ t (concat lines) /\ k <= occ t (concat lines).
Proof.
  unfold MakeFromData. simpl. rewrite list_elem_of_fmap. split.
  - intros ([t' c] & -> & (-> & ? & ?)%elem_of_ranked). done.
  - intros [? ?]. exists (t, occ t (concat lines)). split; [done|]. by apply elem_of_ranked.
Qed.

Lemma MakeFromData_lookup_occ lines min_count t :
  lookup (MakeFromData lines min_count) t <> 0 <->
  0 < occ t (concat lines) /\ min_count <= occ t (concat lines).
Proof.
  rewrite <-elem_of_MakeFromData, lookup_zero.
  split; [|by intros ? ?]. intros H. by destruct (decide (t ∈ tokens (MakeFromData lines min_count))).
Qed.

(** C13: in a vocabulary built by [MakeFromData lines min_count], a token
    gets an index of its own (not the unknown index 0) exactly when it
    occurs in the corpus at least [min_count] times (and at least once). *)
Theorem MakeFromData_lookup lines min_count t :
  lookup (MakeFromData lines min_count) t <> 0 <->
  0 < occ t (concat lines) /\ min_count <= occ t (concat lines).
Proof. apply MakeFromData_lookup_occ. Qed.

(** C21: [idx_to_word] inverts [lookup]: the word at a token's index is the
    token itself when it is in the vocabulary, and [<UNK>] otherwise. *)
Theorem idx_to_word_lookup v t :
  idx_to_word v (lookup v t) = Ok (if decide (t ∈ tokens v) then t else UNK).
Proof.
  case_decide as Ht.
  - destruct (decide (lookup v t = 0)) as [H0|H0]; [apply lookup_zero in H0; contradiction|].
    pose proof (lookup_Some v t H0) as [_ Hk]. unfold idx_to_word.
    destruct (lookup v t) as [|j]; [congruence|]. simpl in Hk. rewrite ?Nat.sub_0_r in Hk. by rewrite Hk.
  - apply lookup_zero in Ht. by rewrite Ht.
Qed.

(** C22: in a built vocabulary every index below [size] names a word, and
    the word at index [i > 0] is looked up at [i]: [lookup] and
    [idx_to_word] are inverse bijections between the kept tokens and
    [1 .. size - 1]. *)
Theorem MakeFromData_index_bijection lines min_count i :
  0 < i < size (MakeFromData lines min_count) ->
  exists t, idx_to_word (MakeFromData lines min_count) i = Ok t /\
            lookup (MakeFromData lines min_count) t = i.
Proof.
  intros Hi. set (v := MakeFromData lines min_count) in *. unfold size in Hi.
  destruct i as [|k]; [lia|].
  destruct (tokens v !! k) as [t|] eqn:Ht; [|apply lookup_ge_None in Ht; lia].
  exists t. unfold idx_to_word. rewrite Ht. split; [done|].
  unfold lookup, word_to_idx. rewrite (index_map_NoDup _ 1 k t); [done| |done].
  apply NoDup_ranked.
Qed.

(** C23: the vocabulary lists its tokens by descending corpus count, ties in
    ascending string order, so that it is a function of the counts only. *)
Theorem MakeFromData_sorted lines min_count i j ti tj :
  i < j ->
  tokens (MakeFromData lines min_count) !! i = Some ti ->
  tokens (MakeFromData lines min_count) !! j = Some tj ->
  occ tj (concat lines) < occ ti (concat lines) \/
  (occ ti (concat lines) = occ tj (concat lines) /\ String.le ti tj).
Proof.
  unfold MakeFromData. simpl. rewrite !list_lookup_fmap.
  destruct (ranked lines min_count !! i) as [[ti' ci]|] eqn:Ei; [|simpl; intros ? [=]].
  destruct (ranked lines min_count !! j) as [[tj' cj]|] eqn:Ej; [|simpl; intros ? ? [=]].
  intros Hij [= <-] [= <-].
  pose proof (StronglySorted_lookup freq_le _ i j _ _ (StronglySorted_merge_sort _ _) Hij Ei Ej) as Hle.
  apply list_elem_of_lookup_2, elem_of_ranked in Ei as (-> & _), Ej as (-> & _).
  exact Hle.
Qed.

(** C24: [MakeFromData] depends only on the multiset of tokens: two corpora
    whose tokens are permutations of each other (lines reordered,
    reshuffled or split differently) give the same vocabulary. *)
Theorem MakeFromData_perm lines1 lines2 min_count :
  concat lines1 ≡ₚ concat lines2 ->
  MakeFromData lines1 min_count = MakeFromData lines2 min_count.
Proof.
  intros Hp. assert (E : count_tokens lines1 = count_tokens lines2).
  { apply map_eq. intros t. rewrite !count_tokens_lookup. by rewrite (occ_perm _ _ _ Hp). }
  unfold MakeFromData, ranked. by rewrite E.
Qed.

(** C25: the size of a built vocabulary is one (the unknown sentinel) plus
    the number of distinct corpus tokens with count at least
    [min_count]; for [min_count = 1] it is the number of distinct tokens
    plus one, and for an empty corpus it is 1. *)
Theorem MakeFromData_size lines min_count :
  size (MakeFromData lines min_count) =
  S (length (filter (fun t => min_count <= occ t (concat lines)) (remove_dups (concat lines)))).
Proof.
  unfold size. f_equal. apply Permutation_length, NoDup_Permutation.
  - apply NoDup_ranked.
  - apply NoDup_filter, NoDup_remove_dups.
  - intros t. rewrite elem_of_MakeFromData, list_elem_of_filter, elem_of_remove_dups, <-occ_pos.
    naive_solver.
Qed.

Lemma concat_username_lines usernames : concat (username_lines usernames) = usernames.
Proof. induction usernames as [|u us IH]; simpl; [done|]. by rewrite IH. Qed.

(** C20: a username gets an embedding index of its own exactly when it has
    at least 50 records; every other username shares the unknown index. *)
Theorem username_vocab_lookup usernames texts u :
  lookup (build_vocabs usernames texts).2 u <> 0 <-> USER_MIN_COUNT <= occ u usernames.
Proof.
  unfold build_vocabs. simpl. rewrite MakeFromData_lookup_occ, concat_username_lines.
  unfold USER_MIN_COUNT. lia.
Qed.

(** ** Concrete vocabularies *)

Definition sample_lines : list (list string) :=
  [["<S>"; "a"; "b"; "a"; "</S>"]; ["<S>"; "c"; "b"; "a"; "</S>"]]%string.

Lemma MakeFromData_sorted_witness :
  0 < 1 /\ tokens (MakeFromData sample_lines 1) !! 0 = Some "a"%string /\
  tokens (MakeFromData sample_lines 1) !! 1 = Some "</S>"%string /\
  (occ "</S>" (concat sample_lines) < occ "a" (concat sample_lines) \/
   (occ "a" (concat sample_lines) = occ "</S>" (concat sample_lines) /\ String.le "a" "</S>")).
Proof.
  split; [lia|]. split; [vm_compute; reflexivity|]. split; [vm_compute; reflexivity|].
  apply (MakeFromData_sorted sample_lines 1 0 1); [lia | vm_compute; reflexivity..].
Defined.

Lemma MakeFromData_perm_witness :
  concat sample_lines ≡ₚ concat (reverse sample_lines) /\
  MakeFromData sample_lines 2 = MakeFromData (reverse sample_lines) 2.
Proof.
  assert (Hp : concat sample_lines ≡ₚ concat (reverse sample_lines))
    by (apply (bool_decide_unpack _); vm_compute; reflexivity).
  split; [exact Hp|]. exact (MakeFromData_perm _ _ 2 Hp).
Defined.

Lemma MakeFromData_index_bijection_witness :
  0 < 3 < size (MakeFromData sample_lines 1) /\
  exists t, idx_to_word (MakeFromData sample_lines 1) 3 = Ok t /\
            lookup (MakeFromData sample_lines 1) t = 3.
Proof.
  assert (H : 0 < 3 < size (MakeFromData sample_lines 1)) by (vm_compute; lia).
  split; [exact H|]. exact (MakeFromData_index_bijection sample_lines 1 3 H).
Defined.

End Vocab.
