(* ===== verification/Batcher.v ===== *)
(** * The dataset and batcher

    [Dataset] of batcher.py, imported by src/rnnlm.py:61-62,77 and
    src/distrib.py:53-54,75-77,88 but not under src/: modelled from the
    specification.  Its phase is Empty, Raw (records buffered) or Ready
    (records converted to padded id rows).  [AddDataSource] appends
    records and, with [preshuffle], permutes the buffer with a seeded
    generator; [Prepare] converts tokens and usernames to ids through any
    [TokenIndex] (truncating from the tail to [max_len] and padding with
    [PAD]); [GetNextBatch] returns [batch_size] consecutive rows, cycling
    through the buffer and reshuffling at each epoch boundary;
    [GetNumBatches] is [ceil(#rows / batch_size)]. *)

From S2P Require Import Prelude Vocab.
Import Vocab.

Module Batcher.

(** ** Data *)

(** One prepared record: [max_len] ids, the unpadded length, the user id. *)
Record Row := mkRow { row_ids : list nat; row_len : nat; row_user : nat }.

(** [(s, seq_len, usernames)] as [GetNextBatch] returns it. *)
Record Batch := mkBatch {
  batch_ids : list (list nat);
  batch_seq_len : list nat;
  batch_users : list nat
}.

Inductive Phase := Empty | Raw | Ready.

Record Dataset := mkDataset {
  max_len : nat;
  batch_size : nat;
  preshuffle : bool;
  seed : Z;
  raw : list (string * list string);
  rows : option (list Row);
  cursor : nat
}.

Definition phase (ds : Dataset) : Phase :=
  match rows ds with
  | Some _ => Ready
  | None => match raw ds with [] => Empty | _ => Raw end
  end.

(** The pad id: a single fixed sentinel (the unknown index), masked by the
    model through [seq_len]. *)
Definition PAD : nat := 0.

(** [Dataset(max_len=..., batch_size=..., preshuffle=...)]. *)
Definition new_dataset (max_len batch_size : nat) (preshuffle : bool) : Dataset :=
  mkDataset max_len batch_size preshuffle 0 [] None 0.

(** ** The reproducible shuffle *)

(** A linear congruential generator modulo 2^31. *)
Definition lcg (s : Z) : Z := (1103515245 * s + 12345) mod 2147483648.

(** Repeatedly draw the element at a pseudo-random index and remove it. *)
Fixpoint shuffle_go {A} (n : nat) (s : Z) (l : list A) : list A * Z :=
  match n with
  | 0 => ([], s)
  | S n' =>
      let s' := lcg s in
      let i := Z.to_nat (s' mod Z.of_nat (length l)) in
      match l !! i with
      | Some x => let '(rest, s'') := shuffle_go n' s' (delete i l) in (x :: rest, s'')
      | None => ([], s')
      end
  end.

Definition shuffle {A} (s : Z) (l : list A) : list A * Z := shuffle_go (length l) s l.

(** ** Operations *)

Definition set_raw (ds : Dataset) (r : list (string * list string)) (s : Z) : Dataset :=
  mkDataset (max_len ds) (batch_size ds) (preshuffle ds) s r (rows ds) (cursor ds).

(** [AddDataSource(usernames, texts)]: only before [Prepare]. *)
Definition AddDataSource (ds : Dataset) (usernames : list string) (texts : list (list string))
    : result Dataset :=
  match rows ds with
  | Some _ => Err UsageError
  | None =>
      let buf := raw ds ++ zip usernames texts in
      if preshuffle ds then let '(buf', s') := shuffle (seed ds) buf in Ok (set_raw ds buf' s')
      else Ok (set_raw ds buf (seed ds))
  end.

Section Prepare.
Context {V : Type} `{!TokenIndex V}.

(** Token ids truncated from the tail to [max_len], padded on the right. *)
Definition prepare_row (vocab username_vocab : V) (L : nat) (rec : string * list string) : Row :=
  let ids := map (ti_lookup vocab) rec.2 in
  mkRow (take L ids ++ replicate (L - length ids) PAD) (min (length ids) L)
        (ti_lookup username_vocab rec.1).

(** [Prepare(vocab, username_vocab)]. *)
Definition Prepare (ds : Dataset) (vocab username_vocab : V) : Dataset :=
  mkDataset (max_len ds) (batch_size ds) (preshuffle ds) (seed ds) (raw ds)
    (Some (map (prepare_row vocab username_vocab (max_len ds)) (raw ds))) 0.
End Prepare.

(** One row from the cyclic iterator: at the end of an epoch the cursor
    returns to 0 and, with [preshuffle], the rows are reshuffled. *)
Definition next_row (pre : bool) (st : list Row * nat * Z) : option (Row * (list Row * nat * Z)) :=
  let '(rs, c, s) := st in
  let '(rs', c', s') :=
    if length rs <=? c
    then (if pre then let '(r, s1) := shuffle s rs in (r, 0, s1) else (rs, 0, s))
    else (rs, c, s) in
  match rs' !! c' with
  | Some r => Some (r, (rs', S c', s'))
  | None => None
  end.

Arguments next_row : simpl never.

Fixpoint take_rows (pre : bool) (k : nat) (st : list Row * nat * Z)
    : option (list Row * (list Row * nat * Z)) :=
  match k with
  | 0 => Some ([], st)
  | S k' =>
      match next_row pre st with
      | Some (r, st') =>
          match take_rows pre k' st' with
          | Some (rs, st'') => Some (r :: rs, st'')
          | None => None
          end
      | None => None
      end
  end.

Definition to_batch (rs : list Row) : Batch :=
  mkBatch (map row_ids rs) (map row_len rs) (map row_user rs).

(** [GetNextBatch()]: a usage error before [Prepare], and on an empty
    buffer. *)
Definition GetNextBatch (ds : Dataset) : result (Batch * Dataset) :=
  match rows ds with
  | None => Err UsageError
  | Some rs =>
      match take_rows (preshuffle ds) (batch_size ds) (rs, cursor ds, seed ds) with
      | Some (b, (rs', c', s')) =>
          Ok (to_batch b, mkDataset (max_len ds) (batch_size ds) (preshuffle ds) s' (raw ds)
                                    (Some rs') c')
      | None => Err UsageError
      end
  end.

(** [GetNextBatch()] called [n] times in a row, as the training and
    evaluation loops do. *)
Fixpoint GetNextBatches (n : nat) (ds : Dataset) : result (list Batch * Dataset) :=
  match n with
  | 0 => Ok ([], ds)
  | S n' =>
      '(b, ds1) ← GetNextBatch ds;
      '(bl, ds2) ← GetNextBatches n' ds1;
      Ok (b :: bl, ds2)
  end.

(** [GetNumBatches()]. *)
Definition GetNumBatches (ds : Dataset) : result nat :=
  match rows ds with
  | None => Err UsageError
  | Some rs =>
      if batch_size ds =? 0 then Err ZeroDivisionError
      else Ok ((length rs + batch_size ds - 1) / batch_size ds)
  end.

(** ** The shuffle is a permutation *)

Lemma lcg_index_lt (s : Z) n : 0 < n -> Z.to_nat (s mod Z.of_nat n) < n.
Proof. intros Hn. pose proof (Z.mod_pos_bound s (Z.of_nat n) ltac:(lia)). lia. Qed.

Lemma shuffle_go_perm {A} n s (l : list A) :
  n = length l -> (shuffle_go n s l).1 ≡ₚ l.
Proof.
  revert s l. induction n as [|n IH]; intros s l Hn; simpl.
  - destruct l; [done|discriminate].
  - set (i := Z.to_nat (lcg s mod Z.of_nat (length l))).
    destruct (lookup_lt_is_Some_2 l i) as [x Hx]; [apply lcg_index_lt; lia|].
    rewrite Hx. destruct (shuffle_go n (lcg s) (delete i l)) as [rest s''] eqn:E. simpl.
    rewrite (delete_Permutation l i x Hx). f_equiv.
    specialize (IH (lcg s) (delete i l)). rewrite E in IH. apply IH.
    rewrite length_delete by done. lia.
Qed.

Lemma shuffle_perm {A} s (l : list A) : (shuffle s l).1 ≡ₚ l.
Proof. by apply shuffle_go_perm. Qed.

#[export] Hint Resolve shuffle_perm : calm.

(** ** The cyclic iterator *)

(** [next_row] serves a row of a permutation of the rows, and serves one
    whenever there are rows. *)
Lemma next_row_perm pre rs c s r rs' c' s' :
  next_row pre (rs, c, s) = Some (r, (rs', c', s')) -> rs' ≡ₚ rs /\ r ∈ rs.
Proof.
  unfold next_row.
  destruct (length rs <=? c); [destruct pre; [destruct (shuffle s rs) as [rs1 s1] eqn:E|]|];
    destruct (_ !! _) as [r1|] eqn:Hr; intros H; inversion H; subst; clear H;
    try (split; [done|by eapply list_elem_of_lookup_2]).
  pose proof (shuffle_perm s rs) as Hp. rewrite E in Hp. simpl in Hp.
  split; [done|]. rewrite <-Hp. by eapply list_elem_of_lookup_2.
Qed.

Lemma next_row_total pre rs c s :
  rs <> [] -> exists r st', next_row pre (rs, c, s) = Some (r, st').
Proof.
  intros Hne. unfold next_row.
  assert (Hlen : 0 < length rs) by (destruct rs; [done|simpl; lia]).
  destruct (Nat.leb_spec (length rs) c).
  - destruct pre.
    + destruct (shuffle s rs) as [rs1 s1] eqn:E.
      pose proof (shuffle_perm s rs) as Hp. rewrite E in Hp. simpl in Hp.
      destruct (lookup_lt_is_Some_2 rs1 0) as [r Hr]; [rewrite Hp; lia|]. rewrite Hr. eauto.
    + destruct (lookup_lt_is_Some_2 rs 0) as [r Hr]; [lia|]. rewrite Hr. eauto.
  - destruct (lookup_lt_is_Some_2 rs c) as [r Hr]; [lia|]. rewrite Hr. eauto.
Qed.

Lemma take_rows_perm pre k rs c s out rs' c' s' :
  take_rows pre k (rs, c, s) = Some (out, (rs', c', s')) ->
  rs' ≡ₚ rs /\ length out = k /\ Forall (fun r => r ∈ rs) out.
Proof.
  revert rs c s out. induction k as [|k IH]; intros rs c s out; simpl.
  - intros [= <- <- <- <-]. split_and!; [done|done|constructor].
  - destruct (next_row pre (rs, c, s)) as [[r [[rs1 c1] s1]]|] eqn:E1; [|intros [=]].
    destruct (take_rows pre k (rs1, c1, s1)) as [[out1 [[rs2 c2] s2]]|] eqn:E2; [|intros [=]].
    intros [= <- <- <- <-]. apply next_row_perm in E1 as [Hp1 Hr].
    apply IH in E2 as (Hp2 & Hl & Hf). split; [by rewrite Hp2|]. split; [simpl; lia|].
    constructor; [done|]. eapply Forall_impl; [exact Hf|]. intros x Hx. by rewrite <-Hp1.
Qed.

Lemma take_rows_total pre k rs c s :
  rs <> [] -> exists out st', take_rows pre k (rs, c, s) = Some (out, st').
Proof.
  revert rs c s. induction k as [|k IH]; intros rs c s Hne; simpl; [eauto|].
  destruct (next_row_total pre rs c s Hne) as (r & [[rs1 c1] s1] & E1). rewrite E1.
  pose proof (next_row_perm _ _ _ _ _ _ _ _ E1) as [Hp _].
  destruct (IH rs1 c1 s1) as (out & st' & E2).
  { intros ->. apply Permutation_nil_l in Hp. done. }
  rewrite E2. eauto.
Qed.

(** ** The shape invariant *)

Section Shape.
Variables nv nu : nat.

Definition row_ok (L : nat) (r : Row) : Prop :=
  length (row_ids r) = L /\ row_len r <= L /\ Forall (fun i => i < nv) (row_ids r) /\ row_user r < nu.

Definition ds_ok (ds : Dataset) : Prop :=
  forall rs, rows ds = Some rs -> Forall (row_ok (max_len ds)) rs.

(** A batch of [k] rows of [L] ids below [nv], with lengths at most [L] and
    user ids below [nu]. *)
Definition batch_ok (L k : nat) (b : Batch) : Prop :=
  length (batch_ids b) = k /\ Forall (fun ids => length ids = L /\ Forall (fun i => i < nv) ids) (batch_ids b) /\
  length (batch_seq_len b) = k /\ Forall (fun n => n <= L) (batch_seq_len b) /\
  length (batch_users b) = k /\ Forall (fun u => u < nu) (batch_users b).

Lemma to_batch_ok L k rs :
  length rs = k -> Forall (row_ok L) rs -> batch_ok L k (to_batch rs).
Proof.
  intros Hl Hf. unfold batch_ok, to_batch; simpl. rewrite !length_map.
  split_and!; try done; apply Forall_map; (eapply Forall_impl; [exact Hf|]);
    intros r (?&?&?&?); done.
Qed.

Lemma GetNextBatch_ok ds b ds' :
  ds_ok ds -> GetNextBatch ds = Ok (b, ds') ->
  batch_ok (max_len ds) (batch_size ds) b /\ ds_ok ds' /\
  max_len ds' = max_len ds /\ batch_size ds' = batch_size ds.
Proof.
  unfold GetNextBatch. intros Hok.
  destruct (rows ds) as [rs|] eqn:Hrs; [|intros [=]].
  destruct (take_rows _ _ _) as [[out [[rs' c'] s']]|] eqn:E; [|intros [=]].
  intros [= <- <-]. specialize (Hok rs Hrs).
  apply take_rows_perm in E as (Hp & Hl & Hin). split_and!; [|simpl|done|done].
  - apply to_batch_ok; [done|]. apply Forall_forall. intros r Hr.
    eapply Forall_forall in Hin; [|exact Hr]. by eapply Forall_forall; [exact Hok|].
  - intros rs'' [= <-]. simpl. exact (Permutation_Forall (symmetry Hp) Hok).
Qed.

Lemma GetNextBatches_ok n ds bl ds' :
  ds_ok ds -> GetNextBatches n ds = Ok (bl, ds') ->
  Forall (batch_ok (max_len ds) (batch_size ds)) bl /\ ds_ok ds' /\
  max_len ds' = max_len ds /\ batch_size ds' = batch_size ds.
Proof.
  revert ds bl. induction n as [|n IH]; intros ds bl Hok; simpl.
  - intros [= <- <-]. done.
  - destruct (GetNextBatch ds) as [[b ds1]|] eqn:E1; [simpl|intros [=]].
    destruct (GetNextBatches n ds1) as [[bl1 ds2]|] eqn:E2; [simpl|intros [=]].
    intros [= <- <-]. apply GetNextBatch_ok in E1 as (Hb & Hok1 & HL & Hk); [|done].
    apply IH in E2 as (Hbl & Hok2 & HL2 & Hk2); [|done].
    rewrite HL, Hk in *. split_and!; [by constructor|done|congruence|congruence].
Qed.
End Shape.

Section PrepareShape.
Context {V : Type} `{!TokenIndex V}.

Lemma ti_size_pos (v : V) : 0 < ti_size v.
Proof. pose proof (ti_lookup_lt v EmptyString). lia. Qed.

Lemma prepare_row_ok (v uv : V) L rec :
  row_ok (ti_size v) (ti_size uv) L (prepare_row v uv L rec).
Proof.
  unfold row_ok, prepare_row; simpl. rewrite length_app, length_take, length_replicate, length_map.
  split_and!; [lia|lia| |apply ti_lookup_lt].
  apply Forall_app. split.
  - apply Forall_take, Forall_map, Forall_forall. intros t _. apply ti_lookup_lt.
  - apply Forall_replicate. unfold PAD. apply ti_size_pos.
Qed.

Lemma Prepare_ok ds (v uv : V) : ds_ok (ti_size v) (ti_size uv) (Prepare ds v uv).
Proof.
  intros rs [= <-]. apply Forall_map, Forall_forall. intros rec _. apply prepare_row_ok.
Qed.

(** C11: after [Prepare(vocab, username_vocab)], every batch of any run of
    [GetNextBatch] calls has [batch_size] rows of exactly [max_len] ids,
    [seq_len <= max_len], word ids below [len(vocab)] and user ids below
    [len(username_vocab)]. *)
Theorem Prepare_batches_shape ds (v uv : V) n bl ds' :
  GetNextBatches n (Prepare ds v uv) = Ok (bl, ds') ->
  Forall (batch_ok (ti_size v) (ti_size uv) (max_len ds) (batch_size ds)) bl.
Proof.
  intros H. apply (GetNextBatches_ok (ti_size v) (ti_size uv)) in H as [? _]; [done|].
  apply Prepare_ok.
Qed.
End PrepareShape.

(** One batch: the rows it is made of. *)
Lemma GetNextBatch_rows ds rs b ds' :
  rows ds = Some rs -> GetNextBatch ds = Ok (b, ds') ->
  exists out rs', batch_seq_len b = map row_len out /\ length out = batch_size ds /\
    Forall (fun r => r ∈ rs) out /\ rows ds' = Some rs' /\ rs' ≡ₚ rs /\ batch_size ds' = batch_size ds /\
    max_len ds' = max_len ds.
Proof.
  intros Hrs. unfold GetNextBatch. rewrite Hrs.
  destruct (take_rows _ _ _) as [[out [[rs' c'] s']]|] eqn:E; [|done].
  intros [= <- <-]. apply take_rows_perm in E as (Hp & Hl & Hf). exists out, rs'. done.
Qed.

Lemma AddDataSource_max_len ds usernames texts ds' :
  AddDataSource ds usernames texts = Ok ds' -> max_len ds' = max_len ds.
Proof.
  unfold AddDataSource. destruct (rows ds); [done|].
  destruct (preshuffle ds); [destruct (shuffle _ _)|]; by intros [= <-].
Qed.

(** ** Totality: [GetNextBatch] can be called indefinitely *)

Lemma GetNextBatch_total ds rs :
  rows ds = Some rs -> rs <> [] ->
  exists b ds' rs', GetNextBatch ds = Ok (b, ds') /\ rows ds' = Some rs' /\ rs' ≡ₚ rs.
Proof.
  intros Hrs Hne. unfold GetNextBatch. rewrite Hrs.
  destruct (take_rows_total (preshuffle ds) (batch_size ds) rs (cursor ds) (seed ds) Hne)
    as (out & [[rs' c'] s'] & E).
  rewrite E. apply take_rows_perm in E as (Hp & _). eauto 10.
Qed.

(** C12: on a prepared, non-empty dataset [GetNextBatch] never fails: any
    number [n] of calls returns [n] batches. *)
Theorem GetNextBatches_total n ds rs :
  rows ds = Some rs -> rs <> [] ->
  exists bl ds', GetNextBatches n ds = Ok (bl, ds') /\ length bl = n.
Proof.
  revert ds rs. induction n as [|n IH]; intros ds rs Hrs Hne; simpl; [eauto|].
  destruct (GetNextBatch_total ds rs Hrs Hne) as (b & ds1 & rs1 & -> & Hrs1 & Hp). simpl.
  destruct (IH ds1 rs1 Hrs1) as (bl & ds' & -> & Hl).
  { intros ->. by apply Permutation_nil_l in Hp. }
  simpl. exists (b :: bl), ds'. simpl. by rewrite Hl.
Qed.

(** ** One pass of evaluation *)

Lemma take_rows_app pre a b st :
  take_rows pre (a + b) st =
  match take_rows pre a st with
  | Some (o1, st1) => match take_rows pre b st1 with Some (o2, st2) => Some (o1 ++ o2, st2) | None => None end
  | None => None
  end.
Proof.
  revert st. induction a as [|a IH]; intros st; simpl.
  - by destruct (take_rows pre b st) as [[]|].
  - destruct (next_row pre st) as [[r st1]|]; [|done]. rewrite IH.
    destruct (take_rows pre a st1) as [[o1 st2]|]; [|done].
    by destruct (take_rows pre b st2) as [[]|].
Qed.

(** Within an epoch the iterator reads the rows in order, without
    reshuffling. *)
Lemma take_rows_prefix pre k rs c s :
  c + k <= length rs -> take_rows pre k (rs, c, s) = Some (take k (drop c rs), (rs, c + k, s)).
Proof.
  revert c. induction k as [|k IH]; intros c Hk; simpl.
  - by rewrite Nat.add_0_r.
  - destruct (lookup_lt_is_Some_2 rs c) as [r Hr]; [lia|].
    assert (Hn : next_row pre (rs, c, s) = Some (r, (rs, S c, s))).
    { unfold next_row. destruct (Nat.leb_spec (length rs) c); [lia|]. by rewrite Hr. }
    rewrite Hn, IH by lia. rewrite (drop_S rs r c Hr). simpl. by rewrite Nat.add_succ_r.
Qed.

Lemma GetNextBatches_rows n ds bl ds' rs :
  rows ds = Some rs -> GetNextBatches n ds = Ok (bl, ds') ->
  exists out st, take_rows (preshuffle ds) (n * batch_size ds) (rs, cursor ds, seed ds) = Some (out, st) /\
                 concat (map batch_ids bl) = map row_ids out.
Proof.
  revert ds bl rs. induction n as [|n IH]; intros ds bl rs Hrs; simpl.
  - intros [= <- <-]. eauto.
  - unfold GetNextBatch at 1. rewrite Hrs.
    destruct (take_rows _ _ _) as [[o1 [[rs1 c1] s1]]|] eqn:E1; [simpl|intros [=]].
    destruct (GetNextBatches n _) as [[bl1 ds2]|] eqn:E2; [simpl|intros [=]].
    intros [= <- <-]. apply (IH _ _ rs1) in E2 as (o2 & st2 & E3 & Hc); [|done]. simpl in E3.
    exists (o1 ++ o2), st2. rewrite take_rows_app, E1, E3. split; [done|].
    simpl. by rewrite Hc, map_app.
Qed.

Lemma eval_pass_rows ds rs k bl ds' :
  rows ds = Some rs -> cursor ds = 0 ->
  GetNumBatches ds = Ok k -> GetNextBatches k ds = Ok (bl, ds') ->
  exists extra, concat (map batch_ids bl) = map row_ids (rs ++ extra) /\
                length extra = k * batch_size ds - length rs.
Proof.
  intros Hrs Hc Hk Hbl. unfold GetNumBatches in Hk. rewrite Hrs in Hk.
  destruct (Nat.eqb_spec (batch_size ds) 0) as [|Hbs]; [done|]. injection Hk as <-.
  apply GetNextBatches_rows with (rs := rs) in Hbl as (out & st & E & ->); [|done].
  rewrite Hc in E. set (bs := batch_size ds) in *. set (n := length rs) in *.
  pose proof (Nat.div_mod (n + bs - 1) bs Hbs) as Hdm.
  pose proof (Nat.mod_upper_bound (n + bs - 1) bs Hbs) as Hmb.
  replace ((n + bs - 1) / bs * bs) with (n + ((n + bs - 1) / bs * bs - n)) in E by lia.
  rewrite take_rows_app, take_rows_prefix in E by lia.
  rewrite drop_0, take_ge in E by lia. rewrite Nat.add_0_l in E.
  destruct (take_rows _ _ (rs, n, seed ds)) as [[extra st2]|] eqn:E2; [|done].
  injection E as <- _. exists extra. split; [done|].
  destruct st2 as [[rs2 c2] s2]. by apply take_rows_perm in E2 as (_ & -> & _).
Qed.

(** C8: the evaluation loop ([GetNumBatches()] calls of [GetNextBatch()]
    on a freshly prepared dataset) reads every prepared row once, in
    order, followed by [ceil(n / batch_size) * batch_size - n] further
    rows of the next epoch: it touches every record exactly once only
    when [batch_size] divides the number of records [n]. *)
Theorem eval_batches_cover ds rs k bl ds' :
  rows ds = Some rs -> cursor ds = 0 ->
  GetNumBatches ds = Ok k -> GetNextBatches k ds = Ok (bl, ds') ->
  exists extra, concat (map batch_ids bl) = map row_ids (rs ++ extra) /\
                length extra = k * batch_size ds - length rs.
Proof. apply eval_pass_rows. Qed.

Lemma ceil_mul_exact n bs : bs <> 0 -> n mod bs = 0 -> (n + bs - 1) / bs * bs = n.
Proof.
  intros Hbs Hm. pose proof (Nat.div_mod n bs Hbs) as Hn. rewrite Hm, Nat.add_0_r in Hn.
  set (q := n / bs) in *.
  replace (n + bs - 1) with (q * bs + (bs - 1)) by lia.
  rewrite Nat.div_add_l, (Nat.div_small (bs - 1)) by lia. lia.
Qed.

(** With [batch_size] dividing the number of records the pass is exact. *)
Corollary eval_batches_exact ds rs k bl ds' :
  rows ds = Some rs -> cursor ds = 0 -> length rs mod batch_size ds = 0 ->
  GetNumBatches ds = Ok k -> GetNextBatches k ds = Ok (bl, ds') ->
  concat (map batch_ids bl) = map row_ids rs.
Proof.
  intros Hrs Hc Hm Hk Hbl. pose proof Hk as Hk'. unfold GetNumBatches in Hk'. rewrite Hrs in Hk'.
  destruct (Nat.eqb_spec (batch_size ds) 0) as [|Hbs]; [done|]. injection Hk' as Hk'.
  destruct (eval_pass_rows ds rs k bl ds' Hrs Hc Hk Hbl) as (extra & -> & Hl).
  rewrite <-Hk', ceil_mul_exact, Nat.sub_diag in Hl by done.
  destruct extra; [by rewrite app_nil_r|done].
Qed.

(** ** Errors and buffering *)

(** before [Prepare], [GetNextBatch] and [GetNumBatches] are usage
    errors, so a loop that pulls batches fails at its first call. *)
Theorem not_ready_usage_error ds n :
  phase ds <> Ready ->
  GetNextBatch ds = Err UsageError /\ GetNumBatches ds = Err UsageError /\
  GetNextBatches (S n) ds = Err UsageError.
Proof. unfold phase, GetNextBatches, GetNextBatch, GetNumBatches. destruct (rows ds); [done|]. done. Qed.

(** [AddDataSource] buffers each given record once, in some order, and
    is refused after [Prepare]. *)
Theorem AddDataSource_buffer ds usernames texts :
  match AddDataSource ds usernames texts with
  | Ok ds' => phase ds <> Ready /\ raw ds' ≡ₚ raw ds ++ zip usernames texts /\ rows ds' = None
  | Err e => phase ds = Ready /\ e = UsageError
  end.
Proof.
  unfold AddDataSource, phase. destruct (rows ds) as [rs|] eqn:Hr; [done|].
  destruct (preshuffle ds).
  - destruct (shuffle (seed ds) _) as [buf s'] eqn:E.
    pose proof (shuffle_perm (seed ds) (raw ds ++ zip usernames texts)) as Hp.
    rewrite E in Hp. split_and!; [by destruct (raw ds)|done|exact Hr].
  - split_and!; [by destruct (raw ds)|done|exact Hr].
Qed.

(** ** Concrete runs *)

Definition sample_users : list string := ["a"; "b"; "c"; "d"]%string.
Definition sample_texts : list (list string) :=
  [["<S>"; "x"; "</S>"]; ["<S>"; "y"; "y"; "y"; "y"; "y"; "</S>"]; ["<S>"; "</S>"];
   ["<S>"; "x"; "y"; "</S>"]]%string.

Definition sample_vocab : Vocab := MakeFromData sample_texts 1.

(** Four records buffered with [max_len = 5], [batch_size = 3]. *)
Definition sample_raw : Dataset :=
  match AddDataSource (new_dataset 5 3 true) sample_users sample_texts with
  | Ok ds => ds
  | Err _ => new_dataset 5 3 true
  end.

Definition sample_ready : Dataset := Prepare sample_raw sample_vocab sample_vocab.

Lemma Prepare_batches_shape_witness :
  exists bl ds', GetNextBatches 3 (Prepare sample_raw sample_vocab sample_vocab) = Ok (bl, ds') /\
  Forall (batch_ok (ti_size sample_vocab) (ti_size sample_vocab)
                   (max_len sample_raw) (batch_size sample_raw)) bl.
Proof.
  do 2 eexists. split; [vm_compute; reflexivity|].
  eapply (Prepare_batches_shape sample_raw sample_vocab sample_vocab 3). vm_compute. reflexivity.
Defined.

Lemma GetNextBatches_total_witness :
  exists rs, rows sample_ready = Some rs /\ rs <> [] /\
  exists bl ds', GetNextBatches 5 sample_ready = Ok (bl, ds') /\ length bl = 5.
Proof.
  eexists. split; [vm_compute; reflexivity|]. split; [discriminate|].
  eapply (GetNextBatches_total 5 sample_ready); [vm_compute; reflexivity | discriminate].
Defined.

(** Four records in batches of three: the two evaluation batches read the
    four rows and then two rows of the reshuffled next epoch. *)
Lemma eval_batches_cover_witness :
  exists rs bl ds', rows sample_ready = Some rs /\ cursor sample_ready = 0 /\
    GetNumBatches sample_ready = Ok 2 /\ GetNextBatches 2 sample_ready = Ok (bl, ds') /\
    exists extra, concat (map batch_ids bl) = map row_ids (rs ++ extra) /\
                  length extra = 2 * batch_size sample_ready - length rs /\ length extra = 2.
Proof.
  do 3 eexists. split; [vm_compute; reflexivity|]. split; [reflexivity|].
  split; [vm_compute; reflexivity|]. split; [vm_compute; reflexivity|].
  destruct (eval_batches_cover sample_ready _ 2 _ _ ltac:(vm_compute; reflexivity) eq_refl
              ltac:(vm_compute; reflexivity) ltac:(vm_compute; reflexivity)) as (extra & H1 & H2).
  exists extra. split_and!; [exact H1|exact H2|]. rewrite H2. vm_compute. reflexivity.
Defined.

Lemma not_ready_usage_error_witness :
  phase sample_raw <> Ready /\
  GetNextBatch sample_raw = Err UsageError /\ GetNumBatches sample_raw = Err UsageError /\
  GetNextBatches 1 sample_raw = Err UsageError.
Proof.
  assert (H : phase sample_raw <> Ready) by (vm_compute; discriminate).
  split; [exact H|]. exact (not_ready_usage_error sample_raw 0 H).
Defined.

End Batcher.
