(* ===== verification/Trainer.v ===== *)
(** * The single-process driver

    The script body of src/rnnlm.py: reading the corpus, building or
    loading the vocabularies, preparing the dataset (lines 57-77), and the
    three modes it dispatches to (lines 173-180): [Train] (85-116),
    [Eval] (143-171) and [Greedy] (119-136), with [GetText] (139-141);
    [main] runs [setup] and the mode's function in one experiment
    directory.
    The neural model is an opaque collaborator: its cost on a batch and
    its next-word distribution are section variables.  Costs and
    probabilities are rationals ([Q]); the code computes with floats, and
    the theorems are about the arithmetic the code intends. *)

From S2P Require Import Prelude PyStr Corpus Vocab Batcher.
From Stdlib Require Import QArith.
Import PyStr Corpus Vocab Batcher.
Local Open Scope nat_scope.

Module Trainer.

(** ** Constants *)

(** [max_len = 36] (src/rnnlm.py:59). *)
Definition MAX_LEN : nat := 36.

(** [xrange(800000)] (src/rnnlm.py:96). *)
Local Set Warnings "-abstract-large-number".
Definition TRAIN_ITERS : nat := 800000.

(** [idx % 25 == 0] and [idx % 1000 == 0] (src/rnnlm.py:108,115). *)
Definition LOG_EVERY : nat := 25.
Definition SAVE_EVERY : nat := 1000.

(** [xrange(10)] (src/rnnlm.py:126). *)
Definition GREEDY_STEPS : nat := 10.

Definition MODEL_PATH : string := "model.bin".
Definition WORD_VOCAB_FILE : string := "word_vocab.pickle".
Definition USER_VOCAB_FILE : string := "username_vocab.pickle".

(** ** Feeding a batch *)

(** [model.x: s[:, :-1]] and [model.y: s[:, 1:]] (src/rnnlm.py:100-101). *)
Definition feed_x (b : Batch) : list (list nat) := map (@removelast nat) (batch_ids b).
Definition feed_y (b : Batch) : list (list nat) := map tail (batch_ids b).

(** [s[0, i]]: an [IndexError] past the end of the first row. *)
Definition entry0 (b : Batch) (i : nat) : result nat :=
  match batch_ids b with
  | r :: _ => match r !! i with Some k => Ok k | None => Err IndexError end
  | [] => Err IndexError
  end.

(** [[vocab.idx_to_word[s[0, i]] for i in range(n)]]. *)
Definition words0 (v : Vocab) (b : Batch) (n : nat) : result (list string) :=
  mapM (fun i => k ← entry0 b i; idx_to_word v k) (seq 0 n).

(** [seq_len[0]]. *)
Definition seq_len0 (b : Batch) : result nat :=
  match batch_seq_len b with n :: _ => Ok n | [] => Err IndexError end.

(** [' '.join(ws)]. *)
Fixpoint join_sp (ws : list string) : string :=
  match ws with
  | [] => ""
  | [w] => w
  | w :: ws' => (w ++ " " ++ join_sp ws')%string
  end.

(** [GetText(s, seq_len)] (src/rnnlm.py:139-141). *)
Definition GetText (v : Vocab) (b : Batch) (n : nat) : result string :=
  ws ← words0 v b n; Ok (join_sp ws).

(** ** [Train] *)

(** What one iteration of [Train] leaves behind: a log record (the first
    row's words and the cost), and a checkpoint. *)
Inductive TrainEvent :=
| Logged (idx : nat) (words : list string) (cost : Q)
| Saved (idx : nat).

Section Train.
(** The vocabulary the script prepared the dataset with, and the model's
    cost at iteration [idx] on a batch (parameters change as it trains). *)
Variable vocab : Vocab.
Variable cost : nat -> Batch -> Q.

(** The body of the loop at src/rnnlm.py:96-116, from iteration [idx],
    for [fuel] iterations. *)
Fixpoint train_loop (fuel idx : nat) (ds : Dataset) : result (list TrainEvent * Dataset) :=
  match fuel with
  | 0 => Ok ([], ds)
  | S fuel' =>
      '(b, ds1) ← GetNextBatch ds;
      let c := cost idx b in
      evs ← (if idx mod LOG_EVERY =? 0 then
               n ← seq_len0 b;
               ws ← words0 vocab b n;
               Ok (Logged idx ws c :: (if idx mod SAVE_EVERY =? 0 then [Saved idx] else []))
             else Ok []);
      '(rest, ds2) ← train_loop fuel' (S idx) ds1;
      Ok (evs ++ rest, ds2)
  end.

Definition Train (ds : Dataset) : result (list TrainEvent * Dataset) :=
  train_loop TRAIN_ITERS 0 ds.

End Train.

(** The iterations at which a checkpoint is written. *)
Definition saved_indices (evs : list TrainEvent) : list nat :=
  omap (fun e => match e with Saved i => Some i | _ => None end) evs.

Definition logged_indices (evs : list TrainEvent) : list nat :=
  omap (fun e => match e with Logged i _ _ => Some i | _ => None end) evs.

(** ** [Eval] *)

Section Eval.
(** The restored model's cost on a batch. *)
Variable cost : Batch -> Q.

(** The loop at src/rnnlm.py:151-171: the running totals, and the
    argument of [np.exp] printed after each batch; the division raises
    [ZeroDivisionError] while no token has been counted. *)
Fixpoint eval_loop (n : nat) (ds : Dataset) (wc : nat) (lp : Q) : result (list Q * Dataset) :=
  match n with
  | 0 => Ok ([], ds)
  | S n' =>
      '(b, ds1) ← GetNextBatch ds;
      let k := sum_list (batch_seq_len b) in
      let wc' := wc + k in
      let lp' := (lp + cost b * inject_Z (Z.of_nat k))%Q in
      if wc' =? 0 then Err ZeroDivisionError
      else '(out, ds2) ← eval_loop n' ds1 wc' lp';
           Ok ((lp' / inject_Z (Z.of_nat wc'))%Q :: out, ds2)
  end.

Definition Eval (ds : Dataset) : result (list Q * Dataset) :=
  n ← GetNumBatches ds; eval_loop n ds 0 0.

End Eval.

(** ** [Greedy] *)

(** [np.argmax]: the first index of a maximal element; a [ValueError] on
    an empty array. *)
Fixpoint argmax_go (l : list Q) (i best : nat) (bv : Q) : nat :=
  match l with
  | [] => best
  | x :: l' => if Qlt_le_dec bv x then argmax_go l' (S i) i x else argmax_go l' (S i) best bv
  end.

Definition argmax (l : list Q) : result nat :=
  match l with
  | [] => Err ValueError
  | x :: l' => Ok (argmax_go l' 1 0 x)
  end.

Section Greedy.
Variable vocab : Vocab.
(** The recurrent state and one step of the restored model:
    [session.run([model.next_word_prob, model.nextstate_h, model.nextstate_c], ...)]. *)
Variable State : Type.
Variable next_word : nat -> State -> list Q * State.

Fixpoint greedy_loop (n : nat) (w : string) (st : State) : result (list string) :=
  match n with
  | 0 => Ok []
  | S n' =>
      let '(probs, st') := next_word (lookup vocab w) st in
      k ← argmax probs;
      w' ← idx_to_word vocab k;
      rest ← greedy_loop n' w' st';
      Ok (w' :: rest)
  end.

(** [Greedy(expdir)] from the zero state (src/rnnlm.py:119-136): the ten
    words it prints. *)
Definition Greedy (st0 : State) : result (list string) := greedy_loop GREEDY_STEPS "<S>" st0.

End Greedy.

(** ** The script *)

(** Lines 57-77: read the corpus, add it to a fresh [Dataset], build and
    save the vocabularies in [train] mode or load them otherwise, and
    prepare the dataset unless in [debug] mode.  [batch_size] is the
    [Dataset] default; the experiment directory maps file names to
    contents. *)
Definition setup (mode : Mode) (batch_size : nat) (content : string) (fs : gmap string string)
    : result (Dataset * Vocab * Vocab * gmap string string) :=
  '(usernames, texts) ← ReadData mode content DEFAULT_LIMIT;
  ds ← AddDataSource (new_dataset MAX_LEN batch_size true) usernames texts;
  '(v, uv, fs') ←
    match mode with
    | Corpus.Train =>
        let '(v, uv) := build_vocabs usernames texts in
        Ok (v, uv, <[USER_VOCAB_FILE := Save uv]> (<[WORD_VOCAB_FILE := Save v]> fs))
    | _ =>
        v ← (match fs !! WORD_VOCAB_FILE with Some b => Load b | None => Err IOError end);
        uv ← (match fs !! USER_VOCAB_FILE with Some b => Load b | None => Err IOError end);
        Ok (v, uv, fs)
    end;
  let ds' := match mode with Debug => ds | _ => Prepare ds v uv end in
  Ok (ds', v, uv, fs').

(** What the script leaves behind, by mode. *)
Inductive Output :=
| TrainOut (evs : list TrainEvent)
| EvalOut (perplexities : list Q)
| DebugOut (words : list string).

(** [saver.restore(session, os.path.join(expdir, 'model.bin'))]
    (src/rnnlm.py:120,145): an [IOError] when no checkpoint was saved. *)
Definition restore (fs : gmap string string) : result string :=
  match fs !! MODEL_PATH with Some blob => Ok blob | None => Err IOError end.

Section Main.
(** The model, as the three modes use it: its cost while training at
    iteration [idx], the checkpoint [saver.save] writes at iteration [idx],
    and, restored from a checkpoint, its cost on a batch and its
    next-word distribution. *)
Variable train_cost : nat -> Batch -> Q.
Variable model_blob : nat -> string.
Variable eval_cost : string -> Batch -> Q.
Variable State : Type.
Variable next_word : string -> nat -> State -> list Q * State.
Variable st0 : State.

(** The whole script (src/rnnlm.py:57-180): [setup], then the mode's
    function; [model.bin] holds the checkpoint of the last iteration
    [Train] saved. *)
Definition main (mode : Mode) (batch_size : nat) (content : string) (fs : gmap string string)
    : result (Output * gmap string string) :=
  '(ds, v, uv, fs1) ← setup mode batch_size content fs;
  match mode with
  | Corpus.Train =>
      '(evs, _) ← Train v train_cost ds;
      let fs2 := match last (saved_indices evs) with
                 | Some i => <[MODEL_PATH := model_blob i]> fs1
                 | None => fs1
                 end in
      Ok (TrainOut evs, fs2)
  | EvalMode =>
      blob ← restore fs1;
      '(out, _) ← Eval (eval_cost blob) ds;
      Ok (EvalOut out, fs1)
  | Debug =>
      blob ← restore fs1;
      ws ← Greedy v State (next_word blob) st0;
      Ok (DebugOut ws, fs1)
  end.

End Main.

(** ** The checkpoint schedule of [Train] *)

Local Arguments Nat.modulo : simpl never.
Local Arguments words0 : simpl never.
Local Arguments seq_len0 : simpl never.

(** The nested test [idx % 25 == 0] then [idx % 1000 == 0] is the single
    test [idx % 1000 == 0], since 25 divides 1000. *)
Lemma save_implies_log i : i mod SAVE_EVERY = 0 -> i mod LOG_EVERY = 0.
Proof.
  unfold SAVE_EVERY, LOG_EVERY. intros H.
  apply Nat.Div0.mod_divides in H as [q ->].
  replace (1000 * q) with ((40 * q) * 25) by lia. apply Nat.Div0.mod_mul.
Qed.

Lemma saved_indices_app l1 l2 : saved_indices (l1 ++ l2) = saved_indices l1 ++ saved_indices l2.
Proof. apply omap_app. Qed.

Lemma logged_indices_app l1 l2 : logged_indices (l1 ++ l2) = logged_indices l1 ++ logged_indices l2.
Proof. apply omap_app. Qed.

(** ** Totality of [Train] *)

Lemma idx_to_word_ok v k : k < size v -> exists t, idx_to_word v k = Ok t.
Proof.
  unfold size, idx_to_word. destruct k as [|k]; [eauto|]. intros Hk.
  destruct (lookup_lt_is_Some_2 (tokens v) k) as [t ->]; [lia|eauto].
Qed.

(** Logging the first row of a well-formed batch never fails: its first
    [seq_len[0]] ids are in range. *)
Lemma words0_ok v nu L k b :
  batch_ok (size v) nu L k b -> 0 < k ->
  exists n ws, seq_len0 b = Ok n /\ words0 v b n = Ok ws.
Proof.
  intros (Hk & Hids & Hkl & Hlen & _) Hpos. unfold seq_len0, words0, entry0.
  destruct (batch_ids b) as [|r rs]; [simpl in Hk; lia|].
  destruct (batch_seq_len b) as [|n ns]; [simpl in Hkl; lia|].
  apply Forall_cons_1 in Hids as [[HL Hr] _]. apply Forall_cons_1 in Hlen as [Hn _].
  exists n. cut (exists ws, mapM (fun i => k ← match r !! i with Some k => Ok k | None => Err IndexError end;
                                       idx_to_word v k) (seq 0 n) = Ok ws).
  { intros [ws Hws]. by exists ws. }
  apply mapM_total. intros i Hi%elem_of_seq.
  destruct (lookup_lt_is_Some_2 r i) as [x Hx]; [lia|]. rewrite Hx. simpl.
  apply idx_to_word_ok. exact (Forall_lookup_1 _ _ _ _ Hr Hx).
Qed.

Section TrainFacts.
Variable vocab : Vocab.
Variable cost : nat -> Batch -> Q.

(** The iterations [Train] logs and checkpoints, from the first
    iteration [idx] on. *)
Lemma train_loop_schedule fuel idx ds evs ds' :
  train_loop vocab cost fuel idx ds = Ok (evs, ds') ->
  saved_indices evs = filter (fun i => i mod SAVE_EVERY = 0) (seq idx fuel) /\
  logged_indices evs = filter (fun i => i mod LOG_EVERY = 0) (seq idx fuel).
Proof.
  revert idx ds evs. induction fuel as [|fuel IH]; intros idx ds evs; simpl.
  - by intros [= <- _].
  - intros H. apply bind_Ok in H as ([b ds1] & Eb & H).
    apply bind_Ok in H as (evs0 & Hevs & H). apply bind_Ok in H as ([rest ds2] & Hrest & [= <- <-]).
    rewrite saved_indices_app, logged_indices_app, !filter_cons.
    destruct (IH _ _ _ Hrest) as [-> ->].
    destruct (Nat.eqb_spec (idx mod LOG_EVERY) 0) as [Hl|Hl].
    + inv_bind. subst. rewrite (decide_True _ _ Hl).
      destruct (Nat.eqb_spec (idx mod SAVE_EVERY) 0);
        [rewrite decide_True by done|rewrite decide_False by done]; done.
    + injection Hevs as <-. assert (idx mod SAVE_EVERY <> 0) by (by intros ?%save_implies_log).
      by rewrite !decide_False.
Qed.

Lemma train_loop_total fuel idx ds rs nu :
  ds_ok (size vocab) nu ds -> rows ds = Some rs -> rs <> [] -> 0 < batch_size ds ->
  exists evs ds', train_loop vocab cost fuel idx ds = Ok (evs, ds').
Proof.
  revert idx ds rs. induction fuel as [|fuel IH]; intros idx ds rs Hok Hrs Hne Hbs; simpl; [eauto|].
  destruct (GetNextBatch_total ds rs Hrs Hne) as (b & ds1 & rs1 & Eb & Hrs1 & Hp).
  destruct (GetNextBatch_ok _ _ ds b ds1 Hok Eb) as (Hb & Hok1 & _ & Hbs1).
  assert (rs1 <> []) by (intros ->; by apply Permutation_nil_l in Hp).
  destruct (IH (S idx) ds1 rs1) as (rest & ds2 & Hrest); [done..|lia|].
  rewrite Eb. simpl. destruct (idx mod LOG_EVERY =? 0); simpl.
  - destruct (words0_ok vocab nu _ _ b Hb Hbs) as (n & ws & Hn & Hws).
    rewrite Hn. simpl. rewrite Hws. simpl. rewrite Hrest. simpl. eauto.
  - rewrite Hrest. simpl. eauto.
Qed.

End TrainFacts.

(** The multiples of [k] in one block [k * m, k * m + k). *)
Lemma filter_mod_block k m :
  k <> 0 -> filter (fun i => i mod k = 0) (seq (k * m) k) = [k * m].
Proof.
  intros Hk. destruct k as [|k]; [done|]. cbn [seq].
  rewrite filter_cons_True by (rewrite Nat.mul_comm; apply Nat.Div0.mod_mul). f_equal.
  assert (H : forall j n, j + n <= k -> filter (fun i => i mod S k = 0) (seq (S k * m + S j) n) = []).
  { intros j n. revert j. induction n as [|n IH]; intros j Hjn; [done|]. cbn [seq].
    rewrite filter_cons_False.
    - replace (S (S k * m + S j)) with (S k * m + S (S j)) by lia. apply IH. lia.
    - rewrite Nat.add_comm, Nat.mul_comm, Nat.Div0.mod_add, Nat.mod_small; lia. }
  replace (S (S k * m)) with (S k * m + S 0) by lia. apply H. lia.
Qed.

(** The multiples of [k] below [k * m]. *)
Lemma filter_multiples k m :
  k <> 0 -> filter (fun i => i mod k = 0) (seq 0 (k * m)) = map (fun j => k * j) (seq 0 m).
Proof.
  intros Hk. induction m as [|m IH]; [by rewrite Nat.mul_0_r|].
  replace (k * S m) with (k * m + k) by lia.
  rewrite seq_app, filter_app, IH, seq_S, map_app. simpl. by rewrite filter_mod_block.
Qed.

Lemma last_map_seq {A} (f : nat -> A) m : last (map f (seq 0 (S m))) = Some (f m).
Proof. rewrite seq_S, map_app. cbn [map Nat.add]. apply last_snoc. Qed.

(** [TRAIN_ITERS] in blocks; the rewriting is done under [seq] so that
    unification never unfolds the literal. *)
Lemma seq_TRAIN_ITERS_log : seq 0 TRAIN_ITERS = seq 0 (LOG_EVERY * 32000).
Proof. apply (f_equal (seq 0)), Nat.eqb_eq. vm_compute. reflexivity. Qed.

Lemma seq_TRAIN_ITERS_save : seq 0 TRAIN_ITERS = seq 0 (SAVE_EVERY * 800).
Proof. apply (f_equal (seq 0)), Nat.eqb_eq. vm_compute. reflexivity. Qed.

Lemma Prepare_rows_ne ds (v uv : Vocab) :
  raw ds <> [] -> exists rs, rows (Prepare ds v uv) = Some rs /\ rs <> [].
Proof. intros H. eexists. split; [reflexivity|]. by intros ?%map_eq_nil. Qed.

(** The last iteration [Train] saves at, named so that proofs never
    traverse its unary form. *)
Definition last_checkpoint : nat := 799000.

(** The closed form of [Train]'s schedule. *)
Lemma Train_schedule vocab cost ds evs ds' :
  train_loop vocab cost TRAIN_ITERS 0 ds = Ok (evs, ds') ->
  logged_indices evs = map (fun j => LOG_EVERY * j) (seq 0 32000) /\
  saved_indices evs = map (fun j => SAVE_EVERY * j) (seq 0 800) /\
  last (saved_indices evs) = Some last_checkpoint.
Proof.
  intros Htr. destruct (train_loop_schedule vocab cost TRAIN_ITERS 0 ds evs ds' Htr) as [Hs Hl].
  rewrite seq_TRAIN_ITERS_log in Hl. rewrite seq_TRAIN_ITERS_save in Hs.
  rewrite Hs, Hl, !filter_multiples by done. split; [reflexivity|]. split; [reflexivity|].
  rewrite last_map_seq. apply (f_equal Some), Nat.eqb_eq. vm_compute. reflexivity.
Qed.

(** C14: On a dataset prepared with the vocabulary it logs with, [Train]
    runs all 800000 iterations without an exception, logs iterations
    0, 25, 50, ..., and writes [model.bin] exactly at iterations 0, 1000,
    ..., 799000: the nested test of src/rnnlm.py:108,115 is [idx % 1000 == 0],
    and since no checkpoint follows the loop, the updates of the last 999
    iterations are never saved. *)
Theorem Train_checkpoints vocab uv cost ds0 :
  raw ds0 <> [] -> 0 < batch_size ds0 ->
  exists evs ds', Train vocab cost (Prepare ds0 vocab uv) = Ok (evs, ds') /\
    logged_indices evs = map (fun j => LOG_EVERY * j) (seq 0 32000) /\
    saved_indices evs = map (fun j => SAVE_EVERY * j) (seq 0 800) /\
    last (saved_indices evs) = Some 799000.
Proof.
  intros Hraw Hbs. destruct (Prepare_rows_ne ds0 vocab uv Hraw) as (rs & Hrs & Hne).
  destruct (train_loop_total vocab cost TRAIN_ITERS 0 (Prepare ds0 vocab uv) rs (size uv))
    as (evs & ds' & Htr); [exact (Prepare_ok (V := Vocab) ds0 vocab uv)|done..|].
  exists evs, ds'. split; [exact Htr|].
  destruct (Train_schedule _ _ _ _ _ Htr) as (Hl & Hs & Hlast). split_and!; [exact Hl|exact Hs|].
  rewrite Hlast. apply (f_equal Some), Nat.eqb_eq. vm_compute. reflexivity.
Qed.

(** ** [Eval] *)

(** The token count and the token-weighted cost of a list of batches,
    accumulated in the order of the loop. *)
Definition batch_tokens (b : Batch) : nat := sum_list (batch_seq_len b).

Definition total_tokens (wc : nat) (bl : list Batch) : nat :=
  fold_left (fun acc b => acc + batch_tokens b) bl wc.

Definition total_cost (cost : Batch -> Q) (lp : Q) (bl : list Batch) : Q :=
  fold_left (fun acc b => (acc + cost b * inject_Z (Z.of_nat (batch_tokens b)))%Q) bl lp.

Lemma sum_list_pos_row_len out :
  out <> [] -> Forall (fun r => 0 < row_len r) out -> 0 < sum_list (map row_len out).
Proof. destruct out as [|r out]; [done|]. intros _ [Hr _]%Forall_cons_1. simpl. lia. Qed.

Section EvalFacts.
Variable cost : Batch -> Q.

(** What the loop prints after the last batch: the weighted cost over
    the tokens of exactly the batches [GetNextBatches] returns. *)
Lemma eval_loop_spec n ds wc lp out ds' :
  eval_loop cost n ds wc lp = Ok (out, ds') ->
  exists bl, GetNextBatches n ds = Ok (bl, ds') /\ length out = n /\
    (n <> 0 -> last out = Some (total_cost cost lp bl / inject_Z (Z.of_nat (total_tokens wc bl)))%Q).
Proof.
  revert ds wc lp out. induction n as [|n IH]; intros ds wc lp out; simpl.
  - intros [= <- <-]. by exists [].
  - destruct (GetNextBatch ds) as [[b ds1]|e]; [simpl|done].
    destruct (_ =? 0); [done|].
    destruct (eval_loop cost n ds1 _ _) as [[out1 ds2]|e] eqn:E; [simpl|done].
    intros [= <- <-]. destruct (IH _ _ _ _ E) as (bl & Hbl & Hl & Hlast).
    exists (b :: bl). rewrite Hbl. simpl. split; [done|]. split; [by rewrite Hl|]. intros _.
    destruct n as [|n].
    + simpl in E, Hbl. inversion E. inversion Hbl. subst. reflexivity.
    + destruct out1 as [|q out1]; [done|]. specialize (Hlast ltac:(done)).
      unfold total_cost, total_tokens, batch_tokens in *. simpl. exact Hlast.
Qed.

(** The loop never divides by zero when every row has a token. *)
Lemma eval_loop_total n ds rs wc lp :
  rows ds = Some rs -> rs <> [] -> 0 < batch_size ds -> Forall (fun r => 0 < row_len r) rs ->
  exists out ds', eval_loop cost n ds wc lp = Ok (out, ds').
Proof.
  revert ds rs wc lp. induction n as [|n IH]; intros ds rs wc lp Hrs Hne Hbs Hpos; simpl; [eauto|].
  destruct (GetNextBatch_total ds rs Hrs Hne) as (b & ds1 & rs1 & Eb & _).
  destruct (GetNextBatch_rows ds rs b ds1 Hrs Eb) as (out & rs' & Hsl & Hl & Hin & Hrs' & Hp & Hbs' & _).
  rewrite Eb. simpl.
  assert (0 < sum_list (batch_seq_len b)).
  { rewrite Hsl. apply sum_list_pos_row_len; [intros ->; simpl in Hl; lia|].
    apply Forall_forall. intros r Hr. rewrite Forall_forall in Hin, Hpos. by apply Hpos, Hin. }
  destruct (Nat.eqb_spec (wc + sum_list (batch_seq_len b)) 0); [lia|].
  destruct (IH ds1 rs' (wc + sum_list (batch_seq_len b))
              (lp + cost b * inject_Z (Z.of_nat (sum_list (batch_seq_len b))))%Q)
    as (out1 & ds2 & ->); [done| |lia|by rewrite Hp|].
  - intros ->. by apply Permutation_nil_l in Hp.
  - simpl. eauto.
Qed.

(** C16: Run to completion, [Eval] prints after its last batch the
    token-weighted mean cost (the logarithm of the perplexity it reports)
    over exactly the [GetNumBatches()] batches that [GetNextBatch]
    returns in that many calls. *)
Theorem Eval_perplexity ds out ds' :
  Eval cost ds = Ok (out, ds') ->
  exists n bl, GetNumBatches ds = Ok n /\ GetNextBatches n ds = Ok (bl, ds') /\ length out = n /\
    (n <> 0 -> last out = Some (total_cost cost 0 bl / inject_Z (Z.of_nat (total_tokens 0 bl)))%Q).
Proof.
  unfold Eval. destruct (GetNumBatches ds) as [n|e]; [simpl|done]. intros H.
  destruct (eval_loop_spec _ _ _ _ _ _ H) as (bl & ? & ? & ?). by exists n, bl.
Qed.

Lemma Prepare_row_len_pos (v uv : Vocab) ds :
  0 < max_len ds -> Forall (fun rec => rec.2 <> []) (raw ds) ->
  Forall (fun r => 0 < row_len r) (map (prepare_row v uv (max_len ds)) (raw ds)).
Proof.
  intros HL Hraw. apply Forall_map. eapply Forall_impl; [exact Hraw|].
  intros [u t] Ht. cbn [prepare_row row_len snd] in *. rewrite length_map.
  destruct t; [done|]. cbn [length]. lia.
Qed.

Lemma Eval_prepared_total ds0 (v uv : Vocab) :
  0 < batch_size ds0 -> 0 < max_len ds0 -> Forall (fun rec => rec.2 <> []) (raw ds0) ->
  exists out ds', Eval cost (Prepare ds0 v uv) = Ok (out, ds') /\
    length out = (length (raw ds0) + batch_size ds0 - 1) / batch_size ds0.
Proof.
  intros Hbs HL Htxt. pose proof (Prepare_row_len_pos v uv ds0 HL Htxt) as Hpos.
  unfold Eval, GetNumBatches. cbn [rows Prepare].
  change (batch_size (Prepare ds0 v uv)) with (batch_size ds0).
  destruct (Nat.eqb_spec (batch_size ds0) 0) as [|_]; [lia|]. rewrite bind_ret_Ok.
  destruct (raw ds0) as [|r rs] eqn:Hraw.
  - simpl. rewrite (Nat.div_small (_ - 1)) by lia. exists [], (Prepare ds0 v uv). split; reflexivity.
  - assert (Hne : map (prepare_row v uv (max_len ds0)) (r :: rs) <> []) by done.
    match goal with |- context [eval_loop cost ?n ?d ?w ?l] =>
      destruct (eval_loop_total n d _ w l ltac:(cbn; by rewrite Hraw) Hne Hbs Hpos) as (out & ds' & E) end.
    rewrite E. exists out, ds'. split; [done|].
    destruct (eval_loop_spec _ _ _ _ _ _ E) as (_ & _ & -> & _). by rewrite length_map.
Qed.

(** C17: On a dataset prepared from records that all have a token (an
    empty dataset included), with a positive [max_len] and [batch_size],
    [Eval] never raises: not the
    [ZeroDivisionError] of [total_log_prob / total_word_count], nor a
    usage error; it prints one value per batch, [ceil(n / batch_size)]
    values for [n] records. *)
Theorem Eval_never_fails ds0 (v uv : Vocab) :
  0 < batch_size ds0 -> 0 < max_len ds0 ->
  Forall (fun rec => rec.2 <> []) (raw ds0) ->
  exists out ds', Eval cost (Prepare ds0 v uv) = Ok (out, ds') /\
    length out = (length (raw ds0) + batch_size ds0 - 1) / batch_size ds0.
Proof. apply Eval_prepared_total. Qed.

End EvalFacts.

(** ** [Greedy] *)

(** [k] is the first index of a maximum of [l]. *)
Definition first_max (l : list Q) (k : nat) : Prop :=
  exists m, l !! k = Some m /\ (forall j x, l !! j = Some x -> (x <= m)%Q) /\
            (forall j x, j < k -> l !! j = Some x -> (x < m)%Q).

Lemma argmax_go_spec l pre best bv :
  pre !! best = Some bv -> (forall j x, pre !! j = Some x -> (x <= bv)%Q) ->
  (forall j x, j < best -> pre !! j = Some x -> (x < bv)%Q) ->
  first_max (pre ++ l) (argmax_go l (length pre) best bv).
Proof.
  revert pre best bv. induction l as [|x l IH]; intros pre best bv Hb Hle Hlt; simpl.
  - rewrite app_nil_r. by exists bv.
  - replace (pre ++ x :: l) with ((pre ++ [x]) ++ l) by (by rewrite <-app_assoc).
    replace (S (length pre)) with (length (pre ++ [x])) by (rewrite length_app; simpl; lia).
    destruct (Qlt_le_dec bv x) as [Hx|Hx]; apply IH.
    + by rewrite lookup_app_r, Nat.sub_diag by lia.
    + intros j y [Hy|[Hj Hy]]%lookup_app_Some.
      * apply Qlt_le_weak, Qle_lt_trans with bv; [by eapply Hle|done].
      * apply list_lookup_singleton_Some in Hy as [_ <-]. apply Qle_refl.
    + intros j y Hj Hy. rewrite lookup_app_l in Hy by lia. eapply Qle_lt_trans; [by eapply Hle|done].
    + by apply lookup_app_l_Some.
    + intros j y [Hy|[Hj Hy]]%lookup_app_Some; [by eapply Hle|].
      by apply list_lookup_singleton_Some in Hy as [_ <-].
    + intros j y Hj Hy. apply (Hlt j); [done|]. rewrite lookup_app_l in Hy; [done|].
      apply lookup_lt_Some in Hb. lia.
Qed.

(** [np.argmax] returns the first index of a maximal probability. *)
Theorem argmax_first_max l k : argmax l = Ok k -> first_max l k.
Proof.
  destruct l as [|x l]; simpl; [done|]. intros [= <-].
  apply (argmax_go_spec l [x] 0 x); [done| |lia].
  intros j y ?%list_lookup_singleton_Some. destruct_and!. subst. apply Qle_refl.
Qed.

Lemma argmax_total l : l <> [] -> exists k, argmax l = Ok k /\ k < length l.
Proof.
  destruct l as [|x l]; [done|]. intros _. eexists. split; [reflexivity|].
  destruct (argmax_first_max (x :: l) _ eq_refl) as (m & Hm & _). by eapply lookup_lt_Some.
Qed.

Lemma idx_to_word_in v k t : idx_to_word v k = Ok t -> t = UNK \/ t ∈ tokens v.
Proof.
  unfold idx_to_word. destruct k as [|k]; [intros [= <-]; by left|].
  destruct (tokens v !! k) eqn:E; intros [= <-]. right. by eapply list_elem_of_lookup_2.
Qed.

Section GreedyFacts.
Variable vocab : Vocab.
Variable State : Type.
Variable next_word : nat -> State -> list Q * State.
(** The model's distribution ranges over the vocabulary:
    [StandardModel(max_len-1, len(vocab))] (src/rnnlm.py:79). *)
Hypothesis next_word_len : forall i st, length (next_word i st).1 = size vocab.

Lemma greedy_loop_total n w st :
  exists ws, greedy_loop vocab State next_word n w st = Ok ws /\ length ws = n /\
             Forall (fun w => w = UNK \/ w ∈ tokens vocab) ws.
Proof.
  revert w st. induction n as [|n IH]; intros w st; simpl; [by exists []|].
  destruct (next_word (lookup vocab w) st) as [probs st'] eqn:E.
  pose proof (next_word_len (lookup vocab w) st) as Hl. rewrite E in Hl. simpl in Hl.
  destruct (argmax_total probs) as (k & -> & Hk); [by intros ->; unfold size in Hl|].
  destruct (idx_to_word_ok vocab k) as [t Ht]; [lia|]. simpl. rewrite Ht. simpl.
  destruct (IH t st') as (ws & -> & Hlen & Hall). simpl.
  exists (t :: ws). split; [done|]. split; [simpl; lia|]. constructor; [|done].
  by eapply idx_to_word_in.
Qed.

(** C26: When the model's distribution ranges over the vocabulary,
    [Greedy] never raises and prints [GREEDY_STEPS] words, each a word of
    the vocabulary or the unknown token. *)
Theorem Greedy_total st0 :
  exists ws, Greedy vocab State next_word st0 = Ok ws /\ length ws = GREEDY_STEPS /\
             Forall (fun w => w = UNK \/ w ∈ tokens vocab) ws.
Proof. apply greedy_loop_total. Qed.

End GreedyFacts.

(** ** The script: [train] then [eval] in one experiment directory *)

(** A read that succeeds in one mode succeeds in every mode: the lines
    parsed do not depend on the mode. *)
Lemma ReadData_mode_Ok mode mode' content limit us ts :
  ReadData mode content limit = Ok (us, ts) -> exists us' ts', ReadData mode' content limit = Ok (us', ts').
Proof.
  intros (ps & Hps & _)%ReadData_Ok. rewrite ReadData_eq_spec. unfold read_spec.
  rewrite !Nat.sub_0_r, Hps. simpl. destruct (records_of _). eauto.
Qed.

Lemma AddDataSource_fresh L bs pre us ts :
  exists ds, AddDataSource (new_dataset L bs pre) us ts = Ok ds.
Proof. unfold AddDataSource. simpl. destruct pre; [destruct (shuffle _ _)|]; eauto. Qed.

(** [AddDataSource] on a fresh dataset keeps its [batch_size] and
    [max_len] and buffers the records it is given, in some order. *)
Lemma AddDataSource_fresh_fields L bs us ts ds :
  AddDataSource (new_dataset L bs true) us ts = Ok ds ->
  batch_size ds = bs /\ max_len ds = L /\ raw ds ≡ₚ zip us ts.
Proof.
  intros E. pose proof (AddDataSource_buffer (new_dataset L bs true) us ts) as Hb.
  rewrite E in Hb. destruct Hb as (_ & Hp & _). split_and!; [|by apply AddDataSource_max_len in E|done].
  revert E. unfold AddDataSource. simpl. destruct (shuffle _ _). by intros [= <-].
Qed.

(** Every record of a read has a token: [tokenize] adds [<S>]. *)
Lemma ReadData_texts_ne mode content limit us ts :
  ReadData mode content limit = Ok (us, ts) -> Forall (fun rec => rec.2 <> []) (zip us ts).
Proof.
  intros (ps & _ & Hrec)%ReadData_Ok. injection Hrec as <- <-.
  rewrite zip_records_of. apply Forall_map, Forall_forall. intros r _. unfold tokenize. done.
Qed.

(** In [eval] mode, [setup] reads the vocabularies from the directory
    and prepares the read records with them. *)
Lemma setup_eval_loads bs content fs (v uv : Vocab) us ts :
  ReadData EvalMode content DEFAULT_LIMIT = Ok (us, ts) ->
  fs !! WORD_VOCAB_FILE = Some (Save v) -> fs !! USER_VOCAB_FILE = Some (Save uv) ->
  exists ds0, AddDataSource (new_dataset MAX_LEN bs true) us ts = Ok ds0 /\
    setup EvalMode bs content fs = Ok (Prepare ds0 v uv, v, uv, fs).
Proof.
  intros Er Hw Hu. destruct (AddDataSource_fresh MAX_LEN bs true us ts) as [d Ed].
  exists d. split; [done|]. unfold setup. rewrite Er. simpl. rewrite Ed. simpl.
  rewrite Hw, Hu, !Save_roundtrip. reflexivity.
Qed.

Lemma vocab_files_ne : USER_VOCAB_FILE <> WORD_VOCAB_FILE.
Proof. unfold USER_VOCAB_FILE, WORD_VOCAB_FILE. discriminate. Qed.

Lemma model_path_ne f : f = WORD_VOCAB_FILE \/ f = USER_VOCAB_FILE -> MODEL_PATH <> f.
Proof. unfold MODEL_PATH, WORD_VOCAB_FILE, USER_VOCAB_FILE. by intros [-> | ->]. Qed.

(** In [train] mode, [setup] succeeds only after a successful read, and
    leaves both vocabularies it built saved in the directory. *)
Lemma setup_train_saves bs content fs ds (v uv : Vocab) fs' :
  setup Corpus.Train bs content fs = Ok (ds, v, uv, fs') ->
  (exists us ts, ReadData Corpus.Train content DEFAULT_LIMIT = Ok (us, ts)) /\
  fs' !! WORD_VOCAB_FILE = Some (Save v) /\ fs' !! USER_VOCAB_FILE = Some (Save uv).
Proof.
  unfold setup. destruct (ReadData Corpus.Train _ _) as [[us ts]|e] eqn:Er; [simpl|done].
  destruct (AddDataSource _ us ts) as [d|e]; [simpl|done].
  destruct (build_vocabs us ts) as [v0 uv0]. intros [= <- <- <- <-].
  split; [eauto|]. rewrite (lookup_insert_ne _ USER_VOCAB_FILE WORD_VOCAB_FILE) by exact vocab_files_ne.
  by rewrite !lookup_insert_eq.
Qed.

(** C15: Running the script in [eval] mode in the directory a [train] run
    left behind succeeds and evaluates with exactly the vocabularies the
    training run built: [Vocab.Load] reads back what [Vocab.Save] wrote
    (src/rnnlm.py:68-69,73-74). *)
Theorem setup_train_then_eval bs content fs ds v uv fs' :
  setup Corpus.Train bs content fs = Ok (ds, v, uv, fs') ->
  exists ds2, setup EvalMode bs content fs' = Ok (ds2, v, uv, fs').
Proof.
  intros ((us & ts & Er) & Hw & Hu)%setup_train_saves.
  destruct (ReadData_mode_Ok _ EvalMode _ _ _ _ Er) as (ue & te & Ee).
  destruct (setup_eval_loads bs content fs' v uv ue te Ee Hw Hu) as (d & _ & ->). eauto.
Qed.

Lemma Train_eq vocab cost ds : Train vocab cost ds = train_loop vocab cost TRAIN_ITERS 0 ds.
Proof. reflexivity. Qed.

Section MainFacts.
Variable train_cost : nat -> Batch -> Q.
Variable model_blob : nat -> string.
Variable eval_cost : string -> Batch -> Q.
Variable State : Type.
Variable next_word : string -> nat -> State -> list Q * State.
Variable st0 : State.

Local Abbreviation main := (main train_cost model_blob eval_cost State next_word st0).

(** [train] mode runs to its end when the read keeps a record. *)
Lemma main_train_total bs content fs us ts :
  0 < bs -> ReadData Corpus.Train content DEFAULT_LIMIT = Ok (us, ts) -> us <> [] ->
  exists evs fs', main Corpus.Train bs content fs = Ok (TrainOut evs, fs').
Proof.
  intros Hbs Er Hus. destruct (AddDataSource_fresh MAX_LEN bs true us ts) as [d0 Ed].
  destruct (AddDataSource_fresh_fields _ _ _ _ _ Ed) as (Hb & _ & Hp).
  assert (Hraw : raw d0 <> []).
  { apply ReadData_Ok in Er as (ps & _ & Hrec). injection Hrec as <- <-.
    rewrite zip_records_of in Hp. intros Hr. rewrite Hr in Hp.
    apply Permutation_nil_l in Hp. symmetry in Hp. apply map_eq_nil in Hp. by rewrite Hp in Hus. }
  destruct (build_vocabs us ts) as [v uv] eqn:Ev.
  destruct (Prepare_rows_ne d0 v uv Hraw) as (rs & Hrs & Hne).
  destruct (train_loop_total v train_cost TRAIN_ITERS 0 (Prepare d0 v uv) rs (size uv))
    as (evs & d' & Htr); [exact (Prepare_ok (V := Vocab) d0 v uv)|done|done|simpl; lia|].
  unfold main, setup. rewrite Er, bind_ret_Ok. cbv beta iota. rewrite Ed, bind_ret_Ok, Ev, !bind_ret_Ok.
  cbv beta iota. rewrite Train_eq, Htr, bind_ret_Ok. cbv beta iota. eauto.
Qed.

(** After a [train] run, [model.bin] holds the checkpoint of iteration
    [last_checkpoint = 799000], and an [eval] run in that directory prepares the records
    with the saved vocabularies and evaluates that checkpoint. *)
Lemma main_eval_after_train bs content fs evs fs' :
  0 < bs -> main Corpus.Train bs content fs = Ok (TrainOut evs, fs') ->
  last (saved_indices evs) = Some last_checkpoint /\ fs' !! MODEL_PATH = Some (model_blob last_checkpoint) /\
  exists ds2 v uv out ds3,
    setup EvalMode bs content fs' = Ok (ds2, v, uv, fs') /\
    Eval (eval_cost (model_blob last_checkpoint)) ds2 = Ok (out, ds3) /\
    main EvalMode bs content fs' = Ok (EvalOut out, fs').
Proof.
  intros Hbs Hm. unfold main in Hm.
  destruct (setup Corpus.Train bs content fs) as [[[[ds v] uv] fs1]|e] eqn:Es;
    [rewrite bind_ret_Ok in Hm; cbv beta iota in Hm|done].
  destruct (Train v train_cost ds) as [[evs0 d]|e] eqn:Et; [rewrite bind_ret_Ok in Hm|done].
  rewrite Train_eq in Et. destruct (Train_schedule _ _ _ _ _ Et) as (_ & _ & Hlast).
  rewrite Hlast in Hm. injection Hm as <- <-.
  destruct (setup_train_saves _ _ _ _ _ _ _ Es) as ((us & ts & Er) & Hw & Hu).
  destruct (ReadData_mode_Ok _ EvalMode _ _ _ _ Er) as (ue & te & Ee).
  destruct (setup_eval_loads bs content (<[MODEL_PATH := model_blob last_checkpoint]> fs1) v uv ue te Ee)
    as (d0 & Ed & Hs); [rewrite lookup_insert_ne by (apply model_path_ne; auto); assumption..|].
  destruct (AddDataSource_fresh_fields _ _ _ _ _ Ed) as (Hb & HL & Hp).
  destruct (Eval_prepared_total (eval_cost (model_blob last_checkpoint)) d0 v uv) as (out & d3 & Eo & _).
  - by rewrite Hb.
  - rewrite HL. unfold MAX_LEN. lia.
  - rewrite Hp. by eapply ReadData_texts_ne.
  - split; [done|]. split; [by rewrite lookup_insert_eq|].
    exists (Prepare d0 v uv), v, uv, out, d3. split; [exact Hs|]. split; [exact Eo|].
    unfold main, restore. rewrite Hs, bind_ret_Ok. cbv beta iota.
    rewrite lookup_insert_eq, bind_ret_Ok, Eo, bind_ret_Ok. reflexivity.
Qed.

(** C27: The script run in [train] mode on a corpus that keeps a
    training record ends without an exception, leaving in [model.bin]
    the checkpoint of iteration 799000; run in [eval] mode in the same
    directory afterwards, it ends without an exception too, evaluating
    that checkpoint on the records prepared with the vocabularies the
    training run saved (src/rnnlm.py:57-120,136-145,173-180). *)
Theorem main_train_then_eval bs content fs us ts :
  0 < bs -> ReadData Corpus.Train content DEFAULT_LIMIT = Ok (us, ts) -> us <> [] ->
  exists evs fs', main Corpus.Train bs content fs = Ok (TrainOut evs, fs') /\
    fs' !! MODEL_PATH = Some (model_blob last_checkpoint) /\
    exists ds2 v uv out ds3,
      setup EvalMode bs content fs' = Ok (ds2, v, uv, fs') /\
      Eval (eval_cost (model_blob last_checkpoint)) ds2 = Ok (out, ds3) /\
      main EvalMode bs content fs' = Ok (EvalOut out, fs').
Proof.
  intros Hbs Er Hus. destruct (main_train_total bs content fs us ts Hbs Er Hus) as (evs & fs' & Hm).
  exists evs, fs'. split; [exact Hm|].
  by destruct (main_eval_after_train bs content fs evs fs' Hbs Hm) as (_ & ? & ?).
Qed.

End MainFacts.

(** ** Feeding *)

Lemma length_removelast (r : list nat) : length (removelast r) = length r - 1.
Proof.
  destruct r as [|x r]; [done|].
  destruct (exists_last (l := x :: r)) as (r' & z & ->); [done|].
  rewrite removelast_last, length_app. simpl. lia.
Qed.

Lemma removelast_tail_shift (r : list nat) j :
  tail r !! j = r !! S j /\ (S j < length r -> removelast r !! j = r !! j).
Proof.
  split; [by destruct r|]. intros Hj.
  destruct (exists_last (l := r)) as (r' & z & ->); [intros ->; simpl in Hj; lia|].
  rewrite removelast_last, lookup_app_l; [done|]. rewrite length_app in Hj. simpl in Hj. lia.
Qed.

(** Each row of [s] of width [L] is fed as an input row [s[:, :-1]]
    and a target row [s[:, 1:]] of width [L - 1], the target at position
    [j] being the input at position [j + 1]: the model is trained to
    predict each token from its predecessors.  [seq_len] is passed
    unshifted: it is at most [L], not [L - 1]. *)
Theorem feed_shift nv nu L k b :
  batch_ok nv nu L k b ->
  Forall2 (fun x y => length x = L - 1 /\ length y = L - 1 /\
                      forall j, S j < L - 1 -> y !! j = x !! S j) (feed_x b) (feed_y b) /\
  Forall (fun n => n <= L) (batch_seq_len b).
Proof.
  intros (_ & Hids & _ & Hlen & _). split; [|done].
  unfold feed_x, feed_y. induction (batch_ids b) as [|r rs IH]; [constructor|].
  apply Forall_cons_1 in Hids as [[HL _] Hrs]. simpl. constructor; [|by apply IH].
  rewrite length_removelast, length_tl, HL. split_and!; [done|done|].
  intros j Hj. destruct (removelast_tail_shift r j) as [-> _].
  destruct (removelast_tail_shift r (S j)) as [_ Hx]. rewrite Hx; [done|lia].
Qed.

(** ** Concrete runs *)

(** The four-record dataset of the Batcher file ([max_len = 5],
    [batch_size = 3]) trained with a constant cost. *)
Lemma Train_checkpoints_witness :
  raw sample_raw <> [] /\ 0 < batch_size sample_raw /\
  exists evs ds', Train sample_vocab (fun _ _ => 0%Q) (Prepare sample_raw sample_vocab sample_vocab)
                  = Ok (evs, ds') /\
    logged_indices evs = map (fun j => LOG_EVERY * j) (seq 0 32000) /\
    saved_indices evs = map (fun j => SAVE_EVERY * j) (seq 0 800) /\
    last (saved_indices evs) = Some 799000.
Proof.
  assert (H1 : raw sample_raw <> []) by (vm_compute; discriminate).
  assert (H2 : 0 < batch_size sample_raw) by (vm_compute; lia).
  split; [exact H1|]. split; [exact H2|].
  exact (Train_checkpoints sample_vocab sample_vocab (fun _ _ => 0%Q) sample_raw H1 H2).
Defined.

(** Evaluating the prepared sample: two batches, six rows. *)
Lemma Eval_perplexity_witness :
  exists out ds', Eval (fun _ => 1%Q) sample_ready = Ok (out, ds') /\
  exists n bl, GetNumBatches sample_ready = Ok n /\ GetNextBatches n sample_ready = Ok (bl, ds') /\
    length out = n /\
    (n <> 0 -> last out = Some (total_cost (fun _ => 1%Q) 0 bl / inject_Z (Z.of_nat (total_tokens 0 bl)))%Q).
Proof.
  do 2 eexists. split; [vm_compute; reflexivity|].
  apply (Eval_perplexity (fun _ => 1%Q)). vm_compute. reflexivity.
Defined.

Lemma Eval_never_fails_witness :
  0 < batch_size sample_raw /\ 0 < max_len sample_raw /\
  Forall (fun rec => rec.2 <> []) (raw sample_raw) /\
  exists out ds', Eval (fun _ => 1%Q) (Prepare sample_raw sample_vocab sample_vocab) = Ok (out, ds') /\
    length out = (length (raw sample_raw) + batch_size sample_raw - 1) / batch_size sample_raw.
Proof.
  assert (H2 : 0 < batch_size sample_raw) by (vm_compute; lia).
  assert (H3 : 0 < max_len sample_raw) by (vm_compute; lia).
  assert (H4 : Forall (fun rec => rec.2 <> []) (raw sample_raw))
    by (apply (bool_decide_unpack _); vm_compute; reflexivity).
  split_and!; [exact H2|exact H3|exact H4|].
  exact (Eval_never_fails (fun _ => 1%Q) sample_raw sample_vocab sample_vocab H2 H3 H4).
Defined.

Lemma argmax_first_max_witness :
  argmax [1; 3; 3; 2]%Q = Ok 1 /\ first_max [1; 3; 3; 2]%Q 1.
Proof.
  assert (H : argmax [1; 3; 3; 2]%Q = Ok 1) by (vm_compute; reflexivity).
  split; [exact H|]. exact (argmax_first_max _ _ H).
Defined.

(** A model that always predicts the next index of the vocabulary. *)
Definition toy_next (v : Vocab) (i : nat) (st : unit) : list Q * unit :=
  (map (fun j => if Nat.eqb j (S i mod size v) then 1%Q else 0%Q) (seq 0 (size v)), st).

Lemma Greedy_total_witness :
  (forall i st, length (toy_next sample_vocab i st).1 = size sample_vocab) /\
  exists ws, Greedy sample_vocab unit (toy_next sample_vocab) tt = Ok ws /\
    length ws = GREEDY_STEPS /\ Forall (fun w => w = UNK \/ w ∈ tokens sample_vocab) ws.
Proof.
  assert (H : forall i st, length (toy_next sample_vocab i st).1 = size sample_vocab)
    by (intros i st; unfold toy_next; cbn [fst]; rewrite length_map, length_seq; reflexivity).
  split; [exact H|]. exact (Greedy_total sample_vocab unit (toy_next sample_vocab) H tt).
Defined.

(** Training on the 30-line sample corpus with [batch_size = 3], then
    evaluating in the same directory. *)
Lemma setup_train_then_eval_witness :
  exists ds v uv fs', setup Corpus.Train 3 (sample_corpus 30) ∅ = Ok (ds, v, uv, fs') /\
  exists ds2, setup EvalMode 3 (sample_corpus 30) fs' = Ok (ds2, v, uv, fs').
Proof.
  do 4 eexists. split; [vm_compute; reflexivity|].
  eapply (setup_train_then_eval 3 (sample_corpus 30) ∅). vm_compute. reflexivity.
Defined.

(** The first batch of the prepared sample: its first row has
    [seq_len = 5 = max_len] while the input rows are 4 wide. *)
Lemma feed_shift_witness :
  exists b ds', GetNextBatch sample_ready = Ok (b, ds') /\
    batch_ok (ti_size sample_vocab) (ti_size sample_vocab) 5 3 b /\
    batch_seq_len b !! 0 = Some 5 /\ map length (feed_x b) = [4; 4; 4] /\
    Forall2 (fun x y => length x = 5 - 1 /\ length y = 5 - 1 /\
                        forall j, S j < 5 - 1 -> y !! j = x !! S j) (feed_x b) (feed_y b) /\
    Forall (fun n => n <= 5) (batch_seq_len b).
Proof.
  do 2 eexists. split; [vm_compute; reflexivity|].
  match goal with |- batch_ok ?nv ?nu ?L ?k ?b /\ _ =>
    assert (Hb : batch_ok nv nu L k b) by (apply (bool_decide_unpack _); vm_compute; reflexivity) end.
  split; [exact Hb|]. split; [reflexivity|]. split; [reflexivity|].
  exact (feed_shift _ _ 5 3 _ Hb).
Defined.

(** Training, then evaluating, on the 30-line sample corpus with
    [batch_size = 3] in an empty directory. *)
Lemma main_train_then_eval_witness :
  exists us ts, ReadData Corpus.Train (sample_corpus 30) DEFAULT_LIMIT = Ok (us, ts) /\ us <> [] /\
  exists evs fs',
    main (fun _ _ => 0%Q) (fun _ => "ckpt"%string) (fun _ _ => 0%Q) unit (fun _ _ st => ([], st)) tt
      Corpus.Train 3 (sample_corpus 30) ∅ = Ok (TrainOut evs, fs') /\
    fs' !! MODEL_PATH = Some "ckpt"%string /\
    exists ds2 v uv out ds3,
      setup EvalMode 3 (sample_corpus 30) fs' = Ok (ds2, v, uv, fs') /\
      Eval (fun _ => 0%Q) ds2 = Ok (out, ds3) /\
      main (fun _ _ => 0%Q) (fun _ => "ckpt"%string) (fun _ _ => 0%Q) unit (fun _ _ st => ([], st)) tt
        EvalMode 3 (sample_corpus 30) fs' = Ok (EvalOut out, fs').
Proof.
  refine (ex_intro _ ?[us] (ex_intro _ ?[ts] _)).
  assert (Er : ReadData Corpus.Train (sample_corpus 30) DEFAULT_LIMIT = Ok (?us, ?ts))
    by (vm_compute; reflexivity).
  match type of Er with _ = Ok (?u, _) => assert (Hus : u <> []) by (vm_compute; discriminate) end.
  split; [exact Er|]. split; [exact Hus|].
  exact (main_train_then_eval (fun _ _ => 0%Q) (fun _ => "ckpt"%string) (fun _ _ => 0%Q) unit
           (fun _ _ st => ([], st)) tt 3 (sample_corpus 30) ∅ _ _ ltac:(lia) Er Hus).
Defined.

End Trainer.
