(* ===== verification/Script.v ===== *)
(** * The command line of src/rnnlm.py and the script as a whole

    Lines 17-28 of src/rnnlm.py declare an [argparse] parser (a positional
    [expdir], [--mode] with choices train/debug/eval, [--model] with
    choices multi/bias, [--fancy_bias], [--dataset]), parse [sys.argv],
    and create the experiment directory when it is missing.  [parse_args]
    is Python 2.7's [ArgumentParser.parse_args] for that parser: the
    classification and consumption of Argparse.v over its option table,
    with one positional [expdir], then the [too few arguments] and
    [unrecognized arguments] errors.  [script] runs the parser, [os.mkdir] and [Trainer.main]
    in a file system of experiment directories. *)

From S2P Require Import Prelude PyStr Argparse Corpus Vocab Batcher Trainer.
From Stdlib Require Import Ascii QArith.
Import PyStr Argparse Corpus Vocab Batcher Trainer.
Local Open Scope string_scope.

Module Script.

(** ** The parser's declarations (src/rnnlm.py:17-24) *)

Inductive ModelKind := Multi | Bias.

Record Args := mkArgs {
  expdir : string;
  mode : Mode;
  model : ModelKind;
  fancy_bias : option string;   (** [None]: the default [False] *)
  dataset : string
}.

(** The options, [-h]/[--help] included (argparse adds it). *)
Inductive Opt := OHelp | OMode | OModel | OFancy | ODataset.

Definition option_strings : list (string * Opt) :=
  [("-h", OHelp); ("--help", OHelp); ("--mode", OMode); ("--model", OModel);
   ("--fancy_bias", OFancy); ("--dataset", ODataset)].

(** [arg_string in self._option_string_actions]. *)
Definition lookup_opt (s : string) : option Opt := Argparse.lookup_opt option_strings s.

(** [choices=['train', 'debug', 'eval']]. *)
Definition parse_mode (v : string) : result Mode :=
  if bool_decide (v = "train") then Ok Corpus.Train
  else if bool_decide (v = "debug") then Ok Debug
  else if bool_decide (v = "eval") then Ok EvalMode
  else Err USAGE_EXIT.

Definition parse_model (v : string) : result ModelKind :=
  if bool_decide (v = "multi") then Ok Multi
  else if bool_decide (v = "bias") then Ok Bias
  else Err USAGE_EXIT.

(** ** Consuming the arguments *)

Record PArgs := mkPArgs {
  p_expdir : option string; p_mode : Mode; p_model : ModelKind;
  p_fancy : option string; p_dataset : string; p_extras : bool }.

(** The defaults of src/rnnlm.py:19-24. *)
Definition pargs0 : PArgs := mkPArgs None Corpus.Train Bias None "all" false.

Definition set_opt (o : Opt) (v : string) (st : PArgs) : result PArgs :=
  match o with
  | OMode => m ← parse_mode v; Ok (mkPArgs (p_expdir st) m (p_model st) (p_fancy st) (p_dataset st) (p_extras st))
  | OModel => m ← parse_model v; Ok (mkPArgs (p_expdir st) (p_mode st) m (p_fancy st) (p_dataset st) (p_extras st))
  | OFancy => Ok (mkPArgs (p_expdir st) (p_mode st) (p_model st) (Some v) (p_dataset st) (p_extras st))
  | ODataset => Ok (mkPArgs (p_expdir st) (p_mode st) (p_model st) (p_fancy st) v (p_extras st))
  | OHelp => Err USAGE_EXIT   (** never reached: [consume] runs the help action *)
  end.

(** The one positional [expdir]; a second positional is an extra. *)
Definition positional (s : string) (st : PArgs) : PArgs :=
  match p_expdir st with
  | None => mkPArgs (Some s) (p_mode st) (p_model st) (p_fancy st) (p_dataset st) (p_extras st)
  | Some _ => mkPArgs (p_expdir st) (p_mode st) (p_model st) (p_fancy st) (p_dataset st) true
  end.

Definition set_extra (st : PArgs) : PArgs :=
  mkPArgs (p_expdir st) (p_mode st) (p_model st) (p_fancy st) (p_dataset st) true.

Definition is_help (o : Opt) : bool := match o with OHelp => true | _ => false end.

(** [too few arguments] and [unrecognized arguments]. *)
Definition finish (st : PArgs) : result Args :=
  match p_expdir st with
  | None => Err USAGE_EXIT
  | Some d =>
      if p_extras st then Err USAGE_EXIT
      else Ok (mkArgs d (p_mode st) (p_model st) (p_fancy st) (p_dataset st))
  end.

(** [args = parser.parse_args()] (src/rnnlm.py:25). *)
Definition parse_args (argv : list string) : result Args :=
  items ← classify_all option_strings argv;
  st ← consume is_help set_opt positional (fun _ => set_extra) id items pargs0;
  finish st.

(** ** Writing a command line *)

Definition mode_str (m : Mode) : string :=
  match m with Corpus.Train => "train" | Debug => "debug" | EvalMode => "eval" end.

Definition model_str (k : ModelKind) : string :=
  match k with Multi => "multi" | Bias => "bias" end.

(** The command line that sets every option explicitly. *)
Definition render (a : Args) : list string :=
  [expdir a; "--mode"; mode_str (mode a); "--model"; model_str (model a); "--dataset"; dataset a] ++
  match fancy_bias a with Some f => ["--fancy_bias"; f] | None => [] end.

(** ** The script *)

(** Experiment directories by path, each a map from file names to
    contents. *)
Abbreviation FS := (gmap string (gmap string string)).

(** [if not os.path.exists(args.expdir): os.mkdir(args.expdir)]
    (src/rnnlm.py:27-28). *)
Definition ensure_dir (d : string) (root : FS) : FS :=
  if bool_decide (is_Some (root !! d)) then root else <[d := ∅]> root.

Section Run.
Variable train_cost : nat -> Batch -> Q.
Variable model_blob : nat -> string.
Variable eval_cost : string -> Batch -> Q.
Variable State : Type.
Variable next_word : string -> nat -> State -> list Q * State.
Variable st0 : State.

(** The whole of src/rnnlm.py run with [argv]: parse, create the
    experiment directory, then [Trainer.main] in it.  [args.model],
    [args.fancy_bias] and [args.dataset] are parsed but never read.  The
    directory created by [os.mkdir] stays when [main] raises; the files
    [main] wrote before raising are not kept. *)
Definition script (argv : list string) (batch_size : nat) (content : string) (root : FS)
    : FS * result Output :=
  match parse_args argv with
  | Err e => (root, Err e)
  | Ok a =>
      let root1 := ensure_dir (expdir a) root in
      match main train_cost model_blob eval_cost State next_word st0 (mode a) batch_size content
              (default ∅ (root1 !! expdir a)) with
      | Ok (out, dir') => (<[expdir a := dir']> root1, Ok out)
      | Err e => (root1, Err e)
      end
  end.

End Run.

(** ** The parser *)

Lemma classify_all_known s rest :
  is_Some (lookup_opt s) ->
  classify_all option_strings (s :: rest) = its ← classify_all option_strings rest; Ok (IOpt (lookup_opt s) s None :: its).
Proof. intros [o H]. apply lookup_opt_Some in H. repeat (inversion H as [|? ? ? H']; subst; [reflexivity|clear H; rename H' into H]). inversion H. Qed.

Ltac classify_simp :=
  repeat first [ rewrite classify_all_plain_cons by first [done | reflexivity]
               | rewrite classify_all_known by (eexists; reflexivity)
               | rewrite classify_all_nil ];
  rewrite ?bind_ret_Ok.

(** A command line with [expdir] and at most [--mode]. *)
Lemma parse_args_default d :
  plain d = true -> parse_args [d] = Ok (mkArgs d Corpus.Train Bias None "all").
Proof. intros Hd. unfold parse_args. classify_simp. reflexivity. Qed.

Lemma parse_args_mode d m :
  plain d = true -> parse_args [d; "--mode"; mode_str m] = Ok (mkArgs d m Bias None "all").
Proof. intros Hd. unfold parse_args. destruct m; classify_simp; reflexivity. Qed.

(** C31: The parser reads back the command line that sets every option,
    and a command line with only [expdir] gives the defaults of
    src/rnnlm.py:19-24 (mode [train], model [bias], [fancy_bias] False,
    dataset [all]), for arguments that do not start with [-]. *)
Theorem parse_args_render a :
  plain (expdir a) = true -> plain (dataset a) = true ->
  (forall f, fancy_bias a = Some f -> plain f = true) ->
  parse_args [expdir a] = Ok (mkArgs (expdir a) Corpus.Train Bias None "all") /\
  parse_args (render a) = Ok a.
Proof.
  destruct a as [e m k f ds]; simpl. intros He Hds Hf. unfold parse_args, render. cbn [expdir mode model fancy_bias dataset app].
  split; [by apply parse_args_default|].
  destruct m, k; (destruct f as [f0|]; [specialize (Hf f0 eq_refl)|]); classify_simp; reflexivity.
Qed.

(** A [--mode] value outside [train], [debug], [eval] makes
    [parse_args] exit with status 2 ([invalid choice], or [expected one
    argument] when the value looks like an option), whatever it is. *)
Theorem invalid_mode_exits d v :
  plain d = true -> v ∉ ["train"; "debug"; "eval"] ->
  parse_args [d; "--mode"; v] = Err (SystemExit 2).
Proof.
  intros Hd Hv. unfold parse_args. classify_simp. simpl.
  case_bool_decide; [subst; reflexivity|].
  destruct (classify option_strings v) as [[o s ex|t|]|e] eqn:E; simpl; try reflexivity.
  - apply classify_arg in E as ->. unfold parse_mode.
    repeat (case_bool_decide; [subst; set_solver|]). reflexivity.
  - apply classify_err in E as ->. reflexivity.
Qed.

(** ** The script *)

Section ScriptFacts.
Variable train_cost : nat -> Batch -> Q.
Variable model_blob : nat -> string.
Variable eval_cost : string -> Batch -> Q.
Variable State : Type.
Variable next_word : string -> nat -> State -> list Q * State.
Variable st0 : State.

Local Abbreviation script := (script train_cost model_blob eval_cost State next_word st0).
Local Abbreviation main := (main train_cost model_blob eval_cost State next_word st0).

Lemma script_parsed argv a bs content root :
  parse_args argv = Ok a ->
  script argv bs content root =
    let root1 := ensure_dir (expdir a) root in
    match main (mode a) bs content (default ∅ (root1 !! expdir a)) with
    | Ok (out, dir') => (<[expdir a := dir']> root1, Ok out)
    | Err e => (root1, Err e)
    end.
Proof. intros H. unfold Script.script. by rewrite H. Qed.

Lemma ensure_dir_present d root dir : root !! d = Some dir -> ensure_dir d root = root.
Proof. intros H. unfold ensure_dir. by rewrite bool_decide_eq_true_2 by eauto. Qed.

(** C32: Running [python rnnlm.py d] and then [python rnnlm.py d --mode
    eval] on a corpus that keeps a training record: the first run creates
    [d] if needed, trains, and leaves the checkpoint of iteration 799000
    in [d/model.bin]; the second finds it and ends without an exception,
    leaving the directories as they were. *)
Theorem script_train_then_eval d bs content root us ts :
  plain d = true -> (0 < bs)%nat -> ReadData Corpus.Train content DEFAULT_LIMIT = Ok (us, ts) -> us <> [] ->
  exists evs root1 dir out,
    script [d] bs content root = (root1, Ok (TrainOut evs)) /\
    root1 !! d = Some dir /\ dir !! MODEL_PATH = Some (model_blob last_checkpoint) /\
    script [d; "--mode"; "eval"] bs content root1 = (root1, Ok (EvalOut out)).
Proof.
  intros Hd Hbs Er Hus. rewrite (script_parsed _ _ _ _ _ (parse_args_default d Hd)). cbn [expdir mode].
  destruct (main_train_total train_cost model_blob eval_cost State next_word st0 bs content
              (default ∅ (ensure_dir d root !! d)) us ts Hbs Er Hus) as (evs & dir & Hm).
  rewrite Hm. destruct (main_eval_after_train train_cost model_blob eval_cost State next_word st0
                          _ _ _ _ _ Hbs Hm) as (_ & Hck & _ & _ & _ & out & _ & _ & _ & He).
  exists evs, (<[d := dir]> (ensure_dir d root)), dir, out. split_and!; [done|by rewrite lookup_insert_eq|done|].
  rewrite (script_parsed _ _ _ _ _ (parse_args_mode d EvalMode Hd)). cbn [expdir mode].
  rewrite (ensure_dir_present d _ dir) by (by rewrite lookup_insert_eq). rewrite lookup_insert_eq. simpl.
  by rewrite He, insert_insert_eq.
Qed.

(** C33: In a directory that does not exist yet, [eval] and [debug]
    mode create it with [os.mkdir] and then raise [IOError] at
    [Vocab.Load] (src/rnnlm.py:27-28,73), once the corpus has been read;
    the empty directory stays behind. *)
Theorem script_fresh_dir_no_vocab d m bs content root us ts :
  plain d = true -> m <> Corpus.Train -> root !! d = None ->
  ReadData m content DEFAULT_LIMIT = Ok (us, ts) ->
  script [d; "--mode"; mode_str m] bs content root = (<[d := ∅]> root, Err IOError).
Proof.
  intros Hd Hm Hroot Er. rewrite (script_parsed _ _ _ _ _ (parse_args_mode d m Hd)). cbn [expdir mode].
  unfold ensure_dir. rewrite bool_decide_eq_false_2 by (rewrite Hroot; by intros [? ?]).
  rewrite lookup_insert_eq. simpl. unfold Trainer.main, setup. rewrite Er, bind_ret_Ok. cbv beta iota.
  destruct (AddDataSource_fresh MAX_LEN bs true us ts) as [ds ->]. rewrite bind_ret_Ok.
  by destruct m.
Qed.

End ScriptFacts.

(** ** Witnesses *)

Lemma parse_args_render_witness :
  plain "exp" = true /\ plain "all" = true /\
  parse_args ["exp"] = Ok (mkArgs "exp" Corpus.Train Bias None "all") /\
  parse_args (render (mkArgs "exp" EvalMode Multi (Some "1") "all")) = Ok (mkArgs "exp" EvalMode Multi (Some "1") "all").
Proof.
  split; [reflexivity|]. split; [reflexivity|].
  apply (parse_args_render (mkArgs "exp" EvalMode Multi (Some "1") "all"));
    [reflexivity|reflexivity|intros f [= <-]; reflexivity].
Defined.

Lemma invalid_mode_exits_witness :
  ("test" ∉ ["train"; "debug"; "eval"]) /\ parse_args ["exp"; "--mode"; "test"] = Err (SystemExit 2).
Proof.
  assert (Hv : "test" ∉ ["train"; "debug"; "eval"]) by (apply (bool_decide_unpack _); vm_compute; exact I).
  split; [exact Hv|]. exact (invalid_mode_exits "exp" "test" eq_refl Hv).
Defined.

(** The sample corpus, trained on and then evaluated in directory
    [exp] of an empty file system. *)
Lemma script_train_then_eval_witness :
  exists us ts, ReadData Corpus.Train (sample_corpus 30) DEFAULT_LIMIT = Ok (us, ts) /\ us <> [] /\
  exists evs root1 dir out,
    script (fun _ _ => 0%Q) (fun _ => "ckpt") (fun _ _ => 0%Q) unit (fun _ _ st => ([], st)) tt
      ["exp"] 3 (sample_corpus 30) ∅ = (root1, Ok (TrainOut evs)) /\
    root1 !! "exp" = Some dir /\ dir !! MODEL_PATH = Some "ckpt" /\
    script (fun _ _ => 0%Q) (fun _ => "ckpt") (fun _ _ => 0%Q) unit (fun _ _ st => ([], st)) tt
      ["exp"; "--mode"; "eval"] 3 (sample_corpus 30) root1 = (root1, Ok (EvalOut out)).
Proof.
  refine (ex_intro _ ?[us] (ex_intro _ ?[ts] _)).
  assert (Er : ReadData Corpus.Train (sample_corpus 30) DEFAULT_LIMIT = Ok (?us, ?ts))
    by (vm_compute; reflexivity).
  match type of Er with _ = Ok (?u, _) => assert (Hus : u <> []) by (vm_compute; discriminate) end.
  split; [exact Er|]. split; [exact Hus|].
  exact (script_train_then_eval (fun _ _ => 0%Q) (fun _ => "ckpt") (fun _ _ => 0%Q) unit
           (fun _ _ st => ([], st)) tt "exp" 3 (sample_corpus 30) ∅ _ _ eq_refl ltac:(lia) Er Hus).
Defined.

Lemma script_fresh_dir_no_vocab_witness :
  exists us ts, ReadData EvalMode (sample_corpus 30) DEFAULT_LIMIT = Ok (us, ts) /\
    script (fun _ _ => 0%Q) (fun _ => "ckpt") (fun _ _ => 0%Q) unit (fun _ _ st => ([], st)) tt
      ["exp"; "--mode"; mode_str EvalMode] 3 (sample_corpus 30) ∅ = (<["exp" := ∅]> ∅, Err IOError).
Proof.
  refine (ex_intro _ ?[us] (ex_intro _ ?[ts] _)).
  assert (Er : ReadData EvalMode (sample_corpus 30) DEFAULT_LIMIT = Ok (?us, ?ts)) by (vm_compute; reflexivity).
  split; [exact Er|].
  exact (script_fresh_dir_no_vocab (fun _ _ => 0%Q) (fun _ => "ckpt") (fun _ _ => 0%Q) unit
           (fun _ _ st => ([], st)) tt "exp" EvalMode 3 (sample_corpus 30) ∅ _ _ eq_refl
           ltac:(discriminate) eq_refl Er).
Defined.

End Script.
