(* ===== verification/Cluster.v ===== *)
(** * The distributed coordinator

    [main] of src/distrib.py:32-157 as a labelled transition system.  The
    state is the shared experiment directory (a [gmap] from file names to
    entries), the global step variable hosted by the parameter servers,
    whether the chief has initialized the variables, and the program
    counter of every process.  An event names the process that moves
    (interleavings are arbitrary).  A training step is not atomic: the
    worker pulls a batch and enters [sess.run] ([EvTrain]); the
    increment of [global_step] by [train_op] ([EvInc]) and the read of
    [global_step] it fetches ([EvFetch]) are two further events, in
    either order, between which other workers may run; the step ends
    with the second of them.  The supervisor's
    periodic checkpoint ([save_model_secs=900]), the stop signal
    ([sv.should_stop()]) and worker crashes with restart are events too.
    [restarts] and [trains] are ghost counters for the theorems. *)

From S2P Require Import Prelude PyStr Corpus Vocab Batcher.
From Stdlib Require Import Ascii.
Import PyStr Corpus Vocab Batcher.

Module Cluster.

(** ** Data *)

(** An entry of the experiment directory. *)
Inductive entry :=
| File (content : string)
| Dir
| Ckpt (step : Z).

Definition WORD_VOCAB_PATH : string := "word_vocab.pickle".
Definition USER_VOCAB_PATH : string := "username_vocab.pickle".
Definition READY_PATH : string := "READY".
Definition PARAMS_PATH : string := "params.json".
Definition CKPT_PATH : string := "model.ckpt".

(** The loop bound of src/distrib.py:133. *)
Definition MAX_STEPS : Z := 1000000.

(** The fields of [params] the code reads (src/distrib.py:53,75,98). *)
Record Params := mkParams { p_max_len : nat; p_batch_size : nat; p_model : string }.

(** Where a worker is in one [sess.run([model.cost, train_op,
    global_step])] (src/distrib.py:148-149). *)
Inductive Flight :=
| Idle                  (** at the loop test (line 133) *)
| Pending               (** in [sess.run], nothing done yet *)
| Fetched (obs : Z)     (** [global_step] read, increment still to come *)
| Incremented.          (** increment done, read still to come *)

(** The program counter of one process. *)
Inductive Pc :=
| Start                                (** entering [main] *)
| PsSetup                              (** ps task 0, before reading the corpus *)
| PsSavedWord (uv : Vocab)             (** after [vocab.Save] *)
| PsSavedUser                          (** after [username_vocab.Save] *)
| PsJoin                               (** blocked in [server.join()] *)
| WStart                               (** worker, before reading its shard *)
| WWaiting (ds : Dataset)              (** polling for [READY] *)
| WReady (ds : Dataset)                (** [READY] seen *)
| WTraining (ds : Dataset) (v uv : Vocab) (step : Z) (fl : Flight)
                                       (** in the training loop; [step]: the value
                                           of the Python variable [step] *)
| WStopped                             (** after [sv.stop()] *)
| Crashed (e : exn).

Record Proc := mkProc { job_name : string; task_index : nat; pc : Pc }.

Record Cluster := mkCluster {
  fs : gmap string entry;
  global_step : Z;
  var_init : bool;
  procs : list Proc;
  restarts : nat;
  trains : nat
}.

Inductive Event :=
| EvStep (i : nat)                 (** process [i] runs its next statement *)
| EvTrain (i : nat)                (** worker [i] pulls a batch and enters [sess.run] *)
| EvInc (i : nat)                  (** [train_op] of worker [i] increments [global_step] *)
| EvFetch (i : nat)                (** [sess.run] of worker [i] reads [global_step] *)
| EvStop (i : nat)                 (** [sv.should_stop()] holds for worker [i] *)
| EvCheckpoint                     (** the chief's periodic checkpoint *)
| EvRestart (i : nat).             (** worker process [i] crashes and restarts *)

Definition COMMA : ascii := ",".

(** [FLAGS.ps_hosts.split(",")] (src/distrib.py:33-34). *)
Definition parse_hosts (s : string) : list string := py_split_sep COMMA s.

(** [is_chief=(FLAGS.task_index == 0)] (src/distrib.py:117). *)
Definition is_chief (p : Proc) : bool := bool_decide (job_name p = "worker"%string) && (task_index p =? 0).

Definition is_worker (p : Proc) : bool := bool_decide (job_name p = "worker"%string).

Definition ckpt_value (fs : gmap string entry) : Z :=
  match fs !! CKPT_PATH with Some (Ckpt z) => z | _ => 0%Z end.

Definition has_ready (fs : gmap string entry) : bool := bool_decide (is_Some (fs !! READY_PATH)).

Section Run.
(** The training corpus (decompressed), the parameters, what reading
    [FLAGS.params] and copying it into [FLAGS.expdir] gives (its
    contents, or the exception [open], [json.load] or [shutil.copy]
    raises: a missing file, bad JSON, a missing experiment directory),
    and the cluster specification shared by all processes. *)
Variable corpus : string.
Variable params : Params.
Variable params_blob : result string.
Variable ps_hosts worker_hosts : string.

Definition num_workers : nat := length (parse_hosts worker_hosts).

(** [tf.train.Server(cluster, job_name, task_index)] rejects a job that is
    not in the cluster specification or a task index out of range. *)
Definition server_ok (job : string) (task : nat) : bool :=
  (bool_decide (job = "ps"%string) && (task <? length (parse_hosts ps_hosts))) ||
  (bool_decide (job = "worker"%string) && (task <? num_workers)).

(** The vocabularies the leader builds (src/distrib.py:52-58). *)
Definition leader_vocabs : result (Vocab * Vocab) :=
  '(us, ts) ← ReadDataSharded Train None 0 1 corpus;
  Ok (build_vocabs us ts).

(** [Vocab.Load(path)]: an [IOError] when the file is missing. *)
Definition load_file (fs : gmap string entry) (path : string) : result Vocab :=
  match fs !! path with
  | Some (File b) => Load b
  | _ => Err IOError
  end.

(** [models[params.model]] (src/distrib.py:97-98). *)
Definition model_known (name : string) : bool :=
  bool_decide (name = "hyper"%string) || bool_decide (name = "mikolov"%string).

(** The next statement of process [p], run against the directory [fs],
    the global step [gs] and the initialization flag [init]: the new
    program counter and the new shared state. *)
Definition proc_step (p : Proc) (fs : gmap string entry) (gs : Z) (init : bool)
    : option (Pc * gmap string entry * Z * bool) :=
  match pc p with
  | Start =>
      if negb (server_ok (job_name p) (task_index p)) then Some (Crashed ValueError, fs, gs, init)
      else
        match params_blob with
        | Err e => Some (Crashed e, fs, gs, init)
        | Ok blob =>
            let fs' := <[PARAMS_PATH := File blob]> fs in
            if bool_decide (job_name p = "ps"%string) then
              Some (if task_index p =? 0 then PsSetup else PsJoin, fs', gs, init)
            else Some (WStart, fs', gs, init)
        end
  | PsSetup =>
      match leader_vocabs with
      | Ok (v, uv) => Some (PsSavedWord uv, <[WORD_VOCAB_PATH := File (Save v)]> fs, gs, init)
      | Err e => Some (Crashed e, fs, gs, init)
      end
  | PsSavedWord uv => Some (PsSavedUser, <[USER_VOCAB_PATH := File (Save uv)]> fs, gs, init)
  | PsSavedUser =>
      if has_ready fs then Some (Crashed OSError, fs, gs, init)
      else Some (PsJoin, <[READY_PATH := Dir]> fs, gs, init)
  | WStart =>
      match ReadDataSharded Train None (task_index p) num_workers corpus with
      | Ok (us, ts) =>
          match AddDataSource (new_dataset (S (p_max_len params)) (p_batch_size params) true) us ts with
          | Ok ds => Some (WWaiting ds, fs, gs, init)
          | Err e => Some (Crashed e, fs, gs, init)
          end
      | Err e => Some (Crashed e, fs, gs, init)
      end
  | WWaiting ds =>
      if has_ready fs then Some (WReady ds, fs, gs, init) else Some (WWaiting ds, fs, gs, init)
  | WReady ds =>
      match load_file fs WORD_VOCAB_PATH, load_file fs USER_VOCAB_PATH with
      | Ok v, Ok uv =>
          if negb (model_known (p_model params)) then Some (Crashed KeyError, fs, gs, init)
          else if is_chief p then Some (WTraining (Prepare ds v uv) v uv 0 Idle, fs, ckpt_value fs, true)
          else if init then Some (WTraining (Prepare ds v uv) v uv 0 Idle, fs, gs, init)
          else Some (WReady ds, fs, gs, init)
      | Err e, _ => Some (Crashed e, fs, gs, init)
      | _, Err e => Some (Crashed e, fs, gs, init)
      end
  | WTraining ds v uv st Idle =>
      if (st <? MAX_STEPS)%Z then None else Some (WStopped, fs, gs, init)
  | WTraining _ _ _ _ _ | PsJoin | WStopped | Crashed _ => None
  end.

Definition set_pc (c : Cluster) (i : nat) (p : Proc) (q : Pc) : list Proc :=
  <[i := mkProc (job_name p) (task_index p) q]> (procs c).

(** One transition of the cluster. *)
Definition step (c : Cluster) (ev : Event) : option Cluster :=
  match ev with
  | EvStep i =>
      p ← procs c !! i;
      '(q, fs', gs', init') ← proc_step p (fs c) (global_step c) (var_init c);
      Some (mkCluster fs' gs' init' (set_pc c i p q) (restarts c) (trains c))
  | EvTrain i =>
      p ← procs c !! i;
      match pc p with
      | WTraining ds v uv st Idle =>
          if (st <? MAX_STEPS)%Z then
            match GetNextBatch ds with
            | Ok (_, ds') =>
                Some (mkCluster (fs c) (global_step c) (var_init c) (set_pc c i p (WTraining ds' v uv st Pending))
                                (restarts c) (trains c))
            | Err e =>
                Some (mkCluster (fs c) (global_step c) (var_init c) (set_pc c i p (Crashed e))
                                (restarts c) (trains c))
            end
          else None
      | _ => None
      end
  | EvInc i =>
      p ← procs c !! i;
      match pc p with
      | WTraining ds v uv st Pending =>
          Some (mkCluster (fs c) (global_step c + 1) (var_init c) (set_pc c i p (WTraining ds v uv st Incremented))
                          (restarts c) (S (trains c)))
      | WTraining ds v uv _ (Fetched obs) =>
          Some (mkCluster (fs c) (global_step c + 1) (var_init c) (set_pc c i p (WTraining ds v uv obs Idle))
                          (restarts c) (S (trains c)))
      | _ => None
      end
  | EvFetch i =>
      p ← procs c !! i;
      match pc p with
      | WTraining ds v uv st Pending =>
          Some (mkCluster (fs c) (global_step c) (var_init c)
                          (set_pc c i p (WTraining ds v uv st (Fetched (global_step c)))) (restarts c) (trains c))
      | WTraining ds v uv _ Incremented =>
          Some (mkCluster (fs c) (global_step c) (var_init c)
                          (set_pc c i p (WTraining ds v uv (global_step c) Idle)) (restarts c) (trains c))
      | _ => None
      end
  | EvStop i =>
      p ← procs c !! i;
      match pc p with
      | WTraining _ _ _ _ Idle =>
          Some (mkCluster (fs c) (global_step c) (var_init c) (set_pc c i p WStopped)
                          (restarts c) (trains c))
      | _ => None
      end
  | EvCheckpoint =>
      if existsb (fun p => is_chief p && match pc p with WTraining _ _ _ _ _ => true | _ => false end)
                 (procs c)
      then Some (mkCluster (<[CKPT_PATH := Ckpt (global_step c)]> (fs c)) (global_step c)
                           (var_init c) (procs c) (restarts c) (trains c))
      else None
  | EvRestart i =>
      p ← procs c !! i;
      if is_worker p then
        Some (mkCluster (fs c) (global_step c) (var_init c) (set_pc c i p Start)
                        (S (restarts c)) (trains c))
      else None
  end.

(** Runs of the cluster. *)
Fixpoint run (c : Cluster) (evs : list Event) : option Cluster :=
  match evs with
  | [] => Some c
  | ev :: evs' => c' ← step c ev; run c' evs'
  end.

(** The processes named by [(job_name, task_index)], all at [Start], in an
    experiment directory [fs0]. *)
Definition init_cluster (fs0 : gmap string entry) (tasks : list (string * nat)) : Cluster :=
  mkCluster fs0 0 false (map (fun jt => mkProc jt.1 jt.2 Start) tasks) 0 0.

Inductive reachable (fs0 : gmap string entry) (tasks : list (string * nat)) : Cluster -> Prop :=
| reach_init : reachable fs0 tasks (init_cluster fs0 tasks)
| reach_step c ev c' : reachable fs0 tasks c -> step c ev = Some c' -> reachable fs0 tasks c'.

End Run.

(** A process whose program counter belongs to the parameter-server
    branch runs as a ps task; one in the worker branch as a worker. *)
Definition role_ok (p : Proc) : Prop :=
  match pc p with
  | PsSetup | PsSavedWord _ | PsSavedUser | PsJoin => is_worker p = false
  | WStart | WWaiting _ | WReady _ | WTraining _ _ _ _ _ | WStopped => is_worker p = true
  | Start | Crashed _ => True
  end.

(** What worker [p] may still add to [global_step] once every value it
    reads is at least [MAX_STEPS]: a worker before the loop, or at the
    loop test with a step below the bound, runs one more step; one in
    [sess.run] still owes its increment, and one more step when the
    value it already read is below the bound. *)
Definition pot (p : Proc) : nat :=
  if is_worker p then
    match pc p with
    | Start | WStart | WWaiting _ | WReady _ | WTraining _ _ _ _ Pending => 1
    | WTraining _ _ _ st Idle => if (st <? MAX_STEPS)%Z then 1 else 0
    | WTraining _ _ _ _ (Fetched obs) => if (obs <? MAX_STEPS)%Z then 2 else 1
    | _ => 0
    end
  else 0.

Definition sum_pot (ps : list Proc) : nat := sum_list_with pot ps.

(** ** Error sources *)

Lemma ReadDataSharded_err mode lim w n content e :
  ReadDataSharded mode lim w n content = Err e -> e = ValueError \/ e = ZeroDivisionError.
Proof.
  unfold ReadDataSharded. destruct (mapM parse_line _) as [ps|e'] eqn:E; simpl.
  - destruct (n =? 0); [intros [= <-]; by right | done].
  - intros [= <-]. left. by eapply mapM_parse_line_err.
Qed.

Lemma AddDataSource_err ds us ts e : AddDataSource ds us ts = Err e -> e = UsageError.
Proof.
  unfold AddDataSource. destruct (rows ds); [by intros [= <-]|].
  destruct (preshuffle ds); [by destruct (shuffle _ _)|done].
Qed.

Lemma GetNextBatch_err ds e : GetNextBatch ds = Err e -> e = UsageError.
Proof.
  unfold GetNextBatch. destruct (rows ds); [|by intros [= <-]].
  by destruct (take_rows _ _ _) as [[? [[? ?] ?]]|]; [|intros [= <-]].
Qed.

(** ** The coordination invariant *)

(** The paths of the experiment directory are distinct. *)
Ltac path_neq := unfold WORD_VOCAB_PATH, USER_VOCAB_PATH, READY_PATH, PARAMS_PATH, CKPT_PATH; discriminate.

Section Coordination.
Variable corpus : string.
Variable params : Params.
Variable params_blob : result string.
Variable ps_hosts worker_hosts : string.

Local Abbreviation leader := (leader_vocabs corpus).
Local Abbreviation pstep := (proc_step corpus params params_blob ps_hosts worker_hosts).
Local Abbreviation cstep := (step corpus params params_blob ps_hosts worker_hosts).

(** A vocabulary file holds the leader's vocabulary, saved. *)
Definition vocab_entry_ok (fs : gmap string entry) (path : string) (sel : Vocab * Vocab -> Vocab) : Prop :=
  forall e, fs !! path = Some e -> exists vs, leader = Ok vs /\ e = File (Save (sel vs)).

Definition fs_ok (fs : gmap string entry) : Prop :=
  vocab_entry_ok fs WORD_VOCAB_PATH fst /\ vocab_entry_ok fs USER_VOCAB_PATH snd /\
  (has_ready fs = true -> is_Some (fs !! WORD_VOCAB_PATH) /\ is_Some (fs !! USER_VOCAB_PATH)).

(** What each program counter knows about the directory. *)
Definition pc_ok (fs : gmap string entry) (q : Pc) : Prop :=
  match q with
  | PsSavedWord uv => (exists v, leader = Ok (v, uv)) /\ is_Some (fs !! WORD_VOCAB_PATH)
  | PsSavedUser => is_Some (fs !! WORD_VOCAB_PATH) /\ is_Some (fs !! USER_VOCAB_PATH)
  | WReady _ => has_ready fs = true
  | WTraining _ v uv _ _ => has_ready fs = true /\ leader = Ok (v, uv)
  | _ => True
  end.

Definition coord_inv (c : Cluster) : Prop :=
  fs_ok (fs c) /\ Forall (fun p => pc_ok (fs c) (pc p)) (procs c).

(** Entries of the vocabulary files and of [READY] are never removed. *)
Definition fs_grows (fs fs' : gmap string entry) : Prop :=
  forall k, k = WORD_VOCAB_PATH \/ k = USER_VOCAB_PATH \/ k = READY_PATH ->
  is_Some (fs !! k) -> is_Some (fs' !! k).

Lemma fs_grows_refl fs : fs_grows fs fs.
Proof. by intros k _ H. Qed.

Lemma fs_grows_insert fs k e : fs_grows fs (<[k := e]> fs).
Proof. intros k' _ H. destruct (decide (k = k')) as [->|]; [by rewrite lookup_insert_eq|by rewrite lookup_insert_ne]. Qed.

Lemma has_ready_grows fs fs' : fs_grows fs fs' -> has_ready fs = true -> has_ready fs' = true.
Proof. unfold has_ready. rewrite !bool_decide_eq_true. intros H. apply H. by right; right. Qed.

Lemma pc_ok_mono fs fs' q : fs_grows fs fs' -> pc_ok fs q -> pc_ok fs' q.
Proof.
  intros Hg. destruct q; simpl; try done.
  - intros [? ?]. split; [done|]. apply Hg; [by left|done].
  - intros [? ?]. split; apply Hg; try done; [by left|by right; left].
  - by apply has_ready_grows.
  - intros [? ?]. split; [by eapply has_ready_grows|done].
Qed.

#[local] Hint Resolve fs_grows_refl fs_grows_insert : calm.

(** Inserting a key other than the three watched ones. *)
Lemma fs_ok_insert_other fs k e :
  k <> WORD_VOCAB_PATH -> k <> USER_VOCAB_PATH -> k <> READY_PATH ->
  fs_ok fs -> fs_ok (<[k := e]> fs).
Proof.
  intros H1 H2 H3 (Hw & Hu & Hr). unfold fs_ok, vocab_entry_ok, has_ready in *.
  rewrite !lookup_insert_ne by done. done.
Qed.

(** With [READY] present, both loads succeed and return the leader's
    vocabularies. *)
Lemma load_files_ok fs :
  fs_ok fs -> has_ready fs = true ->
  exists v uv, leader = Ok (v, uv) /\ load_file fs WORD_VOCAB_PATH = Ok v /\
               load_file fs USER_VOCAB_PATH = Ok uv.
Proof.
  intros (Hw & Hu & Hr) Hready. destruct (Hr Hready) as [[ew Ew] [eu Eu]].
  destruct (Hw ew Ew) as ([v uv] & Hl & ->). destruct (Hu eu Eu) as ([v' uv'] & Hl' & ->).
  rewrite Hl in Hl'. injection Hl' as <- <-. exists v, uv. unfold load_file.
  rewrite Ew, Eu. simpl. by rewrite !Save_roundtrip.
Qed.

(** The parameter server's three writes keep the invariant. *)
Lemma fs_ok_save_word fs v uv :
  leader = Ok (v, uv) -> fs_ok fs -> fs_ok (<[WORD_VOCAB_PATH := File (Save v)]> fs).
Proof.
  intros Hl (Hw & Hu & Hr). unfold fs_ok, vocab_entry_ok, has_ready in *.
  rewrite lookup_insert_eq, !(lookup_insert_ne _ WORD_VOCAB_PATH) by path_neq.
  split; [intros e [= <-]; by exists (v, uv)|]. split; [done|]. intros H. by destruct (Hr H).
Qed.

Lemma fs_ok_save_user fs v uv :
  leader = Ok (v, uv) -> fs_ok fs -> fs_ok (<[USER_VOCAB_PATH := File (Save uv)]> fs).
Proof.
  intros Hl (Hw & Hu & Hr). unfold fs_ok, vocab_entry_ok, has_ready in *.
  rewrite lookup_insert_eq, !(lookup_insert_ne _ USER_VOCAB_PATH) by path_neq.
  split; [done|]. split; [intros e [= <-]; by exists (v, uv)|]. intros H. by destruct (Hr H).
Qed.

Lemma fs_ok_mkdir_ready fs :
  is_Some (fs !! WORD_VOCAB_PATH) -> is_Some (fs !! USER_VOCAB_PATH) ->
  fs_ok fs -> fs_ok (<[READY_PATH := Dir]> fs).
Proof.
  intros Hw' Hu' (Hw & Hu & Hr). unfold fs_ok, vocab_entry_ok, has_ready in *.
  by rewrite !(lookup_insert_ne _ READY_PATH) by path_neq.
Qed.

Lemma proc_step_ps p fs gs init q fs' gs' init' :
  pc p = PsSetup \/ pc p = PsSavedUser \/ (exists uv, pc p = PsSavedWord uv) ->
  fs_ok fs -> pc_ok fs (pc p) -> pstep p fs gs init = Some (q, fs', gs', init') ->
  fs_ok fs' /\ fs_grows fs fs' /\ pc_ok fs' q.
Proof.
  unfold proc_step. intros [Ep | [Ep | [uv Ep]]] Hfs Hpc; rewrite Ep in *; simpl in Hpc.
  - destruct leader as [[v uv]|e] eqn:El; intros [= <- <- <- <-].
    + split; [by eapply fs_ok_save_word|]. split; [auto with calm|]. simpl.
      split; [by exists v|]. by rewrite lookup_insert_eq.
    + split; [done|]. split; [auto with calm|]. done.
  - destruct (has_ready fs); intros [= <- <- <- <-].
    { split; [done|]. split; [auto with calm|]. done. }
    split; [destruct Hpc; by apply fs_ok_mkdir_ready|]. split; [auto with calm|done].
  - intros [= <- <- <- <-]. destruct Hpc as [[v Hl] Hw].
    split; [by eapply fs_ok_save_user|]. split; [auto with calm|]. simpl.
    rewrite lookup_insert_eq, lookup_insert_ne by path_neq. done.
Qed.

Lemma proc_step_start p fs gs init q fs' gs' init' :
  pc p = Start -> fs_ok fs -> pstep p fs gs init = Some (q, fs', gs', init') ->
  fs_ok fs' /\ fs_grows fs fs' /\ pc_ok fs' q.
Proof.
  unfold proc_step. intros -> Hfs.
  destruct (negb _); [intros [= <- <- <- <-]; split; [done|split; [auto with calm|done]]|].
  destruct params_blob as [blob|e]; [|intros [= <- <- <- <-]; split; [done|split; [auto with calm|done]]].
  assert (fs_ok (<[PARAMS_PATH := File blob]> fs)) by (apply fs_ok_insert_other; by try path_neq).
  by case_match; [case_match|]; intros [= <- <- <- <-]; (split; [done|split; [auto with calm|done]]).
Qed.

Lemma proc_step_worker p fs gs init q fs' gs' init' :
  (pc p = WStart \/ (exists ds, pc p = WWaiting ds \/ pc p = WReady ds) \/
   exists ds v uv st fl, pc p = WTraining ds v uv st fl) ->
  fs_ok fs -> pc_ok fs (pc p) -> pstep p fs gs init = Some (q, fs', gs', init') ->
  fs' = fs /\ pc_ok fs q.
Proof.
  unfold proc_step. intros [Ep | [[ds [Ep | Ep]] | (ds & v & uv & st & fl & Ep)]] Hfs Hpc; rewrite Ep in *.
  - by repeat case_match; intros [= <- <- <- <-].
  - by destruct (has_ready fs) eqn:Hr; intros [= <- <- <- <-].
  - simpl in Hpc. destruct (load_files_ok fs Hfs Hpc) as (v & uv & Hl & -> & ->).
    destruct (negb _); [by intros [= <- <- <- <-]|].
    by repeat case_match; intros [= <- <- <- <-].
  - by destruct fl; [destruct (st <? MAX_STEPS)%Z; [|intros [= <- <- <- <-]]|..].
Qed.

Lemma proc_step_inv p fs gs init q fs' gs' init' :
  fs_ok fs -> pc_ok fs (pc p) -> pstep p fs gs init = Some (q, fs', gs', init') ->
  fs_ok fs' /\ fs_grows fs fs' /\ pc_ok fs' q.
Proof.
  intros Hfs Hpc Hs. destruct (pc p) eqn:Ep; try (by unfold proc_step in Hs; rewrite Ep in Hs).
  1: by eapply proc_step_start.
  1-3: eapply proc_step_ps; [rewrite Ep; eauto|exact Hfs|rewrite Ep; exact Hpc|exact Hs].
  all: edestruct proc_step_worker as [-> ?]; [|exact Hfs|rewrite Ep; exact Hpc|exact Hs|];
    [rewrite Ep; eauto 10|split; [done|split; [auto with calm|done]]].
Qed.

Lemma coord_inv_set_pc c i p q fs' gs' init' r t :
  coord_inv c -> procs c !! i = Some p -> fs_ok fs' -> fs_grows (fs c) fs' -> pc_ok fs' q ->
  coord_inv (mkCluster fs' gs' init' (set_pc c i p q) r t).
Proof.
  intros [Hfs Hall] Hi Hfs' Hg Hq. split; [done|]. simpl. unfold set_pc.
  apply Forall_insert; [|done]. eapply Forall_impl; [exact Hall|]. intros. by eapply pc_ok_mono.
Qed.

(** Every transition keeps the coordination invariant. *)
(** A worker in the training loop moving to another point of the loop,
    or crashing. *)
Lemma coord_inv_training c i p ds v uv st fl q gs' r t :
  coord_inv c -> procs c !! i = Some p -> pc p = WTraining ds v uv st fl ->
  (exists ds' st' fl', q = WTraining ds' v uv st' fl') \/ q = WStopped \/ (exists e, q = Crashed e) ->
  coord_inv (mkCluster (fs c) gs' (var_init c) (set_pc c i p q) r t).
Proof.
  intros Hinv Hi Ep Hq. pose proof Hinv as [Hfs Hall]. pose proof (Forall_lookup_1 _ _ _ _ Hall Hi) as Hp.
  cbn beta in Hp. rewrite Ep in Hp. eapply coord_inv_set_pc; eauto with calm.
  by destruct Hq as [(? & ? & ? & ->) | [-> | [? ->]]].
Qed.

(** Every transition keeps the coordination invariant. *)
Lemma step_coord_inv c ev c' : coord_inv c -> cstep c ev = Some c' -> coord_inv c'.
Proof.
  intros Hinv. pose proof Hinv as [Hfs Hall]. destruct ev as [i|i|i|i|i| |i]; simpl;
    [|(destruct (procs c !! i) as [p|] eqn:Hi; [simpl|done]);
      destruct (pc p) as [| | | | | | | |ds v uv st [| |o|]| |] eqn:Ep; try done;
      repeat case_match; intros [= <-]; eapply coord_inv_training; eauto 10..| |].
  - destruct (procs c !! i) as [p|] eqn:Hi; [simpl|done].
    destruct (proc_step _ _ _ _ _ _ _ _ _) as [[[[q fs'] gs'] init']|] eqn:Hs; [simpl|done].
    intros [= <-]. pose proof (Forall_lookup_1 _ _ _ _ Hall Hi) as Hp.
    destruct (proc_step_inv _ _ _ _ _ _ _ _ Hfs Hp Hs) as (? & ? & ?).
    by eapply coord_inv_set_pc.
  - case_match; [|done]. intros [= <-]. split; simpl.
    + apply fs_ok_insert_other; by try path_neq.
    + eapply Forall_impl; [exact Hall|]. intros. by eapply pc_ok_mono; [apply fs_grows_insert|].
  - destruct (procs c !! i) as [p|] eqn:Hi; [simpl|done].
    case_match; [|done]. intros [= <-]. eapply coord_inv_set_pc; eauto with calm; done.
Qed.

End Coordination.

(** ** Roles *)

Lemma server_ok_job ps_hosts worker_hosts job task :
  server_ok ps_hosts worker_hosts job task = true -> job = "ps"%string \/ job = "worker"%string.
Proof.
  unfold server_ok. intros [[H _]%andb_true_iff | [H _]%andb_true_iff]%orb_true_iff;
    apply bool_decide_eq_true in H; auto.
Qed.

Lemma proc_step_role corpus params params_blob ps_hosts worker_hosts p fs gs init q fs' gs' init' :
  role_ok p ->
  proc_step corpus params params_blob ps_hosts worker_hosts p fs gs init = Some (q, fs', gs', init') ->
  role_ok (mkProc (job_name p) (task_index p) q).
Proof.
  unfold proc_step, role_ok, is_worker. simpl. destruct (pc p); intros Hr; try done;
    [|by repeat case_match; intros ?; simplify_eq..].
  destruct (negb _) eqn:Hs; [by intros [= <- <- <- <-]|].
  destruct params_blob; [|by intros [= <- <- <- <-]].
  apply negb_false_iff, server_ok_job in Hs.
  destruct (bool_decide (job_name p = "ps"%string)) eqn:Hps; intros [= <- <- <- <-].
  - apply bool_decide_eq_true in Hps. rewrite Hps, bool_decide_eq_false_2 by discriminate. by destruct (task_index p =? 0).
  - apply bool_decide_eq_false in Hps. destruct Hs as [? | ->]; [done|by rewrite bool_decide_eq_true_2].
Qed.

Lemma step_role corpus params params_blob ps_hosts worker_hosts c ev c' :
  Forall role_ok (procs c) -> step corpus params params_blob ps_hosts worker_hosts c ev = Some c' ->
  Forall role_ok (procs c').
Proof.
  intros Hall. destruct ev as [i|i|i|i|i| |i]; simpl; [| | | | |by case_match; intros [= <-]|];
    (destruct (procs c !! i) as [p|] eqn:Hi; [simpl|done]);
    pose proof (Forall_lookup_1 _ _ _ _ Hall Hi) as Hp.
  1: { destruct (proc_step _ _ _ _ _ _ _ _ _) as [[[[q fs'] gs'] init']|] eqn:Hs; [simpl|done].
       intros [= <-]. apply Forall_insert; [done|]. by eapply proc_step_role. }
  all: unfold role_ok in Hp; repeat case_match; try done; intros [= <-]; apply Forall_insert; try done;
    unfold role_ok; simpl; congruence.
Qed.

(** ** Each worker holds its own shard *)

Section Shards.
Variable corpus : string.
Variable params : Params.
Variable params_blob : result string.
Variable ps_hosts worker_hosts : string.

(** The records a worker read: its shard of the training partition. *)
Definition my_shard (p : Proc) : result (list string * list (list string)) :=
  ReadDataSharded Train None (task_index p) (num_workers worker_hosts) corpus.

(** The dataset of a worker holds its shard, buffered in some order, and
    after [Prepare] the prepared rows of its shard in some order. *)
Definition shard_ok (p : Proc) : Prop :=
  match pc p with
  | WWaiting ds | WReady ds =>
      exists us ts, my_shard p = Ok (us, ts) /\ rows ds = None /\ raw ds ≡ₚ zip us ts /\
                    max_len ds = S (p_max_len params)
  | WTraining ds v uv _ _ =>
      exists us ts rs, my_shard p = Ok (us, ts) /\ rows ds = Some rs /\
                       rs ≡ₚ map (prepare_row v uv (S (p_max_len params))) (zip us ts)
  | _ => True
  end.

Lemma proc_step_shard p fs gs init q fs' gs' init' :
  shard_ok p -> proc_step corpus params params_blob ps_hosts worker_hosts p fs gs init = Some (q, fs', gs', init') ->
  shard_ok (mkProc (job_name p) (task_index p) q).
Proof.
  unfold shard_ok, my_shard, proc_step. simpl. destruct (pc p); intros Hok;
    try (repeat case_match; intros ?; simplify_eq; done).
  - destruct (ReadDataSharded _ _ _ _ _) as [[us ts]|e] eqn:Er; [|by intros [= <- <- <- <-]].
    destruct (AddDataSource _ us ts) as [ds|e] eqn:Ea; intros [= <- <- <- <-]; [|done].
    pose proof (AddDataSource_buffer (new_dataset (S (p_max_len params)) (p_batch_size params) true) us ts) as Hb.
    rewrite Ea in Hb. destruct Hb as (_ & Hraw & Hrows). exists us, ts. split_and!; [done|done| |].
    + by rewrite Hraw.
    + by apply AddDataSource_max_len in Ea.
  - destruct Hok as (us & ts & Hs & Hrows & Hraw & HL).
    repeat case_match; intros [= <- <- <- <-]; try done; try (exists us, ts; split_and!; done);
      (exists us, ts; eexists; split; [done|]; split; [reflexivity|];
       rewrite HL; by apply Permutation_map).
Qed.

Lemma step_shard c ev c' :
  Forall shard_ok (procs c) -> step corpus params params_blob ps_hosts worker_hosts c ev = Some c' ->
  Forall shard_ok (procs c').
Proof.
  intros Hall. destruct ev as [i|i|i|i|i| |i]; simpl; [| | | | |by case_match; intros [= <-]|];
    (destruct (procs c !! i) as [p|] eqn:Hi; [simpl|done]);
    pose proof (Forall_lookup_1 _ _ _ _ Hall Hi) as Hp.
  1: { destruct (proc_step _ _ _ _ _ _ _ _ _) as [[[[q fs'] gs'] init']|] eqn:Hs; [simpl|done].
       intros [= <-]. apply Forall_insert; [done|]. by eapply proc_step_shard. }
  1: { unfold shard_ok in Hp. destruct (pc p) as [| | | | | | | |ds v uv st []| |]; try done.
       case_match; [|done].
       destruct (GetNextBatch ds) as [[b ds']|e] eqn:Eb; intros [= <-]; apply Forall_insert; try done.
       destruct Hp as (us & ts & rs & Hs & Hrs & Hp).
       destruct (GetNextBatch_rows ds rs b ds' Hrs Eb) as (_ & rs' & _ & _ & _ & Hrs' & Hp' & _).
       exists us, ts, rs'. split_and!; [done|done|by rewrite Hp']. }
  all: unfold shard_ok in Hp; repeat case_match; try done; intros [= <-]; apply Forall_insert; try done;
    unfold shard_ok; simpl; try done; by rewrite <- ?Hp.
Qed.

End Shards.

(** ** The step budget *)

Lemma ckpt_value_insert_ne fs k e : k <> CKPT_PATH -> ckpt_value (<[k := e]> fs) = ckpt_value fs.
Proof. intros. unfold ckpt_value. by rewrite lookup_insert_ne. Qed.

Lemma pot_le p : pot p <= if is_worker p then 2 else 0.
Proof. unfold pot. destruct (is_worker p); [|done]. repeat case_match; lia. Qed.

Lemma sum_pot_le ps : sum_pot ps <= 2 * count_true is_worker ps.
Proof. apply sum_list_with_le_count, pot_le. Qed.

Lemma sum_pot_set_pc c i p q :
  procs c !! i = Some p ->
  sum_pot (set_pc c i p q) + pot p = sum_pot (procs c) + pot (mkProc (job_name p) (task_index p) q).
Proof. intros. by apply sum_list_with_insert. Qed.

Lemma count_set_pc (f : Proc -> bool) c i p q :
  procs c !! i = Some p ->
  count_true f (set_pc c i p q) + (if f p then 1 else 0) =
  count_true f (procs c) + (if f (mkProc (job_name p) (task_index p) q) then 1 else 0).
Proof. intros. by apply count_true_insert. Qed.

Lemma count_set_pc_worker c i p q :
  procs c !! i = Some p -> count_true is_worker (set_pc c i p q) = count_true is_worker (procs c).
Proof. intros Hi. pose proof (count_set_pc is_worker c i p q Hi). unfold is_worker in *. simpl in *. lia. Qed.

(** A statement of a process keeps the checkpoint, leaves [global_step]
    alone unless it restores it from the checkpoint, and never raises
    the potential of the process. *)
Lemma proc_step_budget corpus params params_blob ps_hosts worker_hosts p fs gs init q fs' gs' init' :
  proc_step corpus params params_blob ps_hosts worker_hosts p fs gs init = Some (q, fs', gs', init') ->
  ckpt_value fs' = ckpt_value fs /\ (gs' = gs \/ gs' = ckpt_value fs) /\
  pot (mkProc (job_name p) (task_index p) q) <= pot p.
Proof.
  unfold proc_step. destruct (pc p) eqn:Ep; repeat case_match;
    intros [= <- <- <- <-]; (split; [by rewrite ?ckpt_value_insert_ne by path_neq|]);
    (split; [auto|]); unfold pot, is_worker; simpl; rewrite Ep;
    destruct (bool_decide (job_name p = "worker"%string)); simpl; try lia; by case_match.
Qed.

Section StepBound.
Variable corpus : string.
Variable params : Params.
Variable params_blob : result string.
Variable ps_hosts worker_hosts : string.
(** The budget: at least the loop bound. *)
Variable B : Z.
Hypothesis HB : (MAX_STEPS <= B)%Z.

Local Abbreviation cstep := (step corpus params params_blob ps_hosts worker_hosts).

(** [global_step] and the checkpointed step, each plus the potential of
    the workers, stay within the budget plus two per worker and one per
    restart; a checkpoint above the budget is one [global_step] has
    reached. *)
Definition budget_ok (c : Cluster) : Prop :=
  let k := Z.of_nat (sum_pot (procs c)) in
  let room := (B + 2 * Z.of_nat (count_true is_worker (procs c)) + Z.of_nat (restarts c))%Z in
  (global_step c + k <= room)%Z /\ (ckpt_value (fs c) + k <= room)%Z /\
  (ckpt_value (fs c) <= Z.max B (global_step c))%Z.

(** A process moving to [q]: [global_step] grows by what the potential
    loses, or is restored from the checkpoint, or is still below the
    loop bound (then the potential is bounded by the workers). *)
Lemma budget_set_pc c i p q fs' (gs' : Z) init' r t :
  procs c !! i = Some p -> budget_ok c -> ckpt_value fs' = ckpt_value (fs c) -> restarts c <= r ->
  let k' := pot (mkProc (job_name p) (task_index p) q) in
  ((global_step c <= gs')%Z /\ (gs' + Z.of_nat k' <= global_step c + Z.of_nat (pot p))%Z /\ k' <= pot p) \/
  (gs' = ckpt_value (fs c) /\ k' <= pot p) \/
  (gs' = global_step c /\ (global_step c < MAX_STEPS)%Z) ->
  budget_ok (mkCluster fs' gs' init' (set_pc c i p q) r t).
Proof.
  intros Hi (H1 & H2 & H3) Hck Hr k' Hcase. unfold budget_ok. cbn [global_step fs procs restarts]. rewrite Hck.
  pose proof (sum_pot_set_pc c i p q Hi). pose proof (sum_pot_le (set_pc c i p q)).
  rewrite (count_set_pc_worker c i p q Hi) in *. unfold k' in *.
  destruct Hcase as [(? & ? & ?) | [(-> & ?) | (-> & ?)]]; split_and!; lia.
Qed.

Lemma step_budget c ev c' :
  Forall role_ok (procs c) -> budget_ok c -> cstep c ev = Some c' -> budget_ok c'.
Proof.
  intros Hall Hb. destruct ev as [i|i|i|i|i| |i]; simpl.
  6: { case_match; [|done]. intros [= <-]. destruct Hb as (? & ? & ?). unfold budget_ok, ckpt_value.
       simpl. rewrite lookup_insert_eq. lia. }
  all: destruct (procs c !! i) as [p|] eqn:Hi; [simpl|done];
    pose proof (Forall_lookup_1 _ _ _ _ Hall Hi) as Hrole; unfold role_ok in Hrole.
  - destruct (proc_step _ _ _ _ _ _ _ _ _) as [[[[q fs'] gs'] init']|] eqn:Hs; [simpl|done].
    intros [= <-]. destruct (proc_step_budget _ _ _ _ _ _ _ _ _ _ _ _ _ Hs) as (? & [-> | ->] & ?);
      apply budget_set_pc; auto; cbv zeta; first [left; lia|right; left; lia].
  - destruct (pc p) as [| | | | | | | |ds v uv st [| | |]| |] eqn:Ep; try done.
    destruct (st <? MAX_STEPS)%Z eqn:Hst; [|done].
    destruct (GetNextBatch ds) as [[b ds']|e]; intros [= <-]; apply budget_set_pc; auto; cbv zeta; left;
      unfold pot, is_worker in *; simpl; rewrite Ep, Hrole, ?Hst; lia.
  - destruct (pc p) as [| | | | | | | |ds v uv st [| |o|]| |] eqn:Ep; try done; intros [= <-];
      apply budget_set_pc; auto; cbv zeta; left; unfold pot, is_worker in *; simpl; rewrite Ep, Hrole; [lia|].
    destruct (o <? MAX_STEPS)%Z; lia.
  - destruct (pc p) as [| | | | | | | |ds v uv st [| | |]| |] eqn:Ep; try done; intros [= <-];
      apply budget_set_pc; auto; cbv zeta;
      (destruct (Z.ltb_spec (global_step c) MAX_STEPS); [right; right; lia|left]);
      unfold pot, is_worker in *; simpl; rewrite Ep, Hrole, (proj2 (Z.ltb_ge _ _)) by lia; lia.
  - destruct (pc p) as [| | | | | | | |ds v uv st [| | |]| |] eqn:Ep; try done. intros [= <-].
    apply budget_set_pc; auto. cbv zeta. left.
    assert (pot (mkProc (job_name p) (task_index p) WStopped) = 0) by (unfold pot; simpl; by destruct (is_worker _)). lia.
  - destruct (is_worker p) eqn:Hw; [|done]. intros [= <-].
    destruct Hb as (H1 & H2 & H3). pose proof (sum_pot_set_pc c i p Start Hi).
    unfold budget_ok. simpl. rewrite (count_set_pc_worker c i p _ Hi).
    assert (pot (mkProc (job_name p) (task_index p) Start) <= 1)
      by (unfold pot; simpl; destruct (is_worker _); lia). lia.
Qed.

End StepBound.

(** ** Reachable states *)

(** A program counter past the [READY] barrier of src/distrib.py:86-88. *)
Definition past_barrier (q : Pc) : bool :=
  match q with WReady _ | WTraining _ _ _ _ _ => true | _ => false end.

Section Reachable.
Variable corpus : string.
Variable params : Params.
Variable params_blob : result string.
Variable ps_hosts worker_hosts : string.
Variable fs0 : gmap string entry.
Variable tasks : list (string * nat).

Local Abbreviation reach := (reachable corpus params params_blob ps_hosts worker_hosts fs0 tasks).

Lemma reachable_run c evs c' :
  reach c -> run corpus params params_blob ps_hosts worker_hosts c evs = Some c' -> reach c'.
Proof.
  revert c. induction evs as [|ev evs IH]; simpl; intros c Hc; [by intros [= <-]|].
  destruct (step _ _ _ _ _ c ev) as [c1|] eqn:E; [simpl|done]. apply IH. by econstructor.
Qed.

Lemma role_reachable c : reach c -> Forall role_ok (procs c).
Proof.
  induction 1 as [|c ev c' _ IH Hs]; [|by eapply step_role].
  simpl. apply Forall_forall. intros p (jt & -> & _)%list_elem_of_fmap. done.
Qed.

Lemma budget_reachable c :
  reach c -> budget_ok (Z.max (ckpt_value fs0) MAX_STEPS) c.
Proof.
  induction 1 as [|c ev c' Hr IH Hs].
  - pose proof (sum_pot_le (procs (init_cluster fs0 tasks))) as Hle.
    unfold budget_ok. revert Hle. generalize (procs (init_cluster fs0 tasks)).
    intros ps Hle. cbn [global_step fs restarts init_cluster]. unfold MAX_STEPS. lia.
  - eapply step_budget; [lia|by apply role_reachable|done..].
Qed.

(** The experiment directory starts without vocabularies and without
    [READY]. *)
Hypothesis fresh_word : fs0 !! WORD_VOCAB_PATH = None.
Hypothesis fresh_user : fs0 !! USER_VOCAB_PATH = None.
Hypothesis fresh_ready : fs0 !! READY_PATH = None.

Lemma coord_reachable c : reach c -> coord_inv corpus c.
Proof.
  induction 1 as [|c ev c' _ IH Hs]; [|by eapply step_coord_inv].
  split.
  - unfold fs_ok, vocab_entry_ok, has_ready. simpl.
    rewrite fresh_word, fresh_user, fresh_ready. split; [done|]. split; [done|].
    by rewrite bool_decide_eq_false_2 by (intros [? ?]; done).
  - simpl. apply Forall_forall. intros p (jt & -> & _)%list_elem_of_fmap. done.
Qed.

Lemma pc_ok_reachable c i p : reach c -> procs c !! i = Some p -> pc_ok corpus (fs c) (pc p).
Proof. intros Hr Hi. destruct (coord_reachable c Hr) as [_ Hall]. exact (Forall_lookup_1 _ _ _ _ Hall Hi). Qed.

(** C4: No worker is past the [READY] barrier before the directory holds
    [READY] and both vocabulary files: the parameter server creates
    [READY] only after saving both vocabularies. *)
Theorem barrier_safety c i p :
  reachable corpus params params_blob ps_hosts worker_hosts fs0 tasks c -> procs c !! i = Some p -> past_barrier (pc p) = true ->
  has_ready (fs c) = true /\ is_Some (fs c !! WORD_VOCAB_PATH) /\ is_Some (fs c !! USER_VOCAB_PATH).
Proof.
  intros Hr Hi Hb. destruct (coord_reachable c Hr) as [(_ & _ & Hready) _].
  pose proof (pc_ok_reachable c i p Hr Hi) as Hp.
  assert (has_ready (fs c) = true) by (destruct (pc p); naive_solver).
  split; [done|]. by apply Hready.
Qed.

(** C3: Every worker in the training loop holds the vocabularies the
    parameter server built from the whole corpus; hence any two workers
    train with the same word and user vocabularies. *)
Theorem workers_agree_on_vocabs c i j p p' ds ds' v v' uv uv' st st' fl fl' :
  reachable corpus params params_blob ps_hosts worker_hosts fs0 tasks c -> procs c !! i = Some p -> procs c !! j = Some p' ->
  pc p = WTraining ds v uv st fl -> pc p' = WTraining ds' v' uv' st' fl' ->
  leader_vocabs corpus = Ok (v, uv) /\ v' = v /\ uv' = uv.
Proof.
  intros Hr Hi Hj Ep Ep'.
  pose proof (pc_ok_reachable c i p Hr Hi) as Hp. pose proof (pc_ok_reachable c j p' Hr Hj) as Hp'.
  rewrite Ep in Hp. rewrite Ep' in Hp'. destruct Hp as [_ Hl], Hp' as [_ Hl'].
  rewrite Hl in Hl'. injection Hl' as <- <-. done.
Qed.

End Reachable.

(** C9: [global_step] never exceeds the larger of the restored checkpoint
    and [MAX_STEPS] by more than twice the number of workers plus the
    number of worker restarts.  A worker tests the step it read last, and
    that read may be stale: it can come before its own increment and
    before the increments of other workers in flight, so a worker can
    pass the loop test once more after [global_step] reached the bound,
    besides the step it was running. *)
Theorem global_step_bound corpus params params_blob ps_hosts worker_hosts fs0 tasks c :
  reachable corpus params params_blob ps_hosts worker_hosts fs0 tasks c ->
  (global_step c <= Z.max (ckpt_value fs0) MAX_STEPS
                    + 2 * Z.of_nat (count_true is_worker (procs c)) + Z.of_nat (restarts c))%Z.
Proof.
  intros Hr. destruct (budget_reachable _ _ _ _ _ _ _ c Hr) as [H _]. lia.
Qed.

Lemma shard_reachable corpus params params_blob ps_hosts worker_hosts fs0 tasks c :
  reachable corpus params params_blob ps_hosts worker_hosts fs0 tasks c ->
  Forall (shard_ok corpus params worker_hosts) (procs c).
Proof.
  induction 1 as [|c ev c' _ IH Hs]; [|by eapply step_shard].
  simpl. apply Forall_forall. by intros p (jt & -> & _)%list_elem_of_fmap.
Qed.

(** C5: Every worker in the training loop draws its batches from exactly
    the prepared records of its own shard of the training partition
    ([task_index mod num_workers]), in some order: the shard read at
    src/distrib.py:69-77, prepared at line 88, and cycled through by
    [GetNextBatch]. *)
Theorem worker_trains_on_its_shard corpus params params_blob ps_hosts worker_hosts fs0 tasks c i p ds v uv st fl :
  reachable corpus params params_blob ps_hosts worker_hosts fs0 tasks c ->
  procs c !! i = Some p -> pc p = WTraining ds v uv st fl ->
  exists us ts rs,
    ReadDataSharded Train None (task_index p) (num_workers worker_hosts) corpus = Ok (us, ts) /\
    rows ds = Some rs /\ rs ≡ₚ map (prepare_row v uv (S (p_max_len params))) (zip us ts).
Proof.
  intros Hr Hi Ep. pose proof (Forall_lookup_1 _ _ _ _ (shard_reachable _ _ _ _ _ _ _ c Hr) Hi) as Hp.
  unfold shard_ok, my_shard in Hp. by rewrite Ep in Hp.
Qed.

(** ** Rerunning in a used directory *)

Lemma has_ready_insert fs k e : has_ready fs = true -> has_ready (<[k := e]> fs) = true.
Proof. intros H. eapply has_ready_grows; [apply fs_grows_insert|done]. Qed.

Lemma proc_step_fs corpus params params_blob ps_hosts worker_hosts p fs gs init q fs' gs' init' :
  proc_step corpus params params_blob ps_hosts worker_hosts p fs gs init = Some (q, fs', gs', init') ->
  fs_grows fs fs'.
Proof.
  unfold proc_step. destruct (pc p); repeat case_match; intros [= <- <- <- <-];
    auto using fs_grows_refl, fs_grows_insert.
Qed.

Lemma step_fs_grows corpus params params_blob ps_hosts worker_hosts c ev c' :
  step corpus params params_blob ps_hosts worker_hosts c ev = Some c' -> fs_grows (fs c) (fs c').
Proof.
  destruct ev as [i|i|i|i|i| |i]; simpl.
  6: by case_match; intros [= <-]; apply fs_grows_insert.
  all: destruct (procs c !! i) as [p|]; [simpl|done].
  1: { destruct (proc_step _ _ _ _ _ _ _ _ _) as [[[[q fs'] gs'] init']|] eqn:Hs; [simpl|done].
       intros [= <-]. by eapply proc_step_fs. }
  all: repeat case_match; intros [= <-]; apply fs_grows_refl.
Qed.

(** No process with task index 0 is blocked in [server.join()]. *)
Definition no_leader_join (c : Cluster) : Prop :=
  Forall (fun p => pc p = PsJoin -> task_index p <> 0) (procs c).

Lemma step_no_leader_join corpus params params_blob ps_hosts worker_hosts c ev c' :
  has_ready (fs c) = true -> no_leader_join c ->
  step corpus params params_blob ps_hosts worker_hosts c ev = Some c' -> no_leader_join c'.
Proof.
  intros Hready Hall. unfold no_leader_join.
  destruct ev as [i|i|i|i|i| |i]; simpl.
  6: by case_match; intros [= <-].
  all: destruct (procs c !! i) as [p|] eqn:Hi; [simpl|done].
  1: { destruct (proc_step _ _ _ _ _ _ _ _ _) as [[[[q fs'] gs'] init']|] eqn:Hs; [simpl|done].
       intros [= <-]. apply Forall_insert; [done|]. simpl. intros ->.
       revert Hs. unfold proc_step. rewrite Hready.
       destruct (pc p); repeat case_match; intros [= Hq]; subst; try done.
       by apply Nat.eqb_neq. }
  all: repeat case_match; intros [= <-]; apply Forall_insert; done.
Qed.

(** C10: Rerunning in an experiment directory that already holds [READY]
    (an earlier run, or a restarted parameter server) never lets task 0
    reach [server.join()]: [os.mkdir(READY)] raises [OSError]
    (src/distrib.py:61-64), so training cannot resume in the same
    directory. *)
Theorem rerun_leader_never_joins corpus params params_blob ps_hosts worker_hosts fs0 tasks c i p :
  has_ready fs0 = true ->
  reachable corpus params params_blob ps_hosts worker_hosts fs0 tasks c ->
  procs c !! i = Some p -> task_index p = 0 -> pc p <> PsJoin.
Proof.
  intros Hready Hr.
  assert (has_ready (fs c) = true /\ no_leader_join c) as [_ Hall].
  { induction Hr as [|c ev c' Hr IH Hs].
    - split; [done|]. apply Forall_forall. by intros ? (jt & -> & _)%list_elem_of_fmap.
    - destruct IH as [IH1 IH2]. split; [|by eapply step_no_leader_join].
      eapply has_ready_grows; [by eapply step_fs_grows|done]. }
  intros Hi Ht Hj. by apply (Forall_lookup_1 _ _ _ _ Hall Hi).
Qed.

(** ** A concrete cluster

    One parameter server and two workers on the 30-line sample corpus,
    with [max_len = 5] and [batch_size = 3]. *)
Definition sample_params : Params := mkParams 5 3 "hyper".
Definition sample_tasks : list (string * nat) := [("ps", 0); ("worker", 0); ("worker", 1)]%string.

Definition sample_run (fs0 : gmap string entry) (evs : list Event) : option Cluster :=
  run (sample_corpus 30) sample_params (Ok "{}") "ps0" "w0,w1" (init_cluster fs0 sample_tasks) evs.

(** Worker 0 starts and waits; the parameter server saves the vocabularies
    and creates [READY]; worker 0 (the chief) initializes; worker 1 joins. *)
Definition setup_events : list Event :=
  [EvStep 0; EvStep 1; EvStep 2; EvStep 1; EvStep 1; EvStep 0; EvStep 0; EvStep 0;
   EvStep 1; EvStep 1; EvStep 2; EvStep 2; EvStep 2].

Definition setup_state : option Cluster := Eval vm_compute in sample_run ∅ setup_events.

(** A directory holding a checkpoint one below the loop bound.  Both
    workers enter [sess.run], both read [MAX_STEPS - 1] before either
    increment lands, so both pass the loop test again and run a second
    step: [global_step] ends at [MAX_STEPS + 3]. *)
Definition overshoot_fs : gmap string entry := {[CKPT_PATH := Ckpt (MAX_STEPS - 1)]}.
Definition stale_events : list Event :=
  setup_events ++
  [EvTrain 1; EvTrain 2; EvFetch 1; EvFetch 2; EvInc 1; EvInc 2;
   EvTrain 1; EvTrain 2; EvInc 1; EvInc 2; EvFetch 1; EvFetch 2].
Definition overshoot_state : option Cluster := Eval vm_compute in sample_run overshoot_fs stale_events.

Lemma sample_run_reachable fs0 evs c :
  sample_run fs0 evs = Some c ->
  reachable (sample_corpus 30) sample_params (Ok "{}") "ps0" "w0,w1" fs0 sample_tasks c.
Proof. apply reachable_run, reach_init. Qed.

(** Worker 0 (the chief) is in the training loop after the setup. *)
Lemma barrier_safety_witness :
  exists c p, setup_state = Some c /\ procs c !! 1 = Some p /\ past_barrier (pc p) = true /\
    has_ready (fs c) = true /\ is_Some (fs c !! WORD_VOCAB_PATH) /\ is_Some (fs c !! USER_VOCAB_PATH).
Proof.
  eexists _, _. split; [reflexivity|]. split; [reflexivity|]. split; [reflexivity|].
  eapply (barrier_safety (sample_corpus 30) sample_params (Ok "{}") "ps0" "w0,w1" ∅ sample_tasks _ _ _ _ 1).
    all: first [reflexivity | apply (sample_run_reachable ∅ setup_events); vm_compute; reflexivity].
  Unshelve. all: reflexivity.
Defined.

(** Both workers train with the vocabularies built by the parameter server. *)
Lemma workers_agree_on_vocabs_witness :
  exists c p p' ds ds' v v' uv uv' st st',
    setup_state = Some c /\ procs c !! 1 = Some p /\ procs c !! 2 = Some p' /\
    pc p = WTraining ds v uv st Idle /\ pc p' = WTraining ds' v' uv' st' Idle /\
    leader_vocabs (sample_corpus 30) = Ok (v, uv) /\ v' = v /\ uv' = uv.
Proof.
  do 11 eexists. split; [reflexivity|]. split; [reflexivity|]. split; [reflexivity|].
  split; [reflexivity|]. split; [reflexivity|].
  eapply (workers_agree_on_vocabs (sample_corpus 30) sample_params (Ok "{}") "ps0" "w0,w1" ∅ sample_tasks
      _ _ _ _ 1 2).
    all: first [reflexivity | apply (sample_run_reachable ∅ setup_events); vm_compute; reflexivity].
  Unshelve. all: reflexivity.
Defined.

(** The stale reads: two workers take [global_step] to [MAX_STEPS + 3],
    within the bound [MAX_STEPS + 4]. *)
Lemma global_step_bound_witness :
  exists c, overshoot_state = Some c /\ global_step c = (MAX_STEPS + 3)%Z /\
    (global_step c <= Z.max (ckpt_value overshoot_fs) MAX_STEPS
                      + 2 * Z.of_nat (count_true is_worker (procs c)) + Z.of_nat (restarts c))%Z.
Proof.
  eexists. split; [reflexivity|]. split; [reflexivity|].
  apply (global_step_bound (sample_corpus 30) sample_params (Ok "{}") "ps0" "w0,w1" overshoot_fs sample_tasks).
  apply (sample_run_reachable overshoot_fs stale_events).
  vm_compute. reflexivity.
Defined.

(** The directory left by the setup run, reused: the parameter server
    rewrites both vocabularies and then crashes in [os.mkdir]. *)
Definition rerun_fs : gmap string entry :=
  match setup_state with Some c => fs c | None => ∅ end.
Definition rerun_events : list Event := [EvStep 0; EvStep 0; EvStep 0; EvStep 0].
Definition rerun_state : option Cluster := Eval vm_compute in sample_run rerun_fs rerun_events.

Lemma rerun_leader_never_joins_witness :
  exists c p, rerun_state = Some c /\ procs c !! 0 = Some p /\ task_index p = 0 /\
    pc p = Crashed OSError /\ pc p <> PsJoin.
Proof.
  eexists _, _. split; [reflexivity|]. split; [reflexivity|]. split; [reflexivity|].
  split; [reflexivity|].
  eapply (rerun_leader_never_joins (sample_corpus 30) sample_params (Ok "{}") "ps0" "w0,w1" rerun_fs sample_tasks _ 0).
  all: first [reflexivity | apply (sample_run_reachable rerun_fs rerun_events); vm_compute; reflexivity].
Defined.

(** Worker 0 trains on positions 0, 2, 4, ... of the training partition. *)
Lemma worker_trains_on_its_shard_witness :
  exists c p ds v uv st, setup_state = Some c /\ procs c !! 1 = Some p /\ pc p = WTraining ds v uv st Idle /\
  exists us ts rs,
    ReadDataSharded Train None (task_index p) (num_workers "w0,w1") (sample_corpus 30) = Ok (us, ts) /\
    rows ds = Some rs /\ rs ≡ₚ map (prepare_row v uv (S (p_max_len sample_params))) (zip us ts).
Proof.
  do 6 eexists. split; [reflexivity|]. split; [reflexivity|]. split; [reflexivity|].
  eapply (worker_trains_on_its_shard (sample_corpus 30) sample_params (Ok "{}") "ps0" "w0,w1" ∅ sample_tasks _ 1).
  - apply (sample_run_reachable ∅ setup_events). vm_compute. reflexivity.
  - reflexivity.
  - reflexivity.
Defined.

End Cluster.
