(* ===== verification/Flags.v ===== *)
(** * The flags of src/distrib.py and the launch of its processes

    src/distrib.py:14-30 declares seven [tf.app.flags]; [tf.app.run()]
    (line 160) parses [sys.argv] with the global parser's
    [parse_known_args] and passes what it did not recognize to [main],
    which ignores it.  [DEFINE_string] adds [--name] with [type=str],
    [DEFINE_integer] with [type=int], Python 2's [int()] (a bad value is
    a parser error, status 2).  [parse_flags] is that parse, on the
    classification and consumption of Argparse.v; [proc_of_argv] is the
    process of Cluster.v a command line starts: its job and task.  The
    host lists it parses are not per process in Cluster.v, whose
    transitions take them as parameters shared by all processes. *)

From S2P Require Import Prelude PyStr Argparse Cluster.
From Stdlib Require Import Ascii DecimalZ DecimalPos.
Import PyStr Argparse Cluster.
Local Open Scope string_scope.

Module Flags.

(** ** Python 2's [int()] on a string *)

(** The digit [c] as the head of a decimal numeral. *)
Definition digit_of (c : ascii) : option (Decimal.uint -> Decimal.uint) :=
  if Ascii.eqb c "0" then Some Decimal.D0 else if Ascii.eqb c "1" then Some Decimal.D1
  else if Ascii.eqb c "2" then Some Decimal.D2 else if Ascii.eqb c "3" then Some Decimal.D3
  else if Ascii.eqb c "4" then Some Decimal.D4 else if Ascii.eqb c "5" then Some Decimal.D5
  else if Ascii.eqb c "6" then Some Decimal.D6 else if Ascii.eqb c "7" then Some Decimal.D7
  else if Ascii.eqb c "8" then Some Decimal.D8 else if Ascii.eqb c "9" then Some Decimal.D9
  else None.

(** The longest run of digits at the start of [s], and the rest. *)
Fixpoint span_uint (s : string) : Decimal.uint * string :=
  match s with
  | EmptyString => (Decimal.Nil, EmptyString)
  | String c s' =>
      match digit_of c with
      | Some d => let '(u, r) := span_uint s' in (d u, r)
      | None => (Decimal.Nil, s)
      end
  end.

Fixpoint lstrip (s : string) : string :=
  match s with
  | String c s' => if py_isspace c then lstrip s' else s
  | EmptyString => EmptyString
  end.

(** [int(s)] ([PyInt_FromString] with [PyOS_strtol], base 10): blanks,
    an optional sign, blanks, at least one digit, blanks.  Values past a
    machine word become Python longs, so the result is unbounded. *)
Definition py_int (s : string) : option Z :=
  let s1 := lstrip s in
  let '(neg, s2) :=
    match s1 with
    | String c r => if Ascii.eqb c "-" then (true, r) else if Ascii.eqb c "+" then (false, r) else (false, s1)
    | EmptyString => (false, s1)
    end in
  let '(u, tail) := span_uint (lstrip s2) in
  match u with
  | Decimal.Nil => None
  | _ => if str_forall py_isspace tail then Some (Z.of_int (if neg then Decimal.Neg u else Decimal.Pos u))
         else None
  end.

(** [str(z)]. *)
Fixpoint uint_str (u : Decimal.uint) : string :=
  match u with
  | Decimal.Nil => EmptyString
  | Decimal.D0 u => String "0" (uint_str u) | Decimal.D1 u => String "1" (uint_str u)
  | Decimal.D2 u => String "2" (uint_str u) | Decimal.D3 u => String "3" (uint_str u)
  | Decimal.D4 u => String "4" (uint_str u) | Decimal.D5 u => String "5" (uint_str u)
  | Decimal.D6 u => String "6" (uint_str u) | Decimal.D7 u => String "7" (uint_str u)
  | Decimal.D8 u => String "8" (uint_str u) | Decimal.D9 u => String "9" (uint_str u)
  end.

Definition int_str (z : Z) : string :=
  match Z.to_int z with
  | Decimal.Pos u => uint_str u
  | Decimal.Neg u => String "-" (uint_str u)
  end.

(** ** The flags (src/distrib.py:14-30) *)

Record Flags := mkFlags {
  expdir : string;
  params : string;
  ps_hosts : string;
  worker_hosts : string;
  job_name : string;
  task_index : Z;
  worker_threads : Z
}.

Inductive Flag := FHelp | FExpdir | FParams | FPsHosts | FWorkerHosts | FJobName | FTaskIndex | FWorkerThreads.

(** The global parser's options, [-h]/[--help] first, then in the order
    of the [DEFINE_*] calls. *)
Definition flag_strings : list (string * Flag) :=
  [("-h", FHelp); ("--help", FHelp); ("--expdir", FExpdir); ("--params", FParams);
   ("--ps_hosts", FPsHosts); ("--worker_hosts", FWorkerHosts); ("--job_name", FJobName);
   ("--task_index", FTaskIndex); ("--worker_threads", FWorkerThreads)].

(** The defaults. *)
Definition flags0 : Flags := mkFlags "" "default_params.json" "" "" "" 0 8.

Definition is_help (o : Flag) : bool := match o with FHelp => true | _ => false end.

(** A string flag stores its value; an integer flag its [int()]. *)
Definition set_flag (o : Flag) (v : string) (st : Flags * list string) : result (Flags * list string) :=
  let '(f, xs) := st in
  match o with
  | FExpdir => Ok (mkFlags v (params f) (ps_hosts f) (worker_hosts f) (job_name f) (task_index f) (worker_threads f), xs)
  | FParams => Ok (mkFlags (expdir f) v (ps_hosts f) (worker_hosts f) (job_name f) (task_index f) (worker_threads f), xs)
  | FPsHosts => Ok (mkFlags (expdir f) (params f) v (worker_hosts f) (job_name f) (task_index f) (worker_threads f), xs)
  | FWorkerHosts => Ok (mkFlags (expdir f) (params f) (ps_hosts f) v (job_name f) (task_index f) (worker_threads f), xs)
  | FJobName => Ok (mkFlags (expdir f) (params f) (ps_hosts f) (worker_hosts f) v (task_index f) (worker_threads f), xs)
  | FTaskIndex =>
      match py_int v with
      | Some z => Ok (mkFlags (expdir f) (params f) (ps_hosts f) (worker_hosts f) (job_name f) z (worker_threads f), xs)
      | None => Err USAGE_EXIT
      end
  | FWorkerThreads =>
      match py_int v with
      | Some z => Ok (mkFlags (expdir f) (params f) (ps_hosts f) (worker_hosts f) (job_name f) (task_index f) z, xs)
      | None => Err USAGE_EXIT
      end
  | FHelp => Err USAGE_EXIT   (** never reached: [consume] runs the help action *)
  end.

(** [parse_known_args] keeps every argument it does not recognize, in
    order, the [--] marker included. *)
Definition keep (s : string) (st : Flags * list string) : Flags * list string := (st.1, (st.2 ++ [s])%list).

(** [FLAGS._parse_flags()], called by [tf.app.run()]: the flags and the
    arguments passed on to [main]. *)
Definition parse_flags (argv : list string) : result (Flags * list string) :=
  items ← classify_all flag_strings argv;
  consume is_help set_flag keep keep (keep "--") items (flags0, []).

(** ** Launching the processes *)

(** One process of the cluster started with command line [argv]: a
    parser error or [--help] ends it before [main]; a negative
    [--task_index] is rejected by [tf.train.Server] (line 40) before
    anything else happens; otherwise it enters [main] with its job and
    task. *)
Definition proc_of_argv (argv : list string) : Proc :=
  match parse_flags argv with
  | Err e => mkProc "" 0 (Crashed e)
  | Ok (f, _) =>
      if (task_index f <? 0)%Z then mkProc "" 0 (Crashed ValueError)
      else mkProc (job_name f) (Z.to_nat (task_index f)) Start
  end.

(** [--name=value]. *)
Definition assign (name v : string) : string := name ++ String "=" v.

(** The command line that sets every flag, each as [--name=value]. *)
Definition render_flags (f : Flags) : list string :=
  [assign "--expdir" (expdir f); assign "--params" (params f); assign "--ps_hosts" (ps_hosts f);
   assign "--worker_hosts" (worker_hosts f); assign "--job_name" (job_name f);
   assign "--task_index" (int_str (task_index f)); assign "--worker_threads" (int_str (worker_threads f))].

(** ** [int()] reads back [str()] *)

Lemma span_uint_str u : span_uint (uint_str u) = (u, EmptyString).
Proof. induction u; simpl; rewrite ?IHu; reflexivity. Qed.

Lemma py_int_uint u : u <> Decimal.Nil ->
  py_int (uint_str u) = Some (Z.of_int (Decimal.Pos u)) /\
  py_int (String "-" (uint_str u)) = Some (Z.of_int (Decimal.Neg u)).
Proof. destruct u; [done|..]; intros _; unfold py_int; simpl; rewrite span_uint_str; done. Qed.

Lemma py_int_int_str z : py_int (int_str z) = Some z.
Proof.
  rewrite <- (DecimalZ.of_to z) at 2. unfold int_str.
  destruct z as [|p|p]; [reflexivity| |]; apply py_int_uint, DecimalPos.Unsigned.to_uint_nonnil.
Qed.

(** ** Parsing *)

Lemma flag_strings_no_eq : Forall (fun p => no_eq p.1 = true) flag_strings.
Proof. repeat constructor. Qed.

Lemma classify_all_flag name o v rest :
  lookup_opt flag_strings name = Some o -> plain name = false ->
  classify_all flag_strings (assign name v :: rest) =
    its ← classify_all flag_strings rest; Ok (IOpt (Some o) name (Some v) :: its).
Proof. intros Hl Hn. exact (classify_all_assign _ name o v rest flag_strings_no_eq Hn Hl). Qed.

Lemma foldl_keep l f xs : foldl (fun st s => keep s st) (f, xs) l = (f, (xs ++ l)%list).
Proof. revert xs. induction l as [|s l IH]; intros xs; cbn [foldl]; [by rewrite app_nil_r|]. unfold keep at 2. by rewrite IH, <- app_assoc. Qed.

(** The command line that sets every flag, followed by arguments the
    parser takes as positionals. *)
Lemma parse_flags_render_app f rest :
  Forall (fun s => plain s = true) rest -> parse_flags (render_flags f ++ rest) = Ok (f, rest).
Proof.
  intros Hr. unfold parse_flags. cbn [render_flags List.app].
  do 7 (erewrite classify_all_flag by reflexivity). rewrite classify_all_plain by done.
  rewrite !bind_ret_Ok. cbn [consume is_help].
  repeat first [rewrite bind_ret_Ok | rewrite py_int_int_str | progress cbn [set_flag]].
  rewrite consume_args, foldl_keep. by destruct f.
Qed.

(** A process whose command line sets every flag, with a task index that
    is not negative, enters [main] with the job and task it was given. *)
Lemma proc_of_argv_render f rest :
  Forall (fun s => plain s = true) rest -> (0 <= task_index f)%Z ->
  proc_of_argv (render_flags f ++ rest) = mkProc (job_name f) (Z.to_nat (task_index f)) Start.
Proof.
  intros Hr Hi. unfold proc_of_argv. rewrite parse_flags_render_app by done.
  by rewrite (proj2 (Z.ltb_ge _ _) Hi).
Qed.

(** C35: [parse_known_args] reads back the command line that sets every
    flag as [--name=value], whatever the values (an integer written by
    [str()]), and passes the positionals after it on to [main]; a command
    line of positionals only gives the defaults of src/distrib.py:14-28
    ([params] default_params.json, [task_index] 0, [worker_threads] 8,
    the strings empty). *)
Theorem parse_flags_render f rest :
  Forall (fun s => plain s = true) rest ->
  parse_flags rest = Ok (flags0, rest) /\ parse_flags (render_flags f ++ rest) = Ok (f, rest).
Proof.
  intros Hr. split; [|by apply parse_flags_render_app].
  unfold parse_flags. rewrite classify_all_plain by done. simpl. by rewrite consume_args, foldl_keep.
Qed.

(** ** Witnesses *)

(** Values that look like options, a negative index and a trailing
    positional. *)
Definition sample_flags : Flags := mkFlags "-exp=1" "p.json" "ps0:2222" "w0:2222,w1:2222" "worker" (-3) 16.

Lemma parse_flags_render_witness :
  Forall (fun s => plain s = true) ["data"] /\
  parse_flags ["data"] = Ok (flags0, ["data"]) /\
  parse_flags (render_flags sample_flags ++ ["data"]) = Ok (sample_flags, ["data"]).
Proof.
  assert (H : Forall (fun s => plain s = true) ["data"]) by repeat constructor.
  split; [exact H|]. exact (parse_flags_render sample_flags ["data"] H).
Defined.

End Flags.
