(* ===== verification/Publication.v ===== *)
(** * The vocabulary publication protocol, abstractly

    What the parameter server promises the workers through the experiment
    directory (src/distrib.py:52-64 on one side, 80-88 on the other): the
    vocabularies are published once, by creating [READY] after both files
    are saved; a worker acquires them only after publication, reading
    back exactly what was published, and holds them until it leaves the
    training loop.  [Spec] is this contract as a labelled transition
    system with stutter steps (the label [None]); [Refinement] maps every
    cluster state to a state of the contract ([abs]) and shows that every
    transition of [Cluster.step] is one step of the contract, so that
    every reachable cluster is a reachable state of the contract and
    every run of the cluster a run of it ([spec_run]): the vocabularies,
    once published, never change. *)

From S2P Require Import Prelude PyStr Corpus Vocab Batcher Cluster.
Import Corpus Vocab Batcher Cluster.

Module Publication.

(** ** The contract *)

Module Spec.

Inductive Action :=
| Publish (vs : Vocab * Vocab)
| Acquire (i : nat)
| Release (i : nat).

(** [pub]: the published vocabularies; [held]: per process, the
    vocabularies it trains with. *)
Record Pub := mkPub { pub : option (Vocab * Vocab); held : list (option (Vocab * Vocab)) }.

Definition spec_step (s : Pub) (l : option Action) : option Pub :=
  match l with
  | None => Some s
  | Some (Publish vs) =>
      match pub s with None => Some (mkPub (Some vs) (held s)) | Some _ => None end
  | Some (Acquire i) =>
      match pub s with
      | Some vs => if decide (i < length (held s)) then Some (mkPub (pub s) (<[i := Some vs]> (held s))) else None
      | None => None
      end
  | Some (Release i) => Some (mkPub (pub s) (<[i := None]> (held s)))
  end.

Definition spec_init (n : nat) : Pub := mkPub None (replicate n None).

Inductive spec_reachable (n : nat) : Pub -> Prop :=
| spec_reach_init : spec_reachable n (spec_init n)
| spec_reach_step s l s' : spec_reachable n s -> spec_step s l = Some s' -> spec_reachable n s'.

(** Whatever a process holds is what was published. *)
Definition agree (s : Pub) : Prop :=
  Forall (fun h => forall vs, h = Some vs -> pub s = Some vs) (held s).

Lemma spec_step_agree s l s' : agree s -> spec_step s l = Some s' -> agree s'.
Proof.
  unfold agree. destruct l as [[vs|i|i]|]; simpl; intros Ha.
  - destruct (pub s); [done|]. intros [= <-]. simpl.
    eapply Forall_impl; [exact Ha|]. intros h H vs' ->. by specialize (H vs' eq_refl).
  - destruct (pub s) as [vs|] eqn:Hp; [|done]. case_decide; [|done]. intros [= <-]. simpl.
    apply Forall_insert; [done|]. by intros ? [= <-].
  - intros [= <-]. simpl. by apply Forall_insert.
  - by intros [= <-].
Qed.

Lemma spec_agree n s : spec_reachable n s -> agree s.
Proof.
  induction 1 as [|s l s' _ IH Hs]; [|by eapply spec_step_agree].
  unfold agree. simpl. apply Forall_replicate. done.
Qed.

(** Once published, the vocabularies never change. *)
Lemma spec_step_pub s l s' vs : pub s = Some vs -> spec_step s l = Some s' -> pub s' = Some vs.
Proof.
  intros Hp. destruct l as [[?|?|?]|]; simpl; rewrite ?Hp; try case_decide; intros; simplify_eq; done.
Qed.

Lemma spec_step_length s l s' : spec_step s l = Some s' -> length (held s') = length (held s).
Proof.
  destruct l as [[?|?|?]|]; simpl; repeat case_match; intros; simplify_eq; simpl;
    rewrite ?length_insert; done.
Qed.

(** Runs of the contract. *)
Fixpoint spec_run (s : Pub) (ls : list (option Action)) : option Pub :=
  match ls with
  | [] => Some s
  | l :: ls' => s' ← spec_step s l; spec_run s' ls'
  end.

Lemma spec_run_pub s ls s' vs : pub s = Some vs -> spec_run s ls = Some s' -> pub s' = Some vs.
Proof.
  revert s. induction ls as [|l ls IH]; intros s Hp; simpl; [by intros [= <-]|].
  destruct (spec_step s l) as [s1|] eqn:Hs; [simpl|done]. apply IH. by eapply spec_step_pub.
Qed.

End Spec.

Import Spec.

(** ** The abstraction *)

(** The vocabularies a worker polling the directory would read
    (src/distrib.py:80-86): none before [READY] exists, then the two
    loaded files. *)
Definition published (fs : gmap string entry) : option (Vocab * Vocab) :=
  if has_ready fs then
    match load_file fs WORD_VOCAB_PATH, load_file fs USER_VOCAB_PATH with
    | Ok v, Ok uv => Some (v, uv)
    | _, _ => None
    end
  else None.

(** The vocabularies a process trains with. *)
Definition held_of (q : Pc) : option (Vocab * Vocab) :=
  match q with WTraining _ v uv _ _ => Some (v, uv) | _ => None end.

Definition abs (c : Cluster) : Pub :=
  mkPub (published (fs c)) ((fun p => held_of (pc p)) <$> procs c).

Definition to_option {A} (r : result A) : option A :=
  match r with Ok a => Some a | Err _ => None end.

Section Refinement.
Variable corpus : string.
Variable params : Params.
Variable params_blob : result string.
Variable ps_hosts worker_hosts : string.

Local Abbreviation leader := (leader_vocabs corpus).
Local Abbreviation pstep := (proc_step corpus params params_blob ps_hosts worker_hosts).
Local Abbreviation cstep := (step corpus params params_blob ps_hosts worker_hosts).

(** In a consistent directory the published vocabularies are the
    leader's as soon as [READY] exists. *)
Lemma published_leader fs :
  fs_ok corpus fs -> published fs = if has_ready fs then to_option leader else None.
Proof.
  intros Hfs. unfold published. destruct (has_ready fs) eqn:Hr; [|done].
  destruct (load_files_ok corpus fs Hfs Hr) as (v & uv & -> & -> & ->). done.
Qed.

Lemma abs_set_pc c i p q fs' gs' init' r t :
  abs (mkCluster fs' gs' init' (set_pc c i p q) r t) =
  mkPub (published fs') (<[i := held_of q]> (held (abs c))).
Proof. unfold abs, set_pc. simpl. by rewrite list_fmap_insert. Qed.

(** A process moving from [pc p] to [q] while the directory goes from
    [fs] to [fs'] is one step of the contract, provided [READY] is never
    removed, is created only by a process holding nothing, and a process
    starts holding only the leader's vocabularies, and with [READY]. *)
Lemma set_pc_refines c i p q fs' gs' init' r t :
  fs_ok corpus (fs c) -> fs_ok corpus fs' -> procs c !! i = Some p ->
  (has_ready (fs c) = true -> has_ready fs' = true) ->
  (has_ready fs' = true -> has_ready (fs c) = false -> held_of q = None /\ held_of (pc p) = None) ->
  (held_of q = None \/ held_of q = held_of (pc p) \/
   (has_ready fs' = true /\ exists vs, held_of q = Some vs /\ leader = Ok vs)) ->
  exists l, spec_step (abs c) l = Some (abs (mkCluster fs' gs' init' (set_pc c i p q) r t)).
Proof.
  intros Hfs Hfs' Hi Hgrow Hnew Hq. rewrite abs_set_pc.
  assert (Hh : held (abs c) !! i = Some (held_of (pc p))) by (simpl; by rewrite list_lookup_fmap, Hi).
  assert (Hlen : i < length (held (abs c))) by (apply lookup_lt_is_Some; eauto).
  unfold abs at 1. rewrite (published_leader fs' Hfs'), (published_leader _ Hfs).
  destruct (has_ready (fs c)) eqn:Hr; [rewrite (Hgrow eq_refl)|destruct (has_ready fs') eqn:Hr'].
  - destruct Hq as [-> | [-> | [_ (vs & -> & Hl)]]].
    + by exists (Some (Release i)).
    + exists None. simpl. f_equal. f_equal. symmetry. by apply list_insert_id.
    + exists (Some (Acquire i)). simpl. rewrite Hl. simpl. by rewrite decide_True.
  - destruct (Hnew eq_refl eq_refl) as [Hq' Hp].
    destruct (load_files_ok corpus fs' Hfs' Hr') as (v & uv & Hl & _).
    exists (Some (Publish (v, uv))). simpl. rewrite Hl, Hq'. simpl.
    f_equal. f_equal. symmetry. apply list_insert_id. simpl in Hh. by rewrite Hh, Hp.
  - destruct Hq as [-> | [-> | [? _]]]; [by exists (Some (Release i))| |congruence].
    exists None. simpl. f_equal. f_equal. symmetry. by apply list_insert_id.
Qed.

Lemma has_ready_insert_ne fs k e : k <> READY_PATH -> has_ready (<[k := e]> fs) = has_ready fs.
Proof. intros. unfold has_ready. by rewrite lookup_insert_ne. Qed.

Lemma held_of_pc_ok fs q :
  pc_ok corpus fs q -> held_of q = None \/ (has_ready fs = true /\ exists vs, held_of q = Some vs /\ leader = Ok vs).
Proof. destruct q; simpl; try by left. intros [? ?]. right. eauto. Qed.

(** Only [os.mkdir(READY)] (src/distrib.py:62) creates [READY], and the
    parameter server holds no vocabularies. *)
Lemma proc_step_ready p fs gs init q fs' gs' init' :
  has_ready fs = false -> has_ready fs' = true -> pstep p fs gs init = Some (q, fs', gs', init') ->
  held_of q = None /\ held_of (pc p) = None.
Proof.
  unfold proc_step. intros Hr. destruct (pc p); repeat case_match; intros Hr' [= <- <- <- <-];
    simpl; try done; rewrite ?has_ready_insert_ne in Hr' by path_neq; congruence.
Qed.

(** Every transition of the cluster is a step of the contract. *)
Lemma step_refines c ev c' :
  coord_inv corpus c -> cstep c ev = Some c' -> exists l, spec_step (abs c) l = Some (abs c').
Proof.
  intros Hinv Hs. pose proof (step_coord_inv corpus params params_blob ps_hosts worker_hosts c ev c' Hinv Hs) as [Hfs' _].
  pose proof Hinv as [Hfs Hall]. revert Hs Hfs'. destruct ev as [i|i|i|i|i| |i]; simpl.
  6: { case_match; [|done]. intros [= <-] Hfs'. simpl in Hfs'. exists None. unfold abs. simpl.
       rewrite (published_leader _ Hfs'), (published_leader _ Hfs), has_ready_insert_ne by path_neq. done. }
  all: destruct (procs c !! i) as [p|] eqn:Hi; [simpl|done].
  1: { destruct (proc_step _ _ _ _ _ _ _ _ _) as [[[[q fs'] gs'] init']|] eqn:Hs; [simpl|done].
       intros [= <-] Hfs'. pose proof (Forall_lookup_1 _ _ _ _ Hall Hi) as Hp.
       destruct (proc_step_inv corpus params params_blob ps_hosts worker_hosts p _ _ _ _ _ _ _ Hfs Hp Hs)
         as (_ & Hg & Hq).
       apply set_pc_refines; [done..|by apply has_ready_grows| |].
       + intros. by eapply proc_step_ready.
       + destruct (held_of_pc_ok _ _ Hq); auto. }
  (** The training events keep the vocabularies or drop them. *)
  all: destruct (pc p) eqn:Ep; repeat case_match; try done; intros [= <-] Hfs';
    (apply set_pc_refines; [done..|done|intros; congruence|]); first [by left | right; left; by rewrite Ep].
Qed.

End Refinement.

(** ** Reachable clusters *)

Section Reachable.
Variable corpus : string.
Variable params : Params.
Variable params_blob : result string.
Variable ps_hosts worker_hosts : string.
Variable fs0 : gmap string entry.
Variable tasks : list (string * nat).
Hypothesis fresh_word : fs0 !! WORD_VOCAB_PATH = None.
Hypothesis fresh_user : fs0 !! USER_VOCAB_PATH = None.
Hypothesis fresh_ready : fs0 !! READY_PATH = None.

Local Abbreviation reach := (reachable corpus params params_blob ps_hosts worker_hosts fs0 tasks).

Lemma abs_init : abs (init_cluster fs0 tasks) = spec_init (length tasks).
Proof.
  unfold abs, published, spec_init, has_ready. simpl. rewrite fresh_ready, bool_decide_eq_false_2
    by (intros [? ?]; done).
  f_equal. clear. induction tasks as [|jt ts IH]; [done|]. simpl. by f_equal.
Qed.

Lemma refines_reachable c : reach c -> spec_reachable (length tasks) (abs c).
Proof.
  induction 1 as [|c ev c' Hr IH Hs]; [rewrite abs_init; constructor|].
  destruct (step_refines corpus params params_blob ps_hosts worker_hosts c ev c') as [l Hl];
    [by apply (coord_reachable corpus params params_blob ps_hosts worker_hosts fs0 tasks)|done|].
  by eapply spec_reach_step.
Qed.

Lemma run_refines c evs c' :
  reach c -> run corpus params params_blob ps_hosts worker_hosts c evs = Some c' ->
  exists ls, spec_run (abs c) ls = Some (abs c').
Proof.
  revert c. induction evs as [|ev evs IH]; intros c Hr; simpl; [intros [= <-]; by exists []|].
  destruct (step _ _ _ _ _ c ev) as [c1|] eqn:Hs; [simpl|done]. intros Hrun.
  destruct (step_refines corpus params params_blob ps_hosts worker_hosts c ev c1) as [l Hl];
    [by apply (coord_reachable corpus params params_blob ps_hosts worker_hosts fs0 tasks)|done|].
  destruct (IH c1 (reach_step _ _ _ _ _ _ _ _ _ _ Hr Hs) Hrun) as [ls Hls].
  exists (l :: ls). simpl. by rewrite Hl.
Qed.

(** C28: The vocabularies are published once: in a fresh experiment
    directory, once [READY] and the two vocabulary files publish [vs],
    every later state of the cluster, after any run of any processes
    (workers restarted, checkpoints written), publishes the same [vs].
    The proof goes through the refinement of [Spec]: every run of the
    cluster is a run of the contract, where [Publish] is refused once
    something is published. *)
Theorem published_once c evs c' vs :
  reachable corpus params params_blob ps_hosts worker_hosts fs0 tasks c ->
  run corpus params params_blob ps_hosts worker_hosts c evs = Some c' ->
  published (fs c) = Some vs -> published (fs c') = Some vs.
Proof.
  intros Hr Hrun Hp. destruct (run_refines c evs c' Hr Hrun) as [ls Hls].
  change (pub (abs c') = Some vs). by apply (spec_run_pub (abs c) ls); [exact Hp|exact Hls].
Qed.

(** C29: A worker in the training loop trains with exactly the
    vocabularies the directory publishes: [READY] exists and the two
    files load to its word and user vocabularies. *)
Theorem trains_with_published c i p ds v uv st fl :
  reachable corpus params params_blob ps_hosts worker_hosts fs0 tasks c ->
  procs c !! i = Some p -> pc p = WTraining ds v uv st fl ->
  published (fs c) = Some (v, uv).
Proof.
  intros Hr Hi Ep. pose proof (spec_agree _ _ (refines_reachable c Hr)) as Ha.
  unfold agree in Ha. simpl in Ha. rewrite Forall_fmap in Ha.
  apply (Forall_lookup_1 _ _ _ _ Ha Hi). by rewrite Ep.
Qed.

End Reachable.

(** ** The sample cluster *)

(** After the setup run the chief trains, writes a checkpoint, and
    worker 1 is restarted and starts over: the published vocabularies
    stay. *)
Definition later_events : list Event := [EvTrain 1; EvCheckpoint; EvRestart 2; EvStep 2].

Lemma published_once_witness :
  exists c c' vs, setup_state = Some c /\
    run (sample_corpus 30) sample_params (Ok "{}") "ps0" "w0,w1" c later_events = Some c' /\
    published (fs c) = Some vs /\ published (fs c') = Some vs.
Proof.
  do 3 eexists. split; [reflexivity|].
  match goal with |- run _ _ _ _ _ ?c ?evs = _ /\ _ =>
    split; [vm_compute; reflexivity|]; split; [vm_compute; reflexivity|];
    apply (published_once (sample_corpus 30) sample_params (Ok "{}") "ps0" "w0,w1" ∅ sample_tasks (lookup_empty _) (lookup_empty _) (lookup_empty _) c evs)
  end.
  all: first [apply (sample_run_reachable ∅ setup_events); vm_compute; reflexivity | vm_compute; reflexivity].
Defined.

Lemma trains_with_published_witness :
  exists c p ds v uv st fl, setup_state = Some c /\ procs c !! 2 = Some p /\ pc p = WTraining ds v uv st fl /\
    published (fs c) = Some (v, uv).
Proof.
  do 7 eexists. split; [reflexivity|]. split; [reflexivity|]. split; [reflexivity|].
  eapply (trains_with_published (sample_corpus 30) sample_params (Ok "{}") "ps0" "w0,w1" ∅ sample_tasks _ _ _ _ 2).
  all: first [reflexivity | apply (sample_run_reachable ∅ setup_events); vm_compute; reflexivity].
  Unshelve. all: reflexivity.
Defined.

End Publication.
