(* ===== verification/Termination.v ===== *)
(** * Termination of the training loop

    [while not sv.should_stop() and step < 1000000] (src/distrib.py:133)
    tests the step a worker observed last, and the chief restores
    [global_step] from the checkpoint when it initializes the variables
    (src/distrib.py:115-124).  In a run without worker restarts the chief
    initializes at most once, every training step increments
    [global_step] by one, and [Cluster.global_step] stays within its
    budget; so the cluster performs finitely many training steps in total,
    at most [max(c0, MAX_STEPS) - c0] plus two per worker, where [c0] is
    the step of the checkpoint found in the directory. *)

From S2P Require Import Prelude PyStr Corpus Vocab Batcher Cluster.
Import Corpus Batcher Cluster.

Module Termination.

(** A worker that has not yet passed variable initialization. *)
Definition pre_init (q : Pc) : bool :=
  match q with Start | WStart | WWaiting _ | WReady _ => true | _ => false end.

Definition is_training (q : Pc) : bool :=
  match q with WTraining _ _ _ _ _ => true | _ => false end.

Definition chief_pre (p : Proc) : bool := is_chief p && pre_init (pc p).
Definition training (p : Proc) : bool := is_training (pc p).

(** Before initialization nobody trains and the checkpoint is the one
    found; afterwards [global_step] counts the training steps from the
    restored checkpoint, and no chief is left to initialize again. *)
Definition train_inv (c0 : Z) (c : Cluster) : Prop :=
  count_true is_chief (procs c) <= 1 /\
  (restarts c = 0 ->
   if var_init c then global_step c = (c0 + Z.of_nat (trains c))%Z /\ count_true chief_pre (procs c) = 0
   else trains c = 0 /\ ckpt_value (fs c) = c0 /\ count_true training (procs c) = 0).

(** The number of training steps a run may perform when the checkpoint
    found holds step [c0]: the steps up to the loop bound, plus two per
    worker, the steps past it a worker may take on stale reads of
    [global_step]. *)
Definition training_bound (c0 : Z) (c : Cluster) : Z :=
  Z.max c0 MAX_STEPS - c0 + 2 * Z.of_nat (count_true is_worker (procs c)).

Section Facts.
Variable corpus : string.
Variable params : Params.
Variable params_blob : result string.
Variable ps_hosts worker_hosts : string.

Local Abbreviation pstep := (proc_step corpus params params_blob ps_hosts worker_hosts).
Local Abbreviation cstep := (step corpus params params_blob ps_hosts worker_hosts).

(** A statement either leaves the flag, [global_step] and the checkpoint
    alone, or is the chief's initialization; only a restart makes a
    process pre-initialization again. *)
Lemma proc_step_train p fs gs init q fs' gs' init' :
  pstep p fs gs init = Some (q, fs', gs', init') ->
  (pre_init q = true -> pre_init (pc p) = true) /\
  ((init' = init /\ gs' = gs /\ ckpt_value fs' = ckpt_value fs /\
    (is_training q = true -> is_training (pc p) = true \/ init = true)) \/
   (is_chief p = true /\ pre_init (pc p) = true /\ pre_init q = false /\ init' = true /\
    gs' = ckpt_value fs /\ fs' = fs)).
Proof.
  unfold proc_step. destruct (pc p) eqn:Ep; repeat case_match; intros [= <- <- <- <-];
    (split; [done|]); first [right; by split_and! | left; split_and!; try done];
    first [by rewrite ?ckpt_value_insert_ne by path_neq | intros; by right].
Qed.

Lemma is_chief_set_pc p q : is_chief (mkProc (job_name p) (task_index p) q) = is_chief p.
Proof. done. Qed.

(** The shape of the counting argument for [set_pc]. *)
Lemma count_set_pc_le (f : Proc -> bool) c i p q :
  procs c !! i = Some p ->
  (f (mkProc (job_name p) (task_index p) q) = true -> f p = true) ->
  count_true f (set_pc c i p q) <= count_true f (procs c).
Proof.
  intros Hi Himp. pose proof (count_set_pc f c i p q Hi).
  destruct (f p), (f (mkProc _ _ q)); lia.
Qed.

Lemma count_chief_set_pc c i p q :
  procs c !! i = Some p -> count_true is_chief (set_pc c i p q) = count_true is_chief (procs c).
Proof. intros Hi. pose proof (count_set_pc is_chief c i p q Hi). rewrite is_chief_set_pc in *. lia. Qed.

Lemma chief_pre_set_pc p q :
  (pre_init q = true -> pre_init (pc p) = true) ->
  chief_pre (mkProc (job_name p) (task_index p) q) = true -> chief_pre p = true.
Proof. unfold chief_pre. rewrite is_chief_set_pc. simpl. intros Hq [-> ?]%andb_true_iff. by rewrite Hq. Qed.

(** A process leaving the initialization phase. *)
Lemma count_chief_pre_leave c i p q :
  procs c !! i = Some p -> pre_init q = false ->
  count_true chief_pre (set_pc c i p q) <= count_true chief_pre (procs c).
Proof.
  intros Hi Hq. apply count_set_pc_le; [done|]. unfold chief_pre. simpl. by rewrite Hq, andb_false_r.
Qed.

(** The chief's initialization starts the count. *)
Lemma train_inv_chief_init c0 c i p q fs' :
  train_inv c0 c -> var_init c = false -> procs c !! i = Some p ->
  is_chief p = true -> pre_init (pc p) = true -> pre_init q = false ->
  train_inv c0 (mkCluster fs' (ckpt_value (fs c)) true (set_pc c i p q) (restarts c) (trains c)).
Proof.
  intros [Hch Hinv] Hv Hi Hc Hp Hq. rewrite Hv in Hinv.
  split; [simpl; by rewrite count_chief_set_pc|]. simpl. intros Hr. destruct (Hinv Hr) as (Ht & Hck & _).
  rewrite Ht, Hck. split; [lia|].
  pose proof (count_set_pc chief_pre c i p q Hi) as Hcnt.
  assert (E1 : chief_pre p = true) by (unfold chief_pre; by rewrite Hc, Hp).
  assert (E2 : chief_pre (mkProc (job_name p) (task_index p) q) = false)
    by (unfold chief_pre; simpl; by rewrite Hq, andb_false_r).
  rewrite E1, E2 in Hcnt. assert (count_true chief_pre (procs c) <= count_true is_chief (procs c))
    by (apply count_true_le; by intros ? [? ?]%andb_true_iff). lia.
Qed.

(** A worker of the training loop moving on, with [global_step] and the
    count of training steps growing together. *)
Lemma train_inv_move c0 c i p q (gs' : Z) t :
  train_inv c0 c -> procs c !! i = Some p -> training p = true -> pre_init q = false ->
  (gs' = global_step c + Z.of_nat (t - trains c))%Z -> trains c <= t ->
  train_inv c0 (mkCluster (fs c) gs' (var_init c) (set_pc c i p q) (restarts c) t).
Proof.
  intros [Hch Hinv] Hi Htp Hq Hgs' Ht. split; [simpl; by rewrite count_chief_set_pc|]. simpl.
  intros Hr. specialize (Hinv Hr). destruct (var_init c);
    [destruct Hinv as [Hgs Hcp]|destruct Hinv as (_ & _ & Htc); pose proof (count_true_pos training _ _ _ Hi Htp); lia].
  split; [lia|]. pose proof (count_chief_pre_leave c i p q Hi Hq). lia.
Qed.

Lemma step_train_inv c0 c ev c' : train_inv c0 c -> cstep c ev = Some c' -> train_inv c0 c'.
Proof.
  intros Hti. pose proof Hti as [Hch Hinv]. destruct ev as [i|i|i|i|i| |i]; simpl.
  1: { destruct (procs c !! i) as [p|] eqn:Hi; [simpl|by intros [=]].
    destruct (proc_step _ _ _ _ _ _ _ _ _) as [[[[q fs'] gs'] init']|] eqn:Hs; [simpl|by intros [=]].
    intros [= <-]. destruct (proc_step_train _ _ _ _ _ _ _ _ Hs)
      as [Hpre [(-> & -> & Hck & Htr) | (Hc & Hp & Hq & -> & -> & ->)]].
    + split; [simpl; by rewrite count_chief_set_pc|]. simpl. intros Hr. specialize (Hinv Hr).
      destruct (var_init c).
      * destruct Hinv as [Hgs Hcp]. split; [done|].
        pose proof (count_set_pc_le chief_pre c i p q Hi (chief_pre_set_pc p q Hpre)). lia.
      * destruct Hinv as (Ht & Hck0 & Htc). split_and!; [done|congruence|].
        assert (count_true training (set_pc c i p q) <= count_true training (procs c)); [|lia].
        apply count_set_pc_le; [done|]. unfold training. simpl. intros Hq. destruct (Htr Hq) as [H|H]; [exact H|discriminate H].
    + destruct (var_init c) eqn:Hv; [|by apply train_inv_chief_init].
      split; [simpl; by rewrite count_chief_set_pc|]. simpl. intros Hr.
      exfalso. destruct (Hinv Hr) as [_ Hcp]. pose proof (count_true_pos chief_pre _ _ _ Hi).
      unfold chief_pre in *. rewrite Hc, Hp in *. simpl in *. lia. }
  5: { destruct (existsb _ _) eqn:He; [|by intros [=]]. intros [= <-]. split; [exact Hch|]. simpl. intros Hr. specialize (Hinv Hr).
    destruct (var_init c); [done|]. destruct Hinv as (_ & _ & Htc). exfalso.
    apply existsb_exists in He as (p & Hin & Hp). apply list_elem_of_In, list_elem_of_lookup_1 in Hin as [i Hi].
    assert (Htp : training p = true) by (apply andb_true_iff in Hp as [_ Hp]; exact Hp).
    pose proof (count_true_pos training _ _ _ Hi Htp). lia. }
  5: { destruct (procs c !! i) as [p|] eqn:Hi; [simpl|by intros [=]]. destruct (is_worker p); [|by intros [=]]. intros [= <-].
    split; [simpl; by rewrite count_chief_set_pc|]. simpl. by intros [=]. }
  (** [EvTrain], [EvInc], [EvFetch] and [EvStop]: a worker of the loop moves on. *)
  all: destruct (procs c !! i) as [p|] eqn:Hi; [simpl|by intros [=]].
  all: clear Hinv Hch; destruct (pc p) eqn:Ep; repeat case_match;
    first [by intros [=] | intros [= <-]; apply train_inv_move;
                           first [done | unfold training; by rewrite Ep | simpl; lia]].
Qed.

End Facts.

(** ** Reachable clusters *)

Lemma train_inv_reachable corpus params params_blob ps_hosts worker_hosts fs0 tasks c :
  count_true is_chief (procs (init_cluster fs0 tasks)) <= 1 ->
  reachable corpus params params_blob ps_hosts worker_hosts fs0 tasks c -> train_inv (ckpt_value fs0) c.
Proof.
  intros Hch. induction 1 as [|c ev c' _ IH Hs]; [|by eapply step_train_inv].
  split; [done|]. intros _. simpl. split_and!; [done|done|].
  clear. induction tasks as [|jt ts IH]; [done|]. unfold count_true in *. simpl. rewrite filter_cons. simpl. exact IH.
Qed.

(** C30: The training loop terminates: in a run without worker restarts
    and with at most one chief, the cluster performs at most
    [max(c0, MAX_STEPS) - c0] training steps plus two per worker in
    total, [c0] being the step of the checkpoint found in the directory
    (src/distrib.py:115-124,133-150), whatever the interleaving of the
    workers' increments and reads of [global_step] within [sess.run]. *)
Theorem training_terminates corpus params params_blob ps_hosts worker_hosts fs0 tasks c :
  count_true is_chief (procs (init_cluster fs0 tasks)) <= 1 ->
  reachable corpus params params_blob ps_hosts worker_hosts fs0 tasks c -> restarts c = 0 ->
  (Z.of_nat (trains c) <= training_bound (ckpt_value fs0) c)%Z.
Proof.
  intros Hch Hr Hr0. unfold training_bound. destruct (budget_reachable _ _ _ _ _ _ _ c Hr) as [Hb _].
  destruct (train_inv_reachable _ _ _ _ _ _ _ c Hch Hr) as [_ Hinv]. specialize (Hinv Hr0).
  rewrite Hr0 in Hb. destruct (var_init c); [destruct Hinv as [Hgs _]|destruct Hinv as (Ht & _)]; lia.
Qed.

(** Restored one below [MAX_STEPS], the two workers of the sample
    cluster read stale values of [global_step] and run four training
    steps, within the bound of five. *)
Lemma training_terminates_witness :
  exists c, overshoot_state = Some c /\ trains c = 4 /\
    (Z.of_nat (trains c) <= training_bound (ckpt_value overshoot_fs) c)%Z.
Proof.
  eexists. split; [reflexivity|]. split; [reflexivity|].
  apply (training_terminates (sample_corpus 30) sample_params (Ok "{}") "ps0" "w0,w1" overshoot_fs sample_tasks);
    [vm_compute; lia| |reflexivity].
  apply (sample_run_reachable overshoot_fs stale_events).
  vm_compute. reflexivity.
Defined.

End Termination.
