(* ===== verification/Logging.v ===== *)
(** * The training log of the distributed workers

    A training step of src/distrib.py:148-154 is one [sess.run] that
    applies [train_op] and reads [global_step]; in Cluster.v it is the
    events [EvTrain], [EvInc] and [EvFetch], and [sess.run] returns when
    the later of the increment and the read lands.  The step a worker
    observes is the value of its read, and the worker logs
    [(step, cost)] to its own [worker<task_index>.log] (and prints it)
    when [step % 10 == 0].  [train_obs] is the process and the step of
    the [sess.run] an event completes, [log_line] what it writes, and
    [run_log] the lines a run writes, each tagged with the index of the
    process that writes it, in the order they are written.  In a run
    without restarts every worker's own log is non-decreasing; the
    interleaved log of several workers is not, and two workers may log
    the same step. *)

From S2P Require Import Prelude PyStr Corpus Vocab Batcher Cluster Termination.
Import Corpus Batcher Cluster Termination.

Module Logging.

(** The value a worker has read in a [sess.run] that has not yet
    incremented. *)
Definition fetched_of (q : Pc) : option Z :=
  match q with WTraining _ _ _ _ (Fetched o) => Some o | _ => None end.

(** The steps process [j] logged, in order. *)
Definition log_of (j : nat) (l : list (nat * Z)) : list Z := snd <$> filter (fun x => x.1 = j) l.

Section Log.
Variable corpus : string.
Variable params : Params.
Variable params_blob : result string.
Variable ps_hosts worker_hosts : string.

Local Abbreviation cstep := (step corpus params params_blob ps_hosts worker_hosts).

(** [cost, _, step = sess.run([model.cost, train_op, global_step])]
    (src/distrib.py:148-149): the worker whose [sess.run] the event
    completes, and the step it returns: the value read before the
    increment when the increment lands last, the value read after it
    when the read lands last. *)
Definition train_obs (c : Cluster) (ev : Event) : option (nat * Z) :=
  match ev with
  | EvInc i =>
      p ← procs c !! i;
      match pc p with WTraining _ _ _ _ (Fetched obs) => Some (i, obs) | _ => None end
  | EvFetch i =>
      p ← procs c !! i;
      match pc p with WTraining _ _ _ _ Incremented => Some (i, global_step c) | _ => None end
  | _ => None
  end.

(** [if step % 10 == 0: logging.info(...)] (src/distrib.py:151-154). *)
Definition log_line (c : Cluster) (ev : Event) : list (nat * Z) :=
  match train_obs c ev with
  | Some (i, obs) => if (obs mod 10 =? 0)%Z then [(i, obs)] else []
  | None => []
  end.

(** A run and the log lines it writes. *)
Fixpoint run_log (c : Cluster) (evs : list Event) : option (Cluster * list (nat * Z)) :=
  match evs with
  | [] => Some (c, [])
  | ev :: evs' => c' ← cstep c ev; '(c'', l) ← run_log c' evs'; Some (c'', log_line c ev ++ l)
  end.

(** The runs from [init_cluster fs0 tasks] with the log they wrote. *)
Inductive reach_log (fs0 : gmap string entry) (tasks : list (string * nat)) : Cluster -> list (nat * Z) -> Prop :=
| reach_log_init : reach_log fs0 tasks (init_cluster fs0 tasks) []
| reach_log_step c l ev c' : reach_log fs0 tasks c l -> cstep c ev = Some c' -> reach_log fs0 tasks c' (l ++ log_line c ev).

End Log.

(** A worker holding a read value read it from [global_step] after
    everything it logged. *)
Definition fetched_ok (c : Cluster) (l : list (nat * Z)) : Prop :=
  forall j p o, procs c !! j = Some p -> fetched_of (pc p) = Some o ->
  (o <= global_step c)%Z /\ Forall (fun x => (x <= o)%Z) (log_of j l).

(** Without restarts: every process's log is sorted, no logged step is
    above [global_step], nothing is logged before the chief initializes,
    and read values bound their process's log. *)
Definition log_ok (c : Cluster) (l : list (nat * Z)) : Prop :=
  restarts c = 0 ->
  (forall j, StronglySorted Z.le (log_of j l)) /\ Forall (fun x => (x.2 <= global_step c)%Z) l /\
  (var_init c = false -> l = []) /\ fetched_ok c l.

(** ** The log of one process *)

Lemma log_of_app j l l' : log_of j (l ++ l') = log_of j l ++ log_of j l'.
Proof. unfold log_of. by rewrite filter_app, fmap_app. Qed.

Lemma log_of_single j i o : log_of j [(i, o)] = if decide (i = j) then [o] else [].
Proof. unfold log_of. rewrite filter_cons, filter_nil. simpl. by case_decide. Qed.

Lemma log_of_le j l (g : Z) :
  Forall (fun x => (x.2 <= g)%Z) l -> Forall (fun x => (x <= g)%Z) (log_of j l).
Proof.
  intros H. unfold log_of. apply Forall_fmap, Forall_forall. intros x [_ Hx]%list_elem_of_filter.
  by eapply Forall_forall in H; [|exact Hx].
Qed.

Lemma log_of_sorted_app j l i o :
  StronglySorted Z.le (log_of j l) -> (i = j -> Forall (fun x => (x <= o)%Z) (log_of j l)) ->
  StronglySorted Z.le (log_of j (l ++ [(i, o)])).
Proof.
  intros Hs Hle. rewrite log_of_app, log_of_single. case_decide; [|by rewrite app_nil_r].
  apply StronglySorted_app_last; [done|]. by apply Hle.
Qed.

Lemma lookup_set_pc c i p q j :
  procs c !! i = Some p ->
  set_pc c i p q !! j = if decide (i = j) then Some (mkProc (job_name p) (task_index p) q) else procs c !! j.
Proof.
  intros Hi. unfold set_pc. case_decide as E; [subst; apply list_lookup_insert_eq|by rewrite list_lookup_insert_ne].
  by eapply lookup_lt_Some.
Qed.

Section Facts.
Variable corpus : string.
Variable params : Params.
Variable params_blob : result string.
Variable ps_hosts worker_hosts : string.
Variable fs0 : gmap string entry.
Variable tasks : list (string * nat).

Local Abbreviation cstep := (step corpus params params_blob ps_hosts worker_hosts).
Local Abbreviation rlog := (reach_log corpus params params_blob ps_hosts worker_hosts fs0 tasks).

Lemma run_log_reach c l evs c' l' :
  rlog c l -> run_log corpus params params_blob ps_hosts worker_hosts c evs = Some (c', l') -> rlog c' (l ++ l').
Proof.
  revert c l c' l'. induction evs as [|ev evs IH]; simpl; intros c l c' l' Hc.
  - intros [= <- <-]. by rewrite app_nil_r.
  - destruct (step _ _ _ _ _ c ev) as [c1|] eqn:E; [simpl|done].
    destruct (run_log _ _ _ _ _ c1 evs) as [[c2 l2]|] eqn:E2; [simpl|done]. intros [= <- <-].
    rewrite app_assoc. apply (IH c1); [by econstructor|done].
Qed.

Lemma reach_log_reachable c l : rlog c l -> reachable corpus params params_blob ps_hosts worker_hosts fs0 tasks c.
Proof. induction 1; by econstructor. Qed.

Lemma log_line_mod c ev : Forall (fun x => (x.2 mod 10 = 0)%Z) (log_line c ev).
Proof.
  unfold log_line. destruct (train_obs c ev) as [[i obs]|]; [|done].
  destruct (Z.eqb_spec (obs mod 10) 0); by repeat constructor.
Qed.

Lemma step_restarts c ev c' : cstep c ev = Some c' -> restarts c <= restarts c'.
Proof.
  destruct ev; simpl; try destruct (procs c !! _); simpl; try destruct (proc_step _ _ _ _ _ _ _ _ _) as [[[[? ?] ?] ?]|];
    simpl; repeat case_match; intros; simplify_eq; simpl; lia.
Qed.

Lemma proc_step_not_fetched p fs gs init q fs' gs' init' :
  proc_step corpus params params_blob ps_hosts worker_hosts p fs gs init = Some (q, fs', gs', init') ->
  fetched_of q = None.
Proof. unfold proc_step. destruct (pc p); repeat case_match; intros [= <- <- <- <-]; done. Qed.

Lemma fetched_training q o : fetched_of q = Some o -> is_training q = true.
Proof. by destruct q as [| | | | | | | |? ? ? ? []| |]. Qed.

(** A worker of the training loop runs after the chief initialized. *)
Lemma training_init c0 c i p :
  train_inv c0 c -> restarts c = 0 -> procs c !! i = Some p -> is_training (pc p) = true -> var_init c = true.
Proof.
  intros [_ Hinv] Hr Hi Hp. specialize (Hinv Hr). destruct (var_init c); [done|].
  destruct Hinv as (_ & _ & Htc). pose proof (count_true_pos training _ _ _ Hi Hp). lia.
Qed.

(** A process moving to [q] without writing to the log. *)
Lemma log_ok_set_pc c l i p q fs' gs' t :
  log_ok c l -> restarts c = 0 -> procs c !! i = Some p -> (global_step c <= gs')%Z ->
  (forall o, fetched_of q = Some o -> (o <= gs')%Z /\ Forall (fun x => (x <= o)%Z) (log_of i l)) ->
  log_ok (mkCluster fs' gs' (var_init c) (set_pc c i p q) (restarts c) t) l.
Proof.
  intros Hl Hr Hi Hg Hq _. destruct (Hl Hr) as (Hs & Hf & Hv & Hfe). split_and!; try done.
  - eapply Forall_impl; [exact Hf|]. simpl. lia.
  - intros j p' o. simpl. rewrite lookup_set_pc by done. case_decide as E.
    + subst. intros [= <-]. apply Hq.
    + intros Hj Ho. destruct (Hfe j p' o Hj Ho). split; [lia|done].
Qed.

(** A process moving to [q] and logging step [o]. *)
Lemma log_ok_set_pc_log c l i p q fs' gs' t o :
  log_ok c l -> restarts c = 0 -> procs c !! i = Some p -> var_init c = true -> (global_step c <= gs')%Z ->
  fetched_of q = None -> (o <= gs')%Z -> Forall (fun x => (x <= o)%Z) (log_of i l) ->
  log_ok (mkCluster fs' gs' (var_init c) (set_pc c i p q) (restarts c) t) (l ++ [(i, o)]).
Proof.
  intros Hl Hr Hi Hv Hg Hq Ho Hle _. destruct (Hl Hr) as (Hs & Hf & _ & Hfe). split_and!.
  - intros j. apply log_of_sorted_app; [done|]. by intros <-.
  - apply Forall_app. split; [eapply Forall_impl; [exact Hf|]; simpl; lia|constructor; [simpl; lia|done]].
  - simpl. by rewrite Hv.
  - intros j p' o'. simpl. rewrite lookup_set_pc by done. case_decide as E.
    + subst. intros [= <-]. simpl. by rewrite Hq.
    + intros Hj Ho'. destruct (Hfe j p' o' Hj Ho') as [H1 H2]. split; [lia|].
      by rewrite log_of_app, log_of_single, decide_False, app_nil_r.
Qed.

(** The chief's initialization, before anything is logged or read. *)
Lemma log_ok_chief_init c0 c l i p q fs' :
  train_inv c0 c -> log_ok c l -> restarts c = 0 -> var_init c = false -> procs c !! i = Some p ->
  fetched_of q = None -> log_ok (mkCluster fs' (ckpt_value (fs c)) true (set_pc c i p q) (restarts c) (trains c)) l.
Proof.
  intros [_ Hinv] Hl Hr Hv Hi Hq _. destruct (Hl Hr) as (_ & _ & Hl0 & _). specialize (Hinv Hr).
  rewrite Hv in Hinv. destruct Hinv as (_ & _ & Htc). rewrite (Hl0 Hv). split_and!; try by constructor.
  intros j p' o. simpl. rewrite lookup_set_pc by done. case_decide as E.
  - subst. intros [= <-]. simpl. by rewrite Hq.
  - intros Hj Ho%fetched_training. pose proof (count_true_pos training _ _ _ Hj Ho). lia.
Qed.

Lemma step_log_ok c0 c ev c' l :
  train_inv c0 c -> log_ok c l -> cstep c ev = Some c' -> log_ok c' (l ++ log_line c ev).
Proof.
  intros Hti Hl Hst. destruct (decide (restarts c = 0)) as [Hr|Hr];
    [|intros Hr'; pose proof (step_restarts _ _ _ Hst); lia].
  pose proof (Hl Hr) as (_ & Hf & _ & Hfe). revert Hst.
  destruct ev as [i|i|i|i|i| |i]; unfold log_line; simpl; rewrite ?app_nil_r.
  6: { destruct (existsb _ _); [|by intros [=]]. intros [= <-]. intros _. exact (Hl Hr). }
  all: destruct (procs c !! i) as [p|] eqn:Hi; [simpl; rewrite ?app_nil_r|by intros [=]].
  - destruct (proc_step _ _ _ _ _ _ _ _ _) as [[[[q fs'] gs'] init']|] eqn:Hs; [simpl|by intros [=]].
    intros [= <-]. pose proof (proc_step_not_fetched _ _ _ _ _ _ _ _ Hs) as Hq.
    destruct (proc_step_train _ _ _ _ _ _ _ _ _ _ _ _ _ Hs)
      as [_ [(-> & -> & _ & _) | (Hc & Hp & _ & -> & -> & ->)]].
    + apply log_ok_set_pc; [done..|lia|]. by rewrite Hq.
    + destruct (var_init c) eqn:Hv; [|by eapply log_ok_chief_init].
      exfalso. destruct Hti as [_ Hinv]. specialize (Hinv Hr). rewrite Hv in Hinv. destruct Hinv as [_ Hcp]. pose proof (count_true_pos chief_pre _ _ _ Hi).
      unfold chief_pre in *. rewrite Hc, Hp in *. simpl in *. lia.
  - destruct (pc p) eqn:Ep; repeat case_match; first [by intros [=] | intros [= <-]];
      (apply log_ok_set_pc; [done..|lia|by intros ? [=]]).
  - destruct (pc p) as [| | | | | | | |ds v uv st [| |o|]| |] eqn:Ep; first [by intros [=] | intros [= <-]]; simpl; rewrite ?app_nil_r.
    + apply log_ok_set_pc; [done..|lia|by intros ? [=]].
    + destruct (Hfe i p o Hi) as [Ho Hle]; [by rewrite Ep|].
      pose proof (training_init c0 c i p Hti Hr Hi) as Hv. rewrite Ep in Hv. specialize (Hv eq_refl).
      case_match; [|rewrite app_nil_r; apply log_ok_set_pc; [done..|lia|by intros ? [=]]].
      apply log_ok_set_pc_log; [done..|lia|done|lia|done].
  - destruct (pc p) as [| | | | | | | |ds v uv st [| |o|]| |] eqn:Ep; first [by intros [=] | intros [= <-]]; simpl; rewrite ?app_nil_r.
    + apply log_ok_set_pc; [done..|lia|]. intros ? [= <-]. split; [lia|by apply log_of_le].
    + pose proof (training_init c0 c i p Hti Hr Hi) as Hv. rewrite Ep in Hv. specialize (Hv eq_refl).
      case_match; [|rewrite app_nil_r; apply log_ok_set_pc; [done..|lia|by intros ? [=]]].
      apply log_ok_set_pc_log; [done..|lia|done|lia|by apply log_of_le].
  - destruct (pc p) eqn:Ep; repeat case_match; first [by intros [=] | intros [= <-]];
      (apply log_ok_set_pc; [done..|lia|by intros ? [=]]).
  - destruct (is_worker p); [|by intros [=]]. intros [= <-] [=].
Qed.

Lemma reach_log_mod c l : rlog c l -> Forall (fun x => (x.2 mod 10 = 0)%Z) l.
Proof. induction 1; [done|]. apply Forall_app. split; [done|apply log_line_mod]. Qed.

Lemma log_ok_reach c l :
  count_true is_chief (procs (init_cluster fs0 tasks)) <= 1 -> rlog c l -> log_ok c l.
Proof.
  intros Hch. induction 1 as [|c l ev c' Hr IH Hs].
  - intros _. split_and!; try by constructor. intros j p o. simpl.
    intros (jt & -> & _)%list_lookup_fmap_Some. by intros [=].
  - eapply step_log_ok; [|exact IH|exact Hs].
    exact (train_inv_reachable _ _ _ _ _ _ _ c Hch (reach_log_reachable c l Hr)).
Qed.

End Facts.

(** C34: In a run without worker restarts and with at most one chief,
    every worker's own log (its [worker<task_index>.log],
    src/distrib.py:111-113,151-154) lists non-decreasing steps, all
    multiples of 10 and none above [global_step], whatever the
    interleaving of the increments and reads of the workers'
    [sess.run]s.  The order is not strict (a worker may log the same
    step twice), and the interleaved log of several workers may go back
    ([global_log_goes_back]). *)
Theorem log_steps_sorted corpus params params_blob ps_hosts worker_hosts fs0 tasks evs c l :
  count_true is_chief (procs (init_cluster fs0 tasks)) <= 1 ->
  run_log corpus params params_blob ps_hosts worker_hosts (init_cluster fs0 tasks) evs = Some (c, l) ->
  restarts c = 0 ->
  (forall j, StronglySorted Z.le (log_of j l)) /\ Forall (fun x => x.2 mod 10 = 0 /\ x.2 <= global_step c)%Z l.
Proof.
  intros Hch Hrun Hr.
  pose proof (run_log_reach corpus params params_blob ps_hosts worker_hosts fs0 tasks _ [] evs c l
                (reach_log_init _ _ _ _ _ _ _) Hrun) as Hrl.
  destruct (log_ok_reach _ _ _ _ _ _ _ c l Hch Hrl Hr) as (Hs & Hle & _).
  split; [done|]. apply Forall_and. split; [exact (reach_log_mod _ _ _ _ _ _ _ c l Hrl)|done].
Qed.

(** A checkpoint at step 9.  Worker 0 (process 1) and worker 1 (process
    2) enter [sess.run]; worker 1's increment lands first (step 10) and
    worker 0 reads 10; worker 1 reads 10 and logs it, then runs ten more
    steps alone and logs 20; only then does worker 0's increment land,
    and worker 0 logs the 10 it read. *)
Definition dup_fs : gmap string entry := {[CKPT_PATH := Ckpt 9]}.
Definition slow_events : list Event :=
  setup_events ++ [EvTrain 1; EvTrain 2; EvInc 2; EvFetch 1; EvFetch 2] ++
  concat (repeat [EvTrain 2; EvInc 2; EvFetch 2] 10) ++ [EvInc 1].
Definition slow_log : list (nat * Z) := [(2, 10%Z); (2, 20%Z); (1, 10%Z)].

Lemma log_steps_sorted_witness :
  exists c, run_log (sample_corpus 30) sample_params (Ok "{}") "ps0" "w0,w1" (init_cluster dup_fs sample_tasks) slow_events
              = Some (c, slow_log) /\ restarts c = 0 /\
    (forall j, StronglySorted Z.le (log_of j slow_log)) /\
    Forall (fun x => x.2 mod 10 = 0 /\ x.2 <= global_step c)%Z slow_log.
Proof.
  eexists. assert (Hrun : run_log (sample_corpus 30) sample_params (Ok "{}") "ps0" "w0,w1"
                            (init_cluster dup_fs sample_tasks) slow_events = Some (?[c], slow_log))
    by (vm_compute; reflexivity).
  split; [exact Hrun|]. split; [reflexivity|].
  exact (log_steps_sorted (sample_corpus 30) sample_params (Ok "{}") "ps0" "w0,w1" dup_fs sample_tasks slow_events _ _
           ltac:(vm_compute; lia) Hrun eq_refl).
Defined.

(** The interleaved log of that run goes from 20 back to 10. *)
Example global_log_goes_back : ~ StronglySorted Z.le (snd <$> slow_log).
Proof. intros Hs. inversion Hs as [|? ? Hs' Hf]. inversion Hs' as [|? ? _ Hf']. inversion Hf'. lia. Qed.

(** Without the no-restart hypothesis a worker's own log goes back: the
    chief trains to step 20, restarts, restores [global_step] from the
    checkpoint of step 9 that the directory still holds, and logs step
    10 again. *)
Definition restart_events : list Event :=
  setup_events ++ concat (repeat [EvTrain 1; EvInc 1; EvFetch 1] 11) ++
  [EvRestart 1; EvStep 1; EvStep 1; EvStep 1; EvStep 1; EvTrain 1; EvInc 1; EvFetch 1].

Example log_goes_back_after_chief_restart :
  exists c, run_log (sample_corpus 30) sample_params (Ok "{}") "ps0" "w0,w1" (init_cluster dup_fs sample_tasks)
              restart_events = Some (c, [(1, 10%Z); (1, 20%Z); (1, 10%Z)]) /\ restarts c = 1.
Proof. eexists. split; [vm_compute; reflexivity|reflexivity]. Qed.

End Logging.
