(* ===== verification/Config.v ===== *)
(** * Configuration errors of src/distrib.py

    Where each configuration error of a distributed run stops a process:
    a flag value Python's [int()] rejects ends it in the flag parser
    (Flags.v) before [main]; a job or task outside the cluster
    specification crashes it at [tf.train.Server] (Cluster.v, [Start]);
    an unknown model name ([models[params.model]], src/distrib.py:97-98)
    raises [KeyError] only once a worker has read its shard and passed
    the [READY] barrier, after the parameter server has read the whole
    corpus.  No worker ever trains with an unknown model name.  A
    parameters file that cannot be read or copied
    (src/distrib.py:45-47) crashes every process before it does
    anything else. *)

From S2P Require Import Prelude PyStr Argparse Corpus Batcher Cluster Termination Flags.
Import PyStr Argparse Corpus Batcher Cluster Termination Flags.
Local Open Scope string_scope.

Module Config.

(** No worker has entered the training loop, and no training step was
    taken. *)
Definition no_training (c : Cluster) : Prop :=
  trains c = 0 /\ Forall (fun p => is_training (pc p) = false /\ pc p <> WStopped) (procs c).

Section UnknownModel.
Variable corpus : string.
Variable params : Params.
Variable params_blob : result string.
Variable ps_hosts worker_hosts : string.
Hypothesis unknown_model : model_known (p_model params) = false.

Local Abbreviation pstep := (proc_step corpus params params_blob ps_hosts worker_hosts).
Local Abbreviation cstep := (step corpus params params_blob ps_hosts worker_hosts).

Lemma proc_step_no_training p fs gs init q fs' gs' init' :
  is_training (pc p) = false ->
  pstep p fs gs init = Some (q, fs', gs', init') -> is_training q = false /\ q <> WStopped.
Proof.
  unfold proc_step. rewrite unknown_model. intros Ht.
  destruct (pc p); try discriminate Ht; repeat case_match; intros [= <- <- <- <-]; done.
Qed.

Lemma step_no_training c ev c' : no_training c -> cstep c ev = Some c' -> no_training c'.
Proof.
  intros [Htr Hall]. unfold no_training.
  destruct ev as [i|i|i|i|i| |i]; simpl.
  6: by case_match; intros [= <-].
  all: (destruct (procs c !! i) as [p|] eqn:Hi; [simpl|done]);
    destruct (Forall_lookup_1 _ _ _ _ Hall Hi) as [Hp _].
  1: { destruct (pstep p (fs c) (global_step c) (var_init c)) as [[[[q fs'] gs'] init']|] eqn:Hs; [simpl|done].
       intros [= <-]. split; [done|]. apply Forall_insert; [done|]. by eapply proc_step_no_training. }
  5: { case_match; intros [= <-]. split; [done|]. by apply Forall_insert. }
  all: unfold is_training in Hp; by destruct (pc p).
Qed.

(** C36: With a model name that is neither [hyper] nor [mikolov], no
    worker of the cluster ever enters the training loop and no training
    step is taken, in any interleaving, with restarts or not. *)
Theorem unknown_model_never_trains fs0 tasks c :
  reachable corpus params params_blob ps_hosts worker_hosts fs0 tasks c ->
  trains c = 0 /\ Forall (fun p => is_training (pc p) = false) (procs c).
Proof.
  intros Hr. assert (no_training c) as [Ht Hall].
  { induction Hr as [|c ev c' _ IH Hs]; [|by eapply step_no_training].
    split; [done|]. apply Forall_forall. by intros ? (jt & -> & _)%list_elem_of_fmap. }
  split; [done|]. by eapply Forall_impl; [exact Hall|]; intros p [? _].
Qed.

End UnknownModel.

(** ** A parameters file that cannot be read *)

(** Nothing has happened: every process is at its first statement or
    crashed, and the directory, [global_step] and the flag are
    untouched. *)
Definition nothing_done (fs0 : gmap string entry) (c : Cluster) : Prop :=
  fs c = fs0 /\ global_step c = 0%Z /\ var_init c = false /\ trains c = 0 /\
  Forall (fun p => pc p = Start \/ exists e, pc p = Crashed e) (procs c).

Section ParamsError.
Variable corpus : string.
Variable params : Params.
Variable e : exn.
Variable ps_hosts worker_hosts : string.
Variable fs0 : gmap string entry.

Local Abbreviation cstep := (step corpus params (Err e) ps_hosts worker_hosts).

Lemma step_nothing_done c ev c' : nothing_done fs0 c -> cstep c ev = Some c' -> nothing_done fs0 c'.
Proof.
  intros (Hfs & Hgs & Hv & Ht & Hall). unfold nothing_done.
  destruct ev as [i|i|i|i|i| |i]; simpl.
  6: { destruct (existsb _ _) eqn:He; [|done]. exfalso. apply existsb_exists in He as (p & Hin%list_elem_of_In & Hp).
       eapply Forall_forall in Hin; [|exact Hall]. destruct Hin as [Hq|[? Hq]]; rewrite Hq in Hp;
       by rewrite andb_false_r in Hp. }
  all: (destruct (procs c !! i) as [p|] eqn:Hi; [simpl|done]);
    pose proof (Forall_lookup_1 _ _ _ _ Hall Hi) as Hp.
  1: { unfold proc_step. destruct Hp as [Hq|[? Hq]]; rewrite Hq; [|done].
       case_match; intros [= <-]; (split_and!; [done..|]); apply Forall_insert; eauto. }
  5: { case_match; intros [= <-]. split_and!; try done. apply Forall_insert; auto. }
  all: by destruct Hp as [Hq|[? Hq]]; rewrite Hq.
Qed.

(** C37: When the parameters file cannot be read ([open] or [json.load]
    raises, or [shutil.copy] fails, src/distrib.py:45-47), every process
    crashes at that statement, right after starting its server: in any
    run, restarts included, the experiment directory is never written,
    [global_step] is never initialized or incremented, and every process
    is at its start or crashed. *)
Theorem params_error_stops_all tasks c :
  reachable corpus params (Err e) ps_hosts worker_hosts fs0 tasks c ->
  fs c = fs0 /\ global_step c = 0%Z /\ var_init c = false /\ trains c = 0 /\
  Forall (fun p => pc p = Start \/ exists e', pc p = Crashed e') (procs c).
Proof.
  induction 1 as [|c ev c' _ IH Hs]; [|by eapply step_nothing_done].
  split_and!; try done. apply Forall_forall. intros ? (jt & -> & _)%list_elem_of_fmap. by left.
Qed.

End ParamsError.

(** A missing parameters file: the parameter server and both workers
    crash at [open], and a restarted worker crashes again. *)
Definition ioerror_events : list Event := [EvStep 0; EvStep 1; EvStep 2; EvRestart 1; EvStep 1].

Lemma params_error_stops_all_witness :
  exists c, run (sample_corpus 30) sample_params (Err IOError) "ps0" "w0,w1" (init_cluster ∅ sample_tasks)
              ioerror_events = Some c /\ restarts c = 1 /\
    fs c = ∅ /\ global_step c = 0%Z /\ var_init c = false /\ trains c = 0 /\
    Forall (fun p => pc p = Start \/ exists e', pc p = Crashed e') (procs c).
Proof.
  eexists. split; [vm_compute; reflexivity|]. split; [reflexivity|].
  apply (params_error_stops_all (sample_corpus 30) sample_params IOError "ps0" "w0,w1" ∅ sample_tasks).
  apply (reachable_run _ _ _ _ _ _ _ (init_cluster ∅ sample_tasks) ioerror_events); [constructor|].
  vm_compute. reflexivity.
Defined.

(** ** Flag values *)

(** C38: A [--task_index] value that Python 2's [int()] rejects ends the
    process in [tf.app.run()] with the parser's status 2, before [main]
    and whatever follows on the command line. *)
Lemma bad_task_index_exits v rest :
  py_int v = None -> proc_of_argv ("--task_index" :: v :: rest) = mkProc "" 0 (Crashed (SystemExit 2)).
Proof.
  intros Hv. unfold proc_of_argv, parse_flags. simpl.
  destruct (bool_decide (v = "--")) eqn:Em.
  { apply bool_decide_eq_true in Em as ->. reflexivity. }
  destruct (classify flag_strings v) as [[o s ex|t|]|e] eqn:E; simpl;
    try (destruct (classify_all flag_strings rest) as [its|e] eqn:Er; simpl;
         [|by apply classify_all_err in Er as ->]); try reflexivity.
  - apply classify_arg in E as ->. unfold set_flag. by rewrite Hv.
  - apply classify_err in E as ->. reflexivity.
Qed.

(** A letter O typed for a zero. *)
Lemma bad_task_index_exits_witness :
  py_int "1O" = None /\
  proc_of_argv ["--task_index"; "1O"; "--job_name"; "worker"] = mkProc "" 0 (Crashed (SystemExit 2)).
Proof.
  assert (H : py_int "1O" = None) by reflexivity.
  split; [exact H|]. exact (bad_task_index_exits "1O" _ H).
Defined.

(** ** A run with an unknown model name

    The sample cluster of Cluster.v with model [lstm]: worker 0 reads its
    shard, the parameter server reads the corpus, saves both vocabularies
    and creates [READY], and only then does worker 0 raise [KeyError]. *)
Definition lstm_params : Params := mkParams 5 3 "lstm".

Definition lstm_run (evs : list Event) : option Cluster :=
  run (sample_corpus 30) lstm_params (Ok "{}") "ps0" "w0,w1" (init_cluster ∅ sample_tasks) evs.

Definition lstm_events : list Event :=
  [EvStep 1; EvStep 1; EvStep 0; EvStep 0; EvStep 0; EvStep 0; EvStep 1; EvStep 1].

Example unknown_model_fails_after_reading :
  (exists c ds, lstm_run (take 2 lstm_events) = Some c /\ procs c !! 1 = Some (mkProc "worker" 0 (WWaiting ds))) /\
  (exists c, lstm_run lstm_events = Some c /\ procs c !! 1 = Some (mkProc "worker" 0 (Crashed KeyError)) /\
             has_ready (fs c) = true /\ is_Some (fs c !! WORD_VOCAB_PATH)).
Proof. split; eexists; [eexists|]; vm_compute; (split; [reflexivity|]); repeat split; eexists; reflexivity. Qed.

(** With model [lstm] the setup run of the sample cluster trains nowhere. *)
Lemma unknown_model_never_trains_witness :
  model_known (p_model lstm_params) = false /\
  exists c, lstm_run lstm_events = Some c /\
    trains c = 0 /\ Forall (fun p => is_training (pc p) = false) (procs c).
Proof.
  split; [reflexivity|]. eexists. split; [vm_compute; reflexivity|].
  apply (unknown_model_never_trains (sample_corpus 30) lstm_params (Ok "{}") "ps0" "w0,w1" eq_refl ∅ sample_tasks).
  apply (reachable_run _ _ _ _ _ _ _ (init_cluster ∅ sample_tasks) lstm_events); [constructor|].
  vm_compute. reflexivity.
Defined.

End Config.
